(** * spa: an in-memory single-page-app HTTP handler

    A shallow embedding of [spa.go].  The handler is built once from a
    directory tree ([NewHandler], [appendDirEntries], [appendFileEntry]) and
    then serves every request from the resulting map ([ServeHTTP]).

    Conventions of the embedding:
    - Go strings are byte strings: [string]; file contents are [list byte].
    - Go's [int] is [Z]; [/] on [int] truncates toward zero: [Z.quot].
    - a Go function returning [(T, error)] returns a pair
      [T * option error], the error component being [None] for [nil].
    - [map[string]cacheEntry] is [gmap string cacheEntry]; a slice that is
      only appended to is a [list].
    - the file system read by the build is a finite tree, [fsnode]; the
      MIME registry and the gzip compressor are parameters of the build. *)

From stdpp Require Import gmap strings list fin_maps.
From Stdlib Require Import ZArith Ascii.
From Stdlib.Strings Require Import Byte.

(** Equality of bytes is decidable. *)
#[global] Instance byte_eq_decision : EqDecision byte := Byte.byte_eq_dec.

(** ** Go's [strings] package: the two functions the handler uses *)

Module GoStrings.

(** [strings.HasPrefix(s, prefix)] *)
Definition HasPrefix (s prefix : string) : bool := String.prefix prefix s.

(** [strings.Contains(s, substr)]: [substr] occurs at some offset of [s];
    the comparison is byte-wise, hence case-sensitive. *)
Fixpoint Contains (s substr : string) : bool :=
  String.prefix substr s ||
  match s with
  | EmptyString => false
  | String _ s' => Contains s' substr
  end.

End GoStrings.

(** ** Go's [path] package *)

Module path.

(** [path.IsAbs]: the path starts with a slash. *)
Definition IsAbs (p : string) : bool :=
  match p with
  | String c _ => Ascii.eqb c "/"%char
  | EmptyString => false
  end.

(** The output buffer of [Clean] is kept in reverse: its head is the byte
    written last and its length is the write index [out.w].

    [backtrack] is the ".." case when [out.w > dotdot]:
    [out.w--; for out.w > dotdot && out.index(out.w) != '/' { out.w-- }].
    [out.index(out.w)] is the byte dropped last. *)
Fixpoint backtrackLoop (dotdot : nat) (dropped : ascii) (out : list ascii)
  : list ascii :=
  match out with
  | [] => []
  | c :: out' =>
      if (dotdot <? List.length out)%nat && negb (Ascii.eqb dropped "/"%char)
      then backtrackLoop dotdot c out'
      else out
  end.

Definition backtrack (dotdot : nat) (out : list ascii) : list ascii :=
  match out with
  | [] => []
  | c :: out' => backtrackLoop dotdot c out'
  end.

(** [r == n || path[r] == '/'] *)
Definition elementEnds (s : string) : bool :=
  match s with
  | EmptyString => true
  | String c _ => Ascii.eqb c "/"%char
  end.

(** [path[r] == '.' && path[r+1] == '.' && (r+2 == n || path[r+2] == '/')],
    [c] being [path[r]] and [r] the rest of the input. *)
Definition isDotDot (c : ascii) (r : string) : bool :=
  match r with
  | String c1 r2 =>
      Ascii.eqb c "."%char && Ascii.eqb c1 "."%char && elementEnds r2
  | EmptyString => false
  end.

(** [rooted && out.w != 1 || !rooted && out.w != 0] *)
Definition needSlash (rooted : bool) (out : list ascii) : bool :=
  (rooted && negb (List.length out =? 1)%nat)
  || (negb rooted && negb (List.length out =? 0)%nat).

(** The main loop of [Clean], [for r < n { switch ... }], on the unread
    input [s = path[r:]].  In the default case the first byte of the element
    is copied at once (it is not a slash) and [copy] is the rest of
    [for ; r < n && path[r] != '/'; r++ { out.append(path[r]) }]. *)
Fixpoint cleanLoop (rooted : bool) (s : string) (out : list ascii)
  (dotdot : nat) {struct s} : list ascii :=
  match s with
  | EmptyString => out
  | String c r =>
      if Ascii.eqb c "/"%char then cleanLoop rooted r out dotdot
      else if Ascii.eqb c "."%char && elementEnds r
      then cleanLoop rooted r out dotdot
      else if isDotDot c r then
        let r2 := match r with String _ r2 => r2 | EmptyString => r end in
        if (dotdot <? List.length out)%nat then
          cleanLoop rooted r2 (backtrack dotdot out) dotdot
        else if negb rooted then
          let out1 :=
            if (0 <? List.length out)%nat then "/"%char :: out else out in
          let out2 := "."%char :: "."%char :: out1 in
          cleanLoop rooted r2 out2 (List.length out2)
        else cleanLoop rooted r2 out dotdot
      else
        let out1 := if needSlash rooted out then "/"%char :: out else out in
        (fix copy (l : string) (o : list ascii) {struct l} : list ascii :=
           match l with
           | EmptyString => o
           | String c' l' =>
               if Ascii.eqb c' "/"%char then cleanLoop rooted l o dotdot
               else copy l' (c' :: o)
           end) r (c :: out1)
  end.

(** The element-copying loop of [cleanLoop], under a name of its own
    (lemma [cleanLoop_cons]). *)
Definition copyElement (rooted : bool) (dotdot : nat)
  : string → list ascii → list ascii :=
  fix copy l o :=
    match l with
    | EmptyString => o
    | String c' l' =>
        if Ascii.eqb c' "/"%char then cleanLoop rooted l o dotdot
        else copy l' (c' :: o)
    end.

(** [path.Clean] *)
Definition Clean (p : string) : string :=
  match p with
  | EmptyString => "."
  | String c r =>
      let out :=
        if Ascii.eqb c "/"%char
        then cleanLoop true r ["/"%char] 1
        else cleanLoop false p [] 0 in
      match out with
      | [] => "."
      | _ => String.string_of_list_ascii (rev out)
      end
  end.

(** The buffer [Join] builds before cleaning: the non-empty prefix of
    elements joined by slashes. *)
Definition joinBuf (elem : list string) : string :=
  fold_left
    (fun buf e =>
       if negb (String.eqb buf "") || negb (String.eqb e "")
       then (if negb (String.eqb buf "") then buf +:+ "/" else buf) +:+ e
       else buf)
    elem "".

(** [path.Join] *)
Definition Join (elem : list string) : string :=
  let size := fold_left (fun n e => n + String.length e)%nat elem 0%nat in
  if (size =? 0)%nat then "" else Clean (joinBuf elem).

End path.

(** ** Go's [path/filepath] package, on a system whose separator is the
    slash: there [filepath.Clean] is [path.Clean]. *)

Module filepath.

(** [filepath.Join]: the elements from the first non-empty one on, joined
    by the separator and cleaned. *)
Fixpoint Join (elem : list string) : string :=
  match elem with
  | [] => ""
  | e :: rest =>
      if String.eqb e "" then Join rest
      else path.Clean (String.concat "/" elem)
  end.

(** The scan of [filepath.Ext] from the end of the path, on the reversed
    path: [acc] holds the bytes already passed. *)
Fixpoint extScan (rpath : list ascii) (acc : list ascii) : string :=
  match rpath with
  | [] => ""
  | c :: rpath' =>
      if Ascii.eqb c "/"%char then ""
      else if Ascii.eqb c "."%char
      then String.string_of_list_ascii (c :: acc)
      else extScan rpath' (c :: acc)
  end.

(** [filepath.Ext]: the suffix beginning at the final dot of the final
    element of the path, or the empty string. *)
Definition Ext (p : string) : string :=
  extScan (rev (String.list_ascii_of_string p)) [].

End filepath.

(** ** The part of [net/http] the handler touches *)

Module http.

Definition StatusOK : Z := 200.
Definition StatusInternalServerError : Z := 500.

(** [http.Header] is [map[string][]string]. *)
Abbreviation Header := (gmap string (list string)).

(** [Header.Add]: append a value to the values of the key.  The keys used
    by the handler are already in canonical form. *)
Definition Header_Add (h : Header) (key value : string) : Header :=
  <[key := default [] (h !! key) ++ [value]]> h.

(** [Header.Get]: the first value of the key, or the empty string. *)
Definition Header_Get (h : Header) (key : string) : string :=
  match h !! key with
  | Some (v :: _) => v
  | _ => ""
  end.

(** The fields of [*http.Request] that [ServeHTTP] reads. *)
Record Request := {
  URL_Path : string;
  ReqHeader : Header
}.

(** What [Write] does on a writer that does not take the bytes.  The
    interface leaves it to the implementation: a connection that breaks
    has its head committed by the write, takes some of the bytes and
    reports the error; a writer that rejects the body reports the error
    and commits nothing, so that a later [WriteHeader] still sets the
    status; a hijacked connection, or the writer of a handler that timed
    out, reports the error and ignores [WriteHeader] as well. *)
Inductive writeFault :=
| BreaksAfterHead (taken : nat)
| RefusesWrite
| Detached.

(** The state behind an [http.ResponseWriter]: the header map handed out
    by [Header()], the response head once it is committed (status code and
    a snapshot of the header map), the body bytes accepted so far, whether
    the writer takes writes, and what a write does when it does not. *)
Record ResponseWriter := {
  rwHeader : Header;
  rwSent : option (Z * Header);
  rwBody : list byte;
  rwConnOk : bool;
  rwFault : writeFault
}.

(** A writer nothing has been done to yet, on a connection that works or
    on one that is broken and takes no byte. *)
Definition fresh (connOk : bool) : ResponseWriter :=
  {| rwHeader := ∅; rwSent := None; rwBody := []; rwConnOk := connOk;
     rwFault := BreaksAfterHead 0 |}.

(** A writer nothing has been done to yet that does not take writes. *)
Definition freshFaulty (fault : writeFault) : ResponseWriter :=
  {| rwHeader := ∅; rwSent := None; rwBody := []; rwConnOk := false;
     rwFault := fault |}.

(** The writer ignores [WriteHeader]. *)
Definition detached (wr : ResponseWriter) : bool :=
  negb (rwConnOk wr)
  && match rwFault wr with Detached => true | _ => false end.

(** [wr.Header().Add(key, value)] *)
Definition AddHeader (key value : string) (wr : ResponseWriter)
  : ResponseWriter :=
  {| rwHeader := Header_Add (rwHeader wr) key value;
     rwSent := rwSent wr; rwBody := rwBody wr; rwConnOk := rwConnOk wr;
     rwFault := rwFault wr |}.

(** [wr.WriteHeader(code)]: commits the head; a second call changes
    nothing, and a detached writer ignores the call. *)
Definition WriteHeader (code : Z) (wr : ResponseWriter) : ResponseWriter :=
  match rwSent wr with
  | Some _ => wr
  | None =>
      if detached wr then wr
      else
        {| rwHeader := rwHeader wr; rwSent := Some (code, rwHeader wr);
           rwBody := rwBody wr; rwConnOk := rwConnOk wr;
           rwFault := rwFault wr |}
  end.

(** [wr.Write(p)]; the boolean is [err != nil].  A writer that takes the
    write commits the head with [StatusOK] first if [WriteHeader] was not
    called, as the interface asks; one that does not take it fails as its
    [rwFault] says. *)
Definition Write (p : list byte) (wr : ResponseWriter)
  : ResponseWriter * bool :=
  if rwConnOk wr then
    let wr := WriteHeader StatusOK wr in
    ({| rwHeader := rwHeader wr; rwSent := rwSent wr;
        rwBody := rwBody wr ++ p; rwConnOk := true;
        rwFault := rwFault wr |}, false)
  else
    match rwFault wr with
    | BreaksAfterHead taken =>
        let wr := WriteHeader StatusOK wr in
        ({| rwHeader := rwHeader wr; rwSent := rwSent wr;
            rwBody := rwBody wr ++ take taken p; rwConnOk := false;
            rwFault := rwFault wr |}, true)
    | RefusesWrite | Detached => (wr, true)
    end.

(** [io.Copy(wr, bytes.NewReader(bs))]: [bytes.Reader.WriteTo] makes one
    [Write] of all the bytes, and none when there are no bytes. *)
Definition Copy (bs : list byte) (wr : ResponseWriter)
  : ResponseWriter * bool :=
  match bs with
  | [] => (wr, false)
  | _ => Write bs wr
  end.

(** The status code of the committed head. *)
Definition status (wr : ResponseWriter) : option Z := fst <$> rwSent wr.

(** The headers of the committed head. *)
Definition sentHeader (wr : ResponseWriter) : Header :=
  match rwSent wr with
  | Some (_, h) => h
  | None => ∅
  end.

End http.

Import http.

(** ** Constants and data *)

Definition defaultWebpath : string := "/index.html".
Definition tcpPacketDataSize : Z := 1460.

(** The values of [func(wr http.ResponseWriter)]: what the call does to the
    writer. *)
Definition servefn : Type := ResponseWriter → ResponseWriter.

(** [cacheEntry].  [gzipHandler] is [None] for Go's [nil];
    [identityHandler] is set in every entry the build makes. *)
Record cacheEntry := {
  urlpath : string;
  contentType : string;
  identitySize : Z;
  identityHandler : servefn;
  shouldServeCompressed : bool;
  compressedSize : Z;
  gzipHandler : option servefn
}.

(** [handler] *)
Record handler := { cache : gmap string cacheEntry }.

(** The errors the build returns.  The formatted messages carry the file
    system path; the wrapped operating system error is left out. *)
Inductive error :=
| ErrReadDir (fpath : string)
| ErrOpen (fpath : string)
| ErrRead (fpath : string)
| ErrGzipCreate
| ErrGzipWrite
| ErrRootNotFound.

(** ** The file system the build reads

    A node says what the operating system answers at a path:
    [os.ReadDir] lists a [Directory] in the order of the list and fails on
    every other node; [os.Open] fails on [Unopenable] and [io.ReadAll]
    yields the bytes of a [RegularFile] and fails on every other node that
    opens.  [DirEntry.IsDir] holds of the two directory nodes. *)
#[warnings="-register-all"]
Inductive fsnode :=
| RegularFile (bs : list byte)
| Unopenable
| Unreadable
| Directory (dirEntries : list (string * fsnode))
| UnreadableDir.

Definition IsDir (n : fsnode) : bool :=
  match n with
  | Directory _ | UnreadableDir => true
  | _ => false
  end.

(** What the gzip writer of the build does on a payload: the bytes in the
    buffer after [Close], or one of the two failures the build checks. *)
Inductive gzipResult :=
| GzipBytes (gbs : list byte)
| GzipNewWriterFails
| GzipCopyFails.

(** [contentTypeIsAlreadyCompressed] *)
Definition contentTypeIsAlreadyCompressed (contentType : string) : bool :=
  if decide (contentType ∈ ["image/jpeg"; "image/png"; "image/gif";
                            "audio/mpeg"; "video/mp4"])
  then true else false.

(** [len] of a byte slice, as an [int]. *)
Definition len (bs : list byte) : Z := Z.of_nat (List.length bs).

(** The closure assigned to [ce.identityHandler]; it reads the content
    type of [ce], which is not assigned after the closure is made, and the
    file's bytes. *)
Definition identityServe (ct : string) (bs : list byte) : servefn :=
  fun wr =>
    let wr := AddHeader "Content-Type" ct wr in
    let '(wr, err) := Copy bs wr in
    if err then WriteHeader StatusInternalServerError wr
    else WriteHeader StatusOK wr.

(** The closure assigned to [ce.gzipHandler]. *)
Definition gzipServe (ct : string) (gbs : list byte) : servefn :=
  fun wr =>
    let wr := AddHeader "Content-Type" ct wr in
    let wr := AddHeader "Content-Encoding" "gzip" wr in
    let '(wr, err) := Copy gbs wr in
    if err then WriteHeader StatusInternalServerError wr
    else WriteHeader StatusOK wr.

(** Field assignments on a [cacheEntry] value. *)
Definition setShouldServeCompressed (b : bool) (ce : cacheEntry) : cacheEntry :=
  {| urlpath := urlpath ce; contentType := contentType ce;
     identitySize := identitySize ce; identityHandler := identityHandler ce;
     shouldServeCompressed := b; compressedSize := compressedSize ce;
     gzipHandler := gzipHandler ce |}.

Definition setCompressedSize (n : Z) (ce : cacheEntry) : cacheEntry :=
  {| urlpath := urlpath ce; contentType := contentType ce;
     identitySize := identitySize ce; identityHandler := identityHandler ce;
     shouldServeCompressed := shouldServeCompressed ce; compressedSize := n;
     gzipHandler := gzipHandler ce |}.

Definition setGzipHandler (g : servefn) (ce : cacheEntry) : cacheEntry :=
  {| urlpath := urlpath ce; contentType := contentType ce;
     identitySize := identitySize ce; identityHandler := identityHandler ce;
     shouldServeCompressed := shouldServeCompressed ce;
     compressedSize := compressedSize ce; gzipHandler := Some g |}.

(** ** The build *)

Section Build.

(** [mime.TypeByExtension], the registry being the process-wide one. *)
Variable TypeByExtension : string → string.

(** The gzip writer at [gzip.BestCompression] over a [bytes.Buffer]:
    [gzip.NewWriterLevel], [io.Copy], and the deferred [Close]. *)
Variable gzipBestCompression : list byte → gzipResult.

(** The entry [appendFileEntry] appends for a file read as [bs] whose
    compressed form is [gbs]: the statements of the source from the
    composite literal to the [append], in order. *)
Definition fileEntry (urlpath fpath : string) (bs gbs : list byte)
  : cacheEntry :=
  let ext := filepath.Ext fpath in
  let ct := TypeByExtension ext in
  let ce :=
    {| urlpath := urlpath;
       contentType := ct;
       identitySize := len bs;
       identityHandler := identityServe ct bs;
       shouldServeCompressed := false;
       compressedSize := -1;
       gzipHandler := None |} in
  let compressedSize' := len gbs in
  let ce :=
    setShouldServeCompressed
      (Z.quot (identitySize ce) tcpPacketDataSize
         >? Z.quot (compressedSize ce) tcpPacketDataSize)%Z ce in
  let ce :=
    if contentTypeIsAlreadyCompressed (contentType ce)
    then setShouldServeCompressed false ce
    else ce in
  if shouldServeCompressed ce
  then setGzipHandler (gzipServe (contentType ce) gbs)
         (setCompressedSize compressedSize' ce)
  else ce.

(** [appendFileEntry]; [f] is the node at [fpath]. *)
Definition appendFileEntry (slice : list cacheEntry) (urlpath fpath : string)
  (f : fsnode) : list cacheEntry * option error :=
  match f with
  | Unopenable => ([], Some (ErrOpen fpath))
  | Unreadable | Directory _ | UnreadableDir => ([], Some (ErrRead fpath))
  | RegularFile bs =>
      match gzipBestCompression bs with
      | GzipNewWriterFails => ([], Some ErrGzipCreate)
      | GzipCopyFails => ([], Some ErrGzipWrite)
      | GzipBytes gbs => (slice ++ [fileEntry urlpath fpath bs gbs], None)
      end
  end.

(** [appendDirEntries]; [d] is the node at [fpath].  [range] is the loop
    over the directory entries, threading [slice]. *)
Fixpoint appendDirEntries (slice : list cacheEntry) (urlpath fpath : string)
  (d : fsnode) {struct d} : list cacheEntry * option error :=
  match d with
  | Directory dirEntries =>
      (fix range (es : list (string * fsnode)) (slice : list cacheEntry)
         {struct es} : list cacheEntry * option error :=
         match es with
         | [] => (slice, None)
         | (name, dirEntry) :: es' =>
             if GoStrings.HasPrefix name "." then range es' slice
             else if GoStrings.HasPrefix name "_" then range es' slice
             else
               let subFpath := filepath.Join [fpath; name] in
               let subUpath := path.Join [urlpath; name] in
               if IsDir dirEntry then
                 match appendDirEntries slice subUpath subFpath dirEntry with
                 | (_, Some err) => ([], Some err)
                 | (slice, None) => range es' slice
                 end
               else
                 match appendFileEntry slice subUpath subFpath dirEntry with
                 | (_, Some err) => ([], Some err)
                 | (slice, None) => range es' slice
                 end
         end) dirEntries slice
  | _ => ([], Some (ErrReadDir fpath))
  end.

(** The loop of [NewHandler] that fills the map from the slice. *)
Definition fillCache (entries : list cacheEntry) : gmap string cacheEntry :=
  foldl (fun m entry => <[urlpath entry := entry]> m) ∅ entries.

(** [NewHandler]; [root] is the node at [dir]. *)
Definition NewHandler (dir : string) (root : fsnode)
  : option handler * option error :=
  match appendDirEntries [] "/" dir root with
  | (_, Some err) => (None, Some err)
  | (entries, None) =>
      let ret := {| cache := fillCache entries |} in
      match cache ret !! defaultWebpath with
      | None => (None, Some ErrRootNotFound)
      | Some _ => (Some ret, None)
      end
  end.

End Build.

(** ** Serving *)

(** The first statements of [handler.ServeHTTP]: make the path absolute
    and clean it. *)
Definition normalize (p : string) : string :=
  let p := if negb (path.IsAbs p) then "/" +:+ p else p in
  path.Clean p.

(** The two lookups of [handler.ServeHTTP]: the path that is served and
    the entry found for it, if any. *)
Definition lookup (h : handler) (p : string) : string * option cacheEntry :=
  match cache h !! p with
  | Some entry => (p, Some entry)
  | None => ("/index.html", cache h !! "/index.html")
  end.

(** [handler.ServeHTTP] *)
Definition ServeHTTP (h : handler) (wr : ResponseWriter) (r : Request)
  : ResponseWriter :=
  let p := normalize (URL_Path r) in
  let '(p, found) := lookup h p in
  match found with
  | None => WriteHeader StatusInternalServerError wr
  | Some entry =>
      match gzipHandler entry with
      | Some gzipHandler =>
          if GoStrings.Contains (Header_Get (ReqHeader r) "Accept-Encoding")
               "gzip"
          then gzipHandler wr
          else identityHandler entry wr
      | None => identityHandler entry wr
      end
  end.

(** [cacheEntry.ServeHTTP].  Calling a [nil] [gzipHandler] panics; no
    entry of the build has the flag set and the handler [nil]. *)
Definition entryServeHTTP (ce : cacheEntry) (wr : ResponseWriter)
  (r : Request) : option ResponseWriter :=
  if shouldServeCompressed ce
     && GoStrings.Contains (Header_Get (ReqHeader r) "Accept-Encoding") "gzip"
  then (λ g, g wr) <$> gzipHandler ce
  else Some (identityHandler ce wr).

(** ** Vocabulary for the statements about the build *)

(** The loop of [appendDirEntries] over the entries of a directory, under
    a name of its own: [appendDirEntries] on [Directory es] unfolds to it
    (lemma [appendDirEntries_Directory]). *)
Definition rangeDirEntries (TypeByExtension : string → string)
  (gzipBestCompression : list byte → gzipResult) (urlpath fpath : string)
  : list (string * fsnode) → list cacheEntry → list cacheEntry * option error :=
  fix range es slice :=
    match es with
    | [] => (slice, None)
    | (name, dirEntry) :: es' =>
        if GoStrings.HasPrefix name "." then range es' slice
        else if GoStrings.HasPrefix name "_" then range es' slice
        else
          let subFpath := filepath.Join [fpath; name] in
          let subUpath := path.Join [urlpath; name] in
          if IsDir dirEntry then
            match appendDirEntries TypeByExtension gzipBestCompression
                    slice subUpath subFpath dirEntry with
            | (_, Some err) => ([], Some err)
            | (slice, None) => range es' slice
            end
          else
            match appendFileEntry TypeByExtension gzipBestCompression
                    slice subUpath subFpath dirEntry with
            | (_, Some err) => ([], Some err)
            | (slice, None) => range es' slice
            end
    end.

(** A directory entry is published unless its name starts with a dot or an
    underscore. *)
Definition published (name : string) : bool :=
  negb (GoStrings.HasPrefix name ".") && negb (GoStrings.HasPrefix name "_").

(** Names as a file system lists them: not empty and without a slash. *)
Definition nameOk (name : string) : bool :=
  negb (String.eqb name "")
  && forallb (λ c, negb (Ascii.eqb c "/"%char)) (String.list_ascii_of_string name).

(** A tree as a file system has it: the names of a directory are proper
    names and pairwise distinct. *)
Fixpoint treeOk (d : fsnode) : bool :=
  match d with
  | Directory es =>
      bool_decide (NoDup es.*1)
      && forallb (λ e, nameOk e.1 && treeOk e.2) es
  | _ => true
  end.

(** [nodeAt d segs n]: following the names [segs] from [d] through
    directories leads to the node [n]. *)
Inductive nodeAt : fsnode → list string → fsnode → Prop :=
| nodeAt_here d : nodeAt d [] d
| nodeAt_step es name sub segs n :
    (name, sub) ∈ es → nodeAt sub segs n →
    nodeAt (Directory es) (name :: segs) n.

(** The URL path of the file at the relative path [segs]: the names joined
    by slashes after a leading slash. *)
Definition urlOf (segs : list string) : string :=
  "/" +:+ String.concat "/" segs.

(** What [path.Join] computes along a relative path, from the URL path of
    the directory the walk started in. *)
Definition urlUnder (urlpath : string) (segs : list string) : string :=
  foldl (λ u name, path.Join [u; name]) urlpath segs.

Definition fpathUnder (fpath : string) (segs : list string) : string :=
  foldl (λ f name, filepath.Join [f; name]) fpath segs.

(** The regular files the walk reaches, in the order of the walk, each with
    its path relative to the directory the walk started in. *)
Fixpoint publishedFiles (d : fsnode) : list (list string * list byte) :=
  match d with
  | Directory es =>
      flat_map
        (λ e,
           if published e.1 then
             match e.2 with
             | RegularFile bs => [([e.1], bs)]
             | Directory _ =>
                 map (λ f, (e.1 :: f.1, f.2)) (publishedFiles e.2)
             | _ => []
             end
           else [])
        es
  | _ => []
  end.

(** The bytes the compressor leaves for a payload it does not fail on. *)
Definition gzipBytesOf (gzipBestCompression : list byte → gzipResult)
  (bs : list byte) : list byte :=
  match gzipBestCompression bs with
  | GzipBytes gbs => gbs
  | _ => []
  end.

(** A node on which the step the walk takes there fails: listing a
    directory entry that cannot be listed, or opening, reading or
    compressing any other entry. *)
Definition faultyEntry (gzipBestCompression : list byte → gzipResult)
  (n : fsnode) : bool :=
  match n with
  | Directory _ => false
  | UnreadableDir | Unopenable | Unreadable => true
  | RegularFile bs =>
      match gzipBestCompression bs with
      | GzipBytes _ => false
      | _ => true
      end
  end.

(** The walk from [d] meets no failure. *)
Fixpoint walkable (gzipBestCompression : list byte → gzipResult)
  (d : fsnode) : bool :=
  match d with
  | Directory es =>
      forallb
        (λ e,
           negb (published e.1)
           || (negb (faultyEntry gzipBestCompression e.2)
               && match e.2 with
                  | Directory _ => walkable gzipBestCompression e.2
                  | _ => true
                  end))
        es
  | _ => false
  end.

(** The payloads of an entry, as a client observes them: the body its
    handlers write to a fresh writer on a working connection. *)
Definition plainPayload (ce : cacheEntry) : list byte :=
  rwBody (identityHandler ce (fresh true)).

Definition compressedPayload (ce : cacheEntry) : option (list byte) :=
  (λ g : servefn, rwBody (g (fresh true))) <$> gzipHandler ce.

(** The entries of a walk that meets no failure: one for each published
    file, in the order of the walk. *)
Definition entriesOf (TypeByExtension : string → string)
  (gzipBestCompression : list byte → gzipResult) (urlpath fpath : string)
  (d : fsnode) : list cacheEntry :=
  map (λ f, fileEntry TypeByExtension (urlUnder urlpath f.1)
              (fpathUnder fpath f.1) f.2 (gzipBytesOf gzipBestCompression f.2))
    (publishedFiles d).

(** The bytes of a string. *)
Abbreviation chars := String.list_ascii_of_string.

(** No byte of the string is a slash. *)
Definition slashFree (s : string) : bool :=
  forallb (λ c, negb (Ascii.eqb c "/"%char)) (chars s).

(** A name the walk publishes and joins to a URL path unchanged. *)
Definition plainName (name : string) : Prop :=
  nameOk name = true ∧ published name = true.

(** An element of a clean path: not empty, without a slash, and neither of
    the two dot elements. *)
Definition properElem (s : string) : Prop :=
  s ≠ "" ∧ slashFree s = true ∧ s ≠ "." ∧ s ≠ "..".

(** The output buffer that holds the clean path of the elements [segs]. *)
Definition bufOf (segs : list string) : list ascii := rev (chars (urlOf segs)).

(** [failsAt gz root segs n]: the walk from [root] reaches the node [n]
    along the published names [segs] and the step it takes there fails:
    listing the root when it is not a directory, or the step of
    [faultyEntry] below the root. *)
Definition failsAt (gz : list byte → gzipResult) (root : fsnode)
  (segs : list string) (n : fsnode) : Prop :=
  nodeAt root segs n
  ∧ Forall (λ s, published s = true) segs
  ∧ match segs with
    | [] => ∀ es, n ≠ Directory es
    | _ => faultyEntry gz n = true
    end.

(** The header map after the plain closure, and after the compressed one. *)
Definition plainHeader (ct : string) : Header :=
  {[ "Content-Type" := [ct] ]}.

Definition gzipHeader (ct : string) : Header :=
  <[ "Content-Encoding" := ["gzip"] ]> {[ "Content-Type" := [ct] ]}.

(** The accepted-encoding test of [ServeHTTP]. *)
Definition acceptsGzip (r : Request) : bool :=
  GoStrings.Contains (Header_Get (ReqHeader r) "Accept-Encoding") "gzip".

(** ** Instances of the two parameters, for the examples *)

(** The registry of the [mime] package after the [init] function of this
    package has run, on a system that has no MIME database of its own, so
    that the package starts from its built-in table.  The package keeps
    two tables: [mimeTypes], looked up with the extension as it is given,
    and [mimeTypesLower], looked up with the extension in lower case when
    the first lookup finds nothing.  [mime.AddExtensionType] stores a
    [text/] type that names no charset with [charset=utf-8] added; an
    extension that neither table has gets the empty type. *)
Module mime.

Record registry := {
  mimeTypes : gmap string string;
  mimeTypesLower : gmap string string
}.

(** Lower case of the letters [A] to [Z]; the other bytes stay. *)
Definition lowerByte (c : ascii) : ascii :=
  let n := Ascii.N_of_ascii c in
  if (65 <=? n)%N && (n <=? 90)%N then Ascii.ascii_of_N (n + 32) else c.

Fixpoint ToLower (s : string) : string :=
  match s with
  | EmptyString => EmptyString
  | String c r => String (lowerByte c) (ToLower r)
  end.

(** [builtinTypesLower] *)
Definition builtinTypesLower : list (string * string) :=
  [ (".avif", "image/avif"); (".css", "text/css; charset=utf-8");
    (".gif", "image/gif"); (".htm", "text/html; charset=utf-8");
    (".html", "text/html; charset=utf-8"); (".jpeg", "image/jpeg");
    (".jpg", "image/jpeg"); (".js", "text/javascript; charset=utf-8");
    (".json", "application/json");
    (".mjs", "text/javascript; charset=utf-8"); (".pdf", "application/pdf");
    (".png", "image/png"); (".svg", "image/svg+xml");
    (".wasm", "application/wasm"); (".webp", "image/webp");
    (".xml", "text/xml; charset=utf-8") ].

(** [initMime]: both tables start as the built-in one. *)
Definition initMime : registry :=
  {| mimeTypes := list_to_map builtinTypesLower;
     mimeTypesLower := list_to_map builtinTypesLower |}.

(** [mime.AddExtensionType], for a type without parameters. *)
Definition AddExtensionType (ext typ : string) (reg : registry) : registry :=
  let typ :=
    if GoStrings.HasPrefix typ "text/"
    then typ +:+ "; charset=utf-8" else typ in
  {| mimeTypes := <[ext := typ]> (mimeTypes reg);
     mimeTypesLower := <[ToLower ext := typ]> (mimeTypesLower reg) |}.

(** The registry after [init]. *)
Definition init : registry :=
  foldl (λ reg e, AddExtensionType e.1 e.2 reg) initMime
    [ (".html", "text/html"); (".js", "text/javascript");
      (".mjs", "text/javascript"); (".txt", "text/plain");
      (".xhtml", "application/xhtml+xml"); (".xml", "application/xml");
      (".json", "application/json"); (".zip", "application/zip");
      (".mp3", "audio/mpeg");
      (".mp4", "video/mp4"); (".mpeg", "video/mpeg");
      (".png", "image/png"); (".jpg", "image/jpeg");
      (".jpeg", "image/jpeg"); (".tif", "image/tiff");
      (".tiff", "image/tiff");
      (".ttf", "font/ttf") ].

(** [mime.TypeByExtension] *)
Definition TypeByExtension (ext : string) : string :=
  match mimeTypes init !! ext with
  | Some typ => typ
  | None => default "" (mimeTypesLower init !! ToLower ext)
  end.

End mime.

(** A gzip writer that never shrinks its input: a gzip member (RFC 1952)
    whose deflate stream is made of stored blocks (RFC 1951), and the
    reader for such members. *)
Module gzip.

Local Open Scope Z_scope.

Definition byteZ (b : byte) : Z := Z.of_N (Byte.to_N b).

Definition zByte (z : Z) : byte :=
  default x00 (Byte.of_N (Z.to_N (z mod 256))).

(** CRC-32, bit by bit, with the reflected polynomial. *)
Definition crcBit (c : Z) : Z :=
  if Z.odd c then Z.lxor (Z.shiftr c 1) 3988292384 else Z.shiftr c 1.

Definition crcByte (c : Z) (b : byte) : Z :=
  Nat.iter 8 crcBit (Z.lxor c (byteZ b)).

Definition crc32 (bs : list byte) : Z :=
  Z.lxor (fold_left crcByte bs 4294967295) 4294967295.

Definition le16 (n : Z) : list byte := [zByte n; zByte (n / 256)].

Definition le32 (n : Z) : list byte :=
  [zByte n; zByte (n / 256); zByte (n / 65536); zByte (n / 16777216)].

Definition unle16 (b0 b1 : byte) : Z := byteZ b0 + 256 * byteZ b1.

(** The largest payload of a stored block. *)
Definition maxStored : nat := Z.to_nat 65535.

(** A stored block: the header byte (the final-block bit, block type 0),
    the length, its one's complement, the bytes. *)
Definition storedBlock (final : bool) (chunk : list byte) : list byte :=
  (if final then x01 else x00)
    :: le16 (len chunk) ++ le16 (65535 - len chunk) ++ chunk.

(** The payload in stored blocks of at most [maxStored] bytes, closed by
    an empty final block. *)
Fixpoint deflateStored (fuel : nat) (bs : list byte) : list byte :=
  match fuel, bs with
  | S fuel', _ :: _ =>
      storedBlock false (take maxStored bs)
        ++ deflateStored fuel' (drop maxStored bs)
  | _, _ => storedBlock true []
  end.

(** Magic number, deflate, no flags, no modification time, the extra flag
    of the best compression level, unknown operating system. *)
Definition header : list byte :=
  [x1f; x8b; x08; x00; x00; x00; x00; x00; x02; xff].

Definition compress (bs : list byte) : list byte :=
  header ++ deflateStored (length bs) bs
    ++ le32 (crc32 bs) ++ le32 (len bs mod 4294967296).

(** Reading stored blocks up to the final one: the payload and the bytes
    that follow the stream. *)
Fixpoint inflateStored (fuel : nat) (s acc : list byte)
  : option (list byte * list byte) :=
  match fuel, s with
  | S fuel', h :: l0 :: l1 :: n0 :: n1 :: rest =>
      let n := unle16 l0 l1 in
      if bool_decide (n + unle16 n0 n1 = 65535
                      ∧ n ≤ len rest
                      ∧ (h = x00 ∨ h = x01))%Z
      then
        let acc := acc ++ take (Z.to_nat n) rest in
        if bool_decide (h = x01) then Some (acc, drop (Z.to_nat n) rest)
        else inflateStored fuel' (drop (Z.to_nat n) rest) acc
      else None
  | _, _ => None
  end.

Definition decompress (gbs : list byte) : option (list byte) :=
  if bool_decide (take 10 gbs = header) then
    match inflateStored (length gbs) (drop 10 gbs) [] with
    | Some (bs, trailer) =>
        if bool_decide
             (trailer = le32 (crc32 bs) ++ le32 (len bs mod 4294967296))
        then Some bs else None
    | None => None
    end
  else None.

(** The compressor as the build takes it; it never fails. *)
Definition stored (bs : list byte) : gzipResult := GzipBytes (compress bs).

End gzip.

(** Bytes without a pattern, from a linear congruential generator. *)
Fixpoint noise (n : nat) (seed : Z) : list byte :=
  match n with
  | O => []
  | S n' =>
      let seed' := ((1103515245 * seed + 12345) mod 2147483648)%Z in
      gzip.zByte (seed' / 65536) :: noise n' seed'
  end.

(** The bytes of a text. *)
Definition bytesOf (s : string) : list byte := String.list_byte_of_string s.

(** ** Example trees *)

(** A small site: a hidden directory, a file without an extension, a
    private directory, a subdirectory with a script and an image, the root
    document and a style sheet. *)
Definition site : fsnode :=
  Directory
    [ (".git", Directory [("config", RegularFile (bytesOf "[core]"))]);
      ("LICENSE", RegularFile (bytesOf "MIT"));
      ("_drafts", Directory [("todo.html", RegularFile (bytesOf "<p>"))]);
      ("assets",
        Directory
          [ ("app.js", RegularFile (noise 1500 1));
            ("logo.png", RegularFile (noise 3000 7)) ]);
      ("index.html", RegularFile (bytesOf "<html><body>spa</body></html>"));
      ("style.css", RegularFile (noise 2000 3)) ].

(** The same site without its root document. *)
Definition siteWithoutIndex : fsnode :=
  Directory
    [ ("about.html", RegularFile (bytesOf "<html>about</html>"));
      ("assets", Directory [("app.js", RegularFile (noise 1500 1))]) ].

(** A site with a file that cannot be read, between two files that can. *)
Definition siteWithUnreadable : fsnode :=
  Directory
    [ ("a.txt", RegularFile (bytesOf "a"));
      ("assets", Directory [("broken.js", Unreadable)]);
      ("index.html", RegularFile (bytesOf "<html></html>")) ].

(** The handler built from [site] at the directory [dist], with the
    registry of the package and the storing compressor. *)
Definition siteHandler : handler :=
  {| cache := fillCache
       (entriesOf mime.TypeByExtension gzip.stored "/" "dist" site) |}.

(** The entry built for a file of [site]. *)
Definition siteEntry (segs : list string) (bs : list byte) : cacheEntry :=
  fileEntry mime.TypeByExtension (urlOf segs) (fpathUnder "dist" segs) bs
    (gzipBytesOf gzip.stored bs).

(** A request for a path, with the given [Accept-Encoding] values. *)
Definition request (p : string) (acceptEncoding : list string) : Request :=
  {| URL_Path := p;
     ReqHeader :=
       match acceptEncoding with
       | [] => ∅
       | _ => {[ "Accept-Encoding" := acceptEncoding ]}
       end |}.

(** ** Vocabulary for further statements *)

(** The error of the step that fails at the node [n], reached from the
    directory [dir] along the names [segs]: listing the root, or listing,
    opening, reading or compressing an entry below it. *)
Definition errorAt (gz : list byte → gzipResult) (dir : string)
  (segs : list string) (n : fsnode) : option error :=
  match segs with
  | [] => Some (ErrReadDir dir)
  | _ =>
      let fpath := fpathUnder dir segs in
      match n with
      | Directory _ => None
      | UnreadableDir => Some (ErrReadDir fpath)
      | Unopenable => Some (ErrOpen fpath)
      | Unreadable => Some (ErrRead fpath)
      | RegularFile bs =>
          match gz bs with
          | GzipBytes _ => None
          | GzipNewWriterFails => Some ErrGzipCreate
          | GzipCopyFails => Some ErrGzipWrite
          end
      end
  end.

(** The state of the loop of [path.Clean] on a rooted path: the buffer
    begins with the leading slash, below which [dotdot] keeps the loop from
    backtracking. *)
Definition rootedBuf (rooted : bool) (out : list ascii) (dotdot : nat)
  : Prop :=
  rooted = true → (1 ≤ dotdot)%nat ∧ ∃ pre, out = pre ++ ["/"%char].

(** The bytes a writer takes of a payload handed to it in one [Write]. *)
Definition takenOf (wr : ResponseWriter) (p : list byte) : list byte :=
  if rwConnOk wr then p
  else
    match rwFault wr with
    | BreaksAfterHead taken => take taken p
    | RefusesWrite | Detached => []
    end.

(** The committed head on a writer after the payload [p] was copied to it,
    if it is not empty, and [WriteHeader] was called with 500 or 200 by the
    outcome of the copy, [hd] being the header map at that time: a head
    committed earlier stays; a detached writer commits none; a writer
    that refuses the write of a payload gets status 500; every other
    writer gets status 200, from the write or from [WriteHeader]. *)
Definition headAfter (wr : ResponseWriter) (p : list byte) (hd : Header)
  : option (Z * Header) :=
  match rwSent wr with
  | Some s => Some s
  | None =>
      if detached wr then None
      else
        match p, rwConnOk wr, rwFault wr with
        | _ :: _, false, RefusesWrite => Some (StatusInternalServerError, hd)
        | _, _, _ => Some (StatusOK, hd)
        end
  end.

(** * Facts *)

(** ** The library functions on inputs with known results *)

(** [path.Clean] on paths whose clean form the documentation and the tests
    of the [path] package give. *)
Example path_Clean_table :
  map path.Clean
    [ ""; "abc"; "abc/def"; "."; ".."; "../.."; "../../abc"; "/abc"; "/";
      "abc/"; "abc/def/"; "./"; "../"; "../../"; "/abc/";
      "abc//def//ghi"; "//abc"; "///abc"; "//abc//"; "abc//";
      "abc/./def"; "/./abc/def"; "abc/.";
      "abc/def/ghi/../jkl"; "abc/def/../ghi/../jkl"; "abc/def/..";
      "abc/def/../.."; "/abc/def/../.."; "abc/def/../../..";
      "/abc/def/../../.."; "abc/def/../../../ghi/jkl/../../../mno";
      "abc/./../def"; "abc//./../def"; "abc/../../././../def" ]
  = [ "."; "abc"; "abc/def"; "."; ".."; "../.."; "../../abc"; "/abc"; "/";
      "abc"; "abc/def"; "."; ".."; "../.."; "/abc";
      "abc/def/ghi"; "/abc"; "/abc"; "/abc"; "abc";
      "abc/def"; "/abc/def"; "abc";
      "abc/def/jkl"; "abc/jkl"; "abc";
      "."; "/"; "..";
      "/"; "../../mno";
      "def"; "def"; "../../def" ].
Proof. vm_compute. reflexivity. Qed.

Example path_Join_table :
  map path.Join
    [ []; [""]; ["a"]; ["a"; "b"]; ["a"; ""]; [""; "b"]; ["/"; "a"];
      ["/"; ""]; ["a/"; "b"]; ["a/"; ""]; [""; ""]; ["/a"; "../b"] ]
  = [ ""; ""; "a"; "a/b"; "a"; "b"; "/a"; "/"; "a/b"; "a"; ""; "/b" ].
Proof. vm_compute. reflexivity. Qed.

Example filepath_Ext_table :
  map filepath.Ext
    [ "path.go"; "path.pb.go"; "a.dir/b"; "a.dir/b.go"; "a.dir/"; "noext";
      "dist/index.html" ]
  = [ ".go"; ".go"; ""; ".go"; ""; ""; ".html" ].
Proof. vm_compute. reflexivity. Qed.

Example Contains_table :
  map (λ s, GoStrings.Contains s "gzip")
    [ "gzip"; "deflate, gzip;q=1.0"; "br"; ""; "GZIP"; "gzi p"; "xgzipx" ]
  = [ true; true; false; false; false; false; true ].
Proof. vm_compute. reflexivity. Qed.

(** [mime.TypeByExtension] after [init]: a type [init] registers, with the
    charset added to a text type; a built-in type [init] replaces; built-in
    types [init] leaves alone; extensions found in lower case only; and
    extensions that are not registered. *)
Example mime_TypeByExtension_table :
  map mime.TypeByExtension
    [ ".html"; ".xml"; ".css"; ".gif"; ".PNG"; ".Js"; ".ttf"; ""; ".bin" ]
  = [ "text/html; charset=utf-8"; "application/xml";
      "text/css; charset=utf-8"; "image/gif"; "image/png";
      "text/javascript; charset=utf-8"; "font/ttf"; ""; "" ].
Proof. vm_compute. reflexivity. Qed.

(** ** Unfolding the walk *)

Lemma appendDirEntries_Directory T gz slice u f es :
  appendDirEntries T gz slice u f (Directory es)
  = rangeDirEntries T gz u f es slice.
Proof. reflexivity. Qed.

Lemma appendDirEntries_not_Directory T gz slice u f d :
  (∀ es, d ≠ Directory es) →
  appendDirEntries T gz slice u f d = ([], Some (ErrReadDir f)).
Proof. destruct d; intros H; try reflexivity. by destruct (H dirEntries). Qed.

Lemma rangeDirEntries_nil T gz u f slice :
  rangeDirEntries T gz u f [] slice = (slice, None).
Proof. reflexivity. Qed.

Lemma rangeDirEntries_hidden T gz u f name n es slice :
  published name = false →
  rangeDirEntries T gz u f ((name, n) :: es) slice
  = rangeDirEntries T gz u f es slice.
Proof.
  unfold published. intros H. cbn [rangeDirEntries].
  destruct (GoStrings.HasPrefix name "."); [done|].
  destruct (GoStrings.HasPrefix name "_"); [done|]. discriminate H.
Qed.

Lemma rangeDirEntries_dir T gz u f name n es slice :
  published name = true → IsDir n = true →
  rangeDirEntries T gz u f ((name, n) :: es) slice
  = match appendDirEntries T gz slice (path.Join [u; name])
            (filepath.Join [f; name]) n with
    | (_, Some err) => ([], Some err)
    | (slice, None) => rangeDirEntries T gz u f es slice
    end.
Proof.
  unfold published. intros H Hd. cbn [rangeDirEntries].
  destruct (GoStrings.HasPrefix name "."); [discriminate H|].
  destruct (GoStrings.HasPrefix name "_"); [discriminate H|].
  by rewrite Hd.
Qed.

Lemma rangeDirEntries_file T gz u f name n es slice :
  published name = true → IsDir n = false →
  rangeDirEntries T gz u f ((name, n) :: es) slice
  = match appendFileEntry T gz slice (path.Join [u; name])
            (filepath.Join [f; name]) n with
    | (_, Some err) => ([], Some err)
    | (slice, None) => rangeDirEntries T gz u f es slice
    end.
Proof.
  unfold published. intros H Hd. cbn [rangeDirEntries].
  destruct (GoStrings.HasPrefix name "."); [discriminate H|].
  destruct (GoStrings.HasPrefix name "_"); [discriminate H|].
  by rewrite Hd.
Qed.

(** Induction on trees, with the property available for every entry of a
    directory. *)
Lemma fsnode_tree_ind (P : fsnode → Prop) :
  (∀ bs, P (RegularFile bs)) → P Unopenable → P Unreadable →
  (∀ es, Forall (λ e, P e.2) es → P (Directory es)) →
  P UnreadableDir →
  ∀ d, P d.
Proof.
  intros Hf Ho Hr Hd Hu.
  fix IH 1. intros [bs| | |es|]; [apply Hf|exact Ho|exact Hr| |exact Hu].
  apply Hd. induction es as [|[name n] es IHes]; constructor;
    [apply IH|exact IHes].
Qed.

(** ** The walk, characterised *)

Section Walk.

Context (T : string → string) (gz : list byte → gzipResult).

Lemma publishedFiles_cons name n es :
  publishedFiles (Directory ((name, n) :: es))
  = (if published name then
       match n with
       | RegularFile bs => [([name], bs)]
       | Directory _ => map (λ f, (name :: f.1, f.2)) (publishedFiles n)
       | _ => []
       end
     else []) ++ publishedFiles (Directory es).
Proof. reflexivity. Qed.

Lemma walkable_cons name n es :
  walkable gz (Directory ((name, n) :: es))
  = (negb (published name)
     || (negb (faultyEntry gz n)
         && match n with Directory _ => walkable gz n | _ => true end))
    && walkable gz (Directory es).
Proof. reflexivity. Qed.

Lemma entriesOf_cons_hidden u f name n es :
  published name = false →
  entriesOf T gz u f (Directory ((name, n) :: es))
  = entriesOf T gz u f (Directory es).
Proof.
  intros H. unfold entriesOf. by rewrite publishedFiles_cons, H.
Qed.

Lemma entriesOf_cons_dir u f name sub es :
  published name = true →
  entriesOf T gz u f (Directory ((name, Directory sub) :: es))
  = entriesOf T gz (path.Join [u; name]) (filepath.Join [f; name])
      (Directory sub)
    ++ entriesOf T gz u f (Directory es).
Proof.
  intros H. unfold entriesOf.
  rewrite publishedFiles_cons, H, map_app, map_map. reflexivity.
Qed.

Lemma entriesOf_cons_file u f name bs es :
  published name = true →
  entriesOf T gz u f (Directory ((name, RegularFile bs) :: es))
  = fileEntry T (path.Join [u; name]) (filepath.Join [f; name]) bs
      (gzipBytesOf gz bs)
    :: entriesOf T gz u f (Directory es).
Proof.
  intros H. unfold entriesOf. by rewrite publishedFiles_cons, H.
Qed.

(** A walk that meets no failure appends the entries of the published
    files and returns no error. *)
Lemma appendDirEntries_walkable d :
  ∀ slice u f,
    walkable gz d = true →
    appendDirEntries T gz slice u f d = (slice ++ entriesOf T gz u f d, None).
Proof.
  induction d as [b| | |es IH|] using fsnode_tree_ind; try discriminate.
  intros slice u f. rewrite appendDirEntries_Directory.
  revert slice. induction es as [|[name n] es IHes]; intros slice Hw.
  - by rewrite rangeDirEntries_nil, app_nil_r.
  - apply Forall_cons in IH as [IHn IH]. cbn [snd] in IHn.
    rewrite walkable_cons in Hw. apply andb_prop in Hw as [Hn Hes].
    destruct (published name) eqn:Hp.
    + cbn [negb orb] in Hn. apply andb_prop in Hn as [Hfaulty Hsub].
      destruct n as [bs| | |sub|]; try discriminate Hfaulty.
      * rewrite rangeDirEntries_file by done.
        cbn [appendFileEntry]. unfold faultyEntry in Hfaulty.
        rewrite entriesOf_cons_file by done. unfold gzipBytesOf.
        destruct (gz bs) as [gbs| |]; try discriminate Hfaulty.
        rewrite (IHes IH _ Hes). by rewrite <- app_assoc.
      * rewrite rangeDirEntries_dir by done.
        rewrite (IHn _ _ _ Hsub), (IHes IH _ Hes).
        rewrite entriesOf_cons_dir by done. by rewrite app_assoc.
    + rewrite rangeDirEntries_hidden, entriesOf_cons_hidden by done.
      by apply IHes.
Qed.

(** A walk that meets a failure returns an error and the [nil] slice. *)
Lemma appendDirEntries_not_walkable d :
  ∀ slice u f,
    walkable gz d = false →
    ∃ err, appendDirEntries T gz slice u f d = ([], Some err).
Proof.
  induction d as [b| | |es IH|] using fsnode_tree_ind;
    intros slice u f Hw; try (by eexists).
  rewrite appendDirEntries_Directory.
  revert slice. induction es as [|[name n] es IHes]; intros slice;
    [discriminate Hw|].
  apply Forall_cons in IH as [IHn IH]. cbn [snd] in IHn.
  rewrite walkable_cons in Hw.
  destruct (published name) eqn:Hp.
  - cbn [negb orb] in Hw.
    destruct n as [bs| | |sub|].
    + rewrite rangeDirEntries_file by done. cbn [appendFileEntry].
      unfold faultyEntry in Hw.
      destruct (gz bs) as [gbs| |]; try (by eexists).
      apply IHes; [done|]. by rewrite andb_true_r in Hw.
    + rewrite rangeDirEntries_file by done. by eexists.
    + rewrite rangeDirEntries_file by done. by eexists.
    + rewrite rangeDirEntries_dir by done.
      destruct (walkable gz (Directory sub)) eqn:Hsub.
      * rewrite (appendDirEntries_walkable _ _ _ _ Hsub). by apply IHes.
      * destruct (IHn slice (path.Join [u; name]) (filepath.Join [f; name]))
          as [err ->]; [done|]. by eexists.
    + rewrite rangeDirEntries_dir by done. by eexists.
  - rewrite rangeDirEntries_hidden by done. by apply IHes.
Qed.

End Walk.

(** ** Paths of published files are fixed points of [path.Clean] *)

Lemma string_app_cons c (s1 s2 : string) :
  String c s1 +:+ s2 = String c (s1 +:+ s2).
Proof. reflexivity. Qed.

Lemma string_app_nil_l (s : string) : "" +:+ s = s.
Proof. reflexivity. Qed.

Lemma chars_app s1 s2 : chars (s1 +:+ s2) = chars s1 ++ chars s2.
Proof.
  induction s1 as [|c s1 IH]; [done|].
  rewrite string_app_cons. cbn. by rewrite IH.
Qed.

Lemma string_of_chars_app l1 l2 :
  String.string_of_list_ascii (l1 ++ l2)
  = String.string_of_list_ascii l1 +:+ String.string_of_list_ascii l2.
Proof.
  induction l1 as [|c l1 IH]; [done|].
  cbn. by rewrite string_app_cons, IH.
Qed.

Lemma string_app_assoc (s1 s2 s3 : string) :
  (s1 +:+ s2) +:+ s3 = s1 +:+ (s2 +:+ s3).
Proof.
  induction s1 as [|c s1 IH]; [done|]. by rewrite !string_app_cons, IH.
Qed.

Lemma string_app_nil_r (s : string) : s +:+ "" = s.
Proof.
  induction s as [|c s IH]; [done|]. by rewrite string_app_cons, IH.
Qed.

Lemma path_cleanLoop_cons rooted c r out dotdot :
  path.cleanLoop rooted (String c r) out dotdot
  = if Ascii.eqb c "/"%char then path.cleanLoop rooted r out dotdot
    else if Ascii.eqb c "."%char && path.elementEnds r
    then path.cleanLoop rooted r out dotdot
    else if path.isDotDot c r then
      let r2 := match r with String _ r2 => r2 | EmptyString => r end in
      if (dotdot <? length out)%nat then
        path.cleanLoop rooted r2 (path.backtrack dotdot out) dotdot
      else if negb rooted then
        let out1 :=
          if (0 <? length out)%nat then "/"%char :: out else out in
        let out2 := "."%char :: "."%char :: out1 in
        path.cleanLoop rooted r2 out2 (length out2)
      else path.cleanLoop rooted r2 out dotdot
    else
      path.copyElement rooted dotdot r
        (c :: if path.needSlash rooted out then "/"%char :: out else out).
Proof. reflexivity. Qed.

Lemma path_copyElement_cons rooted dotdot c l o :
  path.copyElement rooted dotdot (String c l) o
  = if Ascii.eqb c "/"%char
    then path.cleanLoop rooted (String c l) o dotdot
    else path.copyElement rooted dotdot l (c :: o).
Proof. reflexivity. Qed.

(** Copying runs to the end of the element. *)
Lemma path_copyElement_element rooted dotdot s1 s2 o :
  slashFree s1 = true → path.elementEnds s2 = true →
  path.copyElement rooted dotdot (s1 +:+ s2) o
  = path.cleanLoop rooted s2 (rev (chars s1) ++ o) dotdot.
Proof.
  revert o. induction s1 as [|c s1 IH]; intros o Hs1 Hs2.
  - rewrite string_app_nil_l. cbn [chars rev app].
    destruct s2 as [|c2 s2]; [done|].
    rewrite path_copyElement_cons. cbn in Hs2. by rewrite Hs2.
  - cbn in Hs1. apply andb_prop in Hs1 as [Hc Hs1].
    rewrite string_app_cons, path_copyElement_cons.
    apply negb_true_iff in Hc. rewrite Hc.
    rewrite IH by done. cbn [chars rev]. by rewrite <- app_assoc.
Qed.

Lemma nameOk_inv name :
  nameOk name = true →
  ∃ c r, name = String c r ∧ Ascii.eqb c "/"%char = false ∧ slashFree r = true.
Proof.
  destruct name as [|c r]; [done|]. unfold nameOk. cbn.
  intros [Hc Hr]%andb_prop. exists c, r. by apply negb_true_iff in Hc.
Qed.

Lemma nameOk_length name :
  nameOk name = true → (1 ≤ length (rev (chars name)))%nat.
Proof.
  intros (c & r & -> & _)%nameOk_inv. rewrite length_rev. cbn. lia.
Qed.

Lemma nameOk_slashFree name : nameOk name = true → slashFree name = true.
Proof. unfold nameOk. by intros [_ H]%andb_prop. Qed.

Lemma HasPrefix_dot c r :
  GoStrings.HasPrefix (String c r) "." = Ascii.eqb c "."%char.
Proof.
  unfold GoStrings.HasPrefix.
  change (String.prefix "." (String c r))
    with (if ascii_dec "." c then String.prefix "" r else false).
  destruct (ascii_dec "." c) as [<-|Hne]; [by destruct r|].
  symmetry. apply Ascii.eqb_neq. congruence.
Qed.

(** A published name is copied to the output as one element. *)
Lemma path_cleanLoop_name rooted dotdot name s2 out :
  nameOk name = true → GoStrings.HasPrefix name "." = false →
  path.elementEnds s2 = true →
  path.cleanLoop rooted (name +:+ s2) out dotdot
  = path.cleanLoop rooted s2
      (rev (chars name)
         ++ if path.needSlash rooted out then "/"%char :: out else out)
      dotdot.
Proof.
  intros (c & r & -> & Hc & Hr)%nameOk_inv Hdot Hs2.
  rewrite HasPrefix_dot in Hdot.
  rewrite string_app_cons, path_cleanLoop_cons, Hc, Hdot.
  cbn [andb]. replace (path.isDotDot c (r +:+ s2)) with false
    by (unfold path.isDotDot; rewrite Hdot; by destruct (r +:+ s2)).
  rewrite path_copyElement_element by done.
  cbn [chars rev]. by rewrite <- app_assoc.
Qed.

(** Normal form of the bytes of appended strings and their reversals. *)
Ltac norm_chars :=
  repeat first
    [ rewrite chars_app | rewrite rev_app_distr | rewrite <- app_assoc
    | progress cbn [String.list_ascii_of_string rev app] ].

Lemma published_no_dot name :
  published name = true → GoStrings.HasPrefix name "." = false.
Proof.
  unfold published. intros [H _]%andb_prop. by apply negb_true_iff in H.
Qed.

Lemma string_concat_cons2 sep x y l :
  String.concat sep (x :: y :: l) = x +:+ sep +:+ String.concat sep (y :: l).
Proof. reflexivity. Qed.

Lemma string_concat_snoc sep x l y :
  String.concat sep ((x :: l) ++ [y])
  = String.concat sep (x :: l) +:+ sep +:+ y.
Proof.
  revert x. induction l as [|z l IH]; intros x; [done|].
  change ((x :: z :: l) ++ [y]) with (x :: ((z :: l) ++ [y])).
  cbn [app]. rewrite !string_concat_cons2.
  change (z :: l ++ [y]) with ((z :: l) ++ [y]).
  by rewrite IH, !string_app_assoc.
Qed.

(** The loop on a run of published names, after at least one element. *)
Lemma path_cleanLoop_names segs :
  ∀ s out,
    Forall plainName (s :: segs) → (2 ≤ length out)%nat →
    path.cleanLoop true (String.concat "/" (s :: segs)) out 1
    = rev (chars ("/" +:+ String.concat "/" (s :: segs))) ++ out.
Proof.
  induction segs as [|s' segs IH]; intros s out Hok Hlen.
  - apply Forall_cons in Hok as [[Hs Hp] _].
    cbn [String.concat]. rewrite <- (string_app_nil_r s) at 1.
    rewrite path_cleanLoop_name by auto using published_no_dot.
    replace (path.needSlash true out) with true.
    2:{ unfold path.needSlash. cbn. destruct out as [|? [|? ?]]; cbn in *; lia. }
    cbn [path.cleanLoop]. by norm_chars.
  - apply Forall_cons in Hok as [[Hs Hp] Hok].
    rewrite string_concat_cons2.
    rewrite path_cleanLoop_name by auto using published_no_dot.
    replace (path.needSlash true out) with true.
    2:{ unfold path.needSlash. cbn. destruct out as [|? [|? ?]]; cbn in *; lia. }
    change ("/" +:+ String.concat "/" (s' :: segs))
      with (String "/" (String.concat "/" (s' :: segs))).
    rewrite path_cleanLoop_cons. cbn [Ascii.eqb Bool.eqb].
    rewrite IH by (done || rewrite length_app; cbn; lia).
    change (String "/" (String.concat "/" (s' :: segs)))
      with ("/" +:+ String.concat "/" (s' :: segs)).
    by norm_chars.
Qed.

(** The loop on a run of published names, right after the leading slash. *)
Lemma path_cleanLoop_names_rooted s segs :
  Forall plainName (s :: segs) →
  path.cleanLoop true (String.concat "/" (s :: segs)) ["/"%char] 1
  = rev (chars (String.concat "/" (s :: segs))) ++ ["/"%char].
Proof.
  intros Hok. destruct segs as [|s' segs].
  - apply Forall_cons in Hok as [[Hs Hp] _].
    cbn [String.concat]. rewrite <- (string_app_nil_r s) at 1.
    by rewrite path_cleanLoop_name by auto using published_no_dot.
  - apply Forall_cons in Hok as [[Hs Hp] Hok].
    rewrite string_concat_cons2.
    rewrite path_cleanLoop_name by auto using published_no_dot.
    cbn [path.needSlash length Nat.eqb negb andb orb].
    change ("/" +:+ String.concat "/" (s' :: segs))
      with (String "/" (String.concat "/" (s' :: segs))).
    rewrite path_cleanLoop_cons. cbn [Ascii.eqb Bool.eqb].
    rewrite path_cleanLoop_names
      by (done || (rewrite length_app; pose proof (nameOk_length s Hs); cbn; lia)).
    change (String "/" (String.concat "/" (s' :: segs)))
      with ("/" +:+ String.concat "/" (s' :: segs)).
    by norm_chars.
Qed.

Lemma string_of_chars s : String.string_of_list_ascii (chars s) = s.
Proof. apply String.string_of_list_ascii_of_string. Qed.

(** The URL path of a published file is clean. *)
Lemma path_Clean_urlOf s segs :
  Forall plainName (s :: segs) →
  path.Clean (urlOf (s :: segs)) = urlOf (s :: segs).
Proof.
  intros Hok. unfold urlOf.
  change ("/" +:+ String.concat "/" (s :: segs))
    with (String "/" (String.concat "/" (s :: segs))).
  unfold path.Clean. cbn [Ascii.eqb Bool.eqb].
  rewrite path_cleanLoop_names_rooted by done.
  destruct (rev (chars (String.concat "/" (s :: segs))) ++ ["/"%char])
    as [|c l] eqn:E; [by destruct (rev (chars (String.concat "/" (s :: segs))))|].
  rewrite <- E, rev_app_distr, rev_involutive.
  cbn [rev app String.string_of_list_ascii]. by rewrite string_of_chars.
Qed.

Lemma path_Clean_slash_slash name :
  plainName name → path.Clean ("/" +:+ "/" +:+ name) = urlOf [name].
Proof.
  intros Hok. unfold urlOf.
  change ("/" +:+ "/" +:+ name) with (String "/" (String "/" name)).
  unfold path.Clean. cbn [Ascii.eqb Bool.eqb].
  rewrite path_cleanLoop_cons. cbn [Ascii.eqb Bool.eqb].
  assert (path.cleanLoop true name ["/"%char] 1
          = rev (chars name) ++ ["/"%char]) as ->
    by (apply (path_cleanLoop_names_rooted name []); by constructor).
  destruct (rev (chars name) ++ ["/"%char])
    as [|c l] eqn:E; [by destruct (rev (chars name))|].
  rewrite <- E, rev_app_distr, rev_involutive.
  cbn [rev app String.string_of_list_ascii]. by rewrite string_of_chars.
Qed.

Lemma path_Join_two c r name :
  path.Join [String c r; name]
  = path.Clean (String c r +:+ "/" +:+ name).
Proof.
  unfold path.Join, path.joinBuf. cbn [fold_left].
  cbn [String.eqb String.length Nat.add Nat.eqb negb orb].
  rewrite !string_app_nil_l.
  cbn [String.eqb negb orb]. by rewrite string_app_assoc.
Qed.

(** Joining a published name to the URL path of a published directory
    appends the name. *)
Lemma path_Join_urlOf segs name :
  Forall plainName segs → plainName name →
  path.Join [urlOf segs; name] = urlOf (segs ++ [name]).
Proof.
  intros Hsegs Hname. unfold urlOf at 1.
  change ("/" +:+ String.concat "/" segs)
    with (String "/" (String.concat "/" segs)).
  rewrite path_Join_two. destruct segs as [|s segs].
  - by apply path_Clean_slash_slash.
  - change ((s :: segs) ++ [name]) with (s :: segs ++ [name]).
    rewrite <- (path_Clean_urlOf s (segs ++ [name]))
      by (apply (Forall_app _ (s :: segs)); auto).
    f_equal. unfold urlOf.
    change (s :: segs ++ [name]) with ((s :: segs) ++ [name]).
    by rewrite string_concat_snoc.
Qed.

(** Along a published path the walk computes [urlOf]. *)
Lemma urlUnder_urlOf segs :
  Forall plainName segs → urlUnder "/" segs = urlOf segs.
Proof.
  induction segs as [|name segs IH] using rev_ind; intros Hok; [done|].
  apply Forall_app in Hok as [Hsegs [Hname _]%Forall_cons].
  unfold urlUnder. rewrite foldl_app. cbn [foldl].
  fold (urlUnder "/" segs). rewrite IH by done.
  by apply path_Join_urlOf.
Qed.

(** ** Distinct published paths have distinct URL paths *)

Lemma elementEnds_slashFree_split s1 :
  ∀ s2 t1 t2,
    slashFree s1 = true → slashFree s2 = true →
    path.elementEnds t1 = true → path.elementEnds t2 = true →
    s1 +:+ t1 = s2 +:+ t2 → s1 = s2 ∧ t1 = t2.
Proof.
  induction s1 as [|c s1 IH]; intros [|c2 s2] t1 t2 H1 H2 Ht1 Ht2 E.
  - done.
  - rewrite string_app_nil_l, string_app_cons in E. subst t1.
    cbn in H2, Ht1. rewrite Ht1 in H2. discriminate H2.
  - rewrite string_app_nil_l, string_app_cons in E. subst t2.
    cbn in H1, Ht2. rewrite Ht2 in H1. discriminate H1.
  - rewrite !string_app_cons in E. injection E as -> E.
    cbn in H1, H2. apply andb_prop in H1 as [_ H1].
    apply andb_prop in H2 as [_ H2].
    destruct (IH s2 t1 t2) as [-> ->]; done.
Qed.

Lemma string_concat_cons sep x l :
  String.concat sep (x :: l)
  = x +:+ match l with [] => "" | _ => sep +:+ String.concat sep l end.
Proof. destruct l; [by rewrite string_app_nil_r|done]. Qed.

Lemma string_concat_inj segs1 :
  ∀ segs2,
    Forall (λ s, nameOk s = true) segs1 →
    Forall (λ s, nameOk s = true) segs2 →
    String.concat "/" segs1 = String.concat "/" segs2 → segs1 = segs2.
Proof.
  induction segs1 as [|s1 l1 IH]; intros [|s2 l2] H1 H2 E.
  - done.
  - apply Forall_cons in H2 as [(c & r & -> & _)%nameOk_inv _].
    rewrite string_concat_cons in E. discriminate E.
  - apply Forall_cons in H1 as [(c & r & -> & _)%nameOk_inv _].
    rewrite string_concat_cons in E. discriminate E.
  - apply Forall_cons in H1 as [Hs1 H1]. apply Forall_cons in H2 as [Hs2 H2].
    rewrite !string_concat_cons in E.
    apply elementEnds_slashFree_split in E as [-> E];
      [|by auto using nameOk_slashFree..| by destruct l1 | by destruct l2].
    f_equal. destruct l1 as [|y1 l1], l2 as [|y2 l2]; try done.
    apply IH; [done..|]. by injection E.
Qed.

Lemma urlOf_inj segs1 segs2 :
  Forall (λ s, nameOk s = true) segs1 →
  Forall (λ s, nameOk s = true) segs2 →
  urlOf segs1 = urlOf segs2 → segs1 = segs2.
Proof.
  intros H1 H2 E. apply string_concat_inj; [done..|].
  unfold urlOf in E. by injection E.
Qed.

(** ** The published files of a tree *)

Lemma treeOk_cons name n es :
  treeOk (Directory ((name, n) :: es)) = true →
  nameOk name = true ∧ treeOk n = true ∧ (name ∉ es.*1)
  ∧ treeOk (Directory es) = true.
Proof.
  cbn [treeOk forallb fst snd]. intros [Hnd H]%andb_prop.
  apply andb_prop in H as [[Hname Hn]%andb_prop Hes].
  apply bool_decide_eq_true in Hnd. cbn in Hnd. apply NoDup_cons in Hnd as [? ?].
  repeat split; try done. apply andb_true_intro.
  split; [by apply bool_decide_eq_true|done].
Qed.

Lemma nodeAt_Directory_inv es segs n :
  nodeAt (Directory es) segs n →
  (segs = [] ∧ n = Directory es)
  ∨ ∃ name sub segs', segs = name :: segs' ∧ (name, sub) ∈ es
                      ∧ nodeAt sub segs' n.
Proof. inversion 1; subst; [by left|right; eauto 10]. Qed.

Lemma nodeAt_leaf_inv d segs n :
  (∀ es, d ≠ Directory es) → nodeAt d segs n → segs = [] ∧ n = d.
Proof. intros Hd. inversion 1; subst; [done|]. by destruct (Hd es). Qed.

(** Along a path of a well-formed tree every name is a proper name. *)
Lemma treeOk_nodeAt d segs n :
  nodeAt d segs n → treeOk d = true →
  Forall (λ s, nameOk s = true) segs ∧ treeOk n = true.
Proof.
  induction 1 as [d|es name sub segs n Hin Hat IH]; intros Hok; [done|].
  assert (nameOk name = true ∧ treeOk sub = true) as [Hname Hsub].
  { cbn [treeOk] in Hok. apply andb_prop in Hok as [_ Hall].
    rewrite forallb_forall in Hall. apply list_elem_of_In in Hin.
    apply Hall in Hin. cbn in Hin. by apply andb_prop in Hin. }
  destruct (IH Hsub). split; [by constructor|done].
Qed.

(** Every published file is a regular file at a path of published names. *)
Lemma publishedFiles_sound d :
  ∀ segs bs,
    (segs, bs) ∈ publishedFiles d →
    nodeAt d segs (RegularFile bs)
    ∧ Forall (λ s, published s = true) segs.
Proof.
  induction d as [b| | |es IH|] using fsnode_tree_ind;
    intros segs bs Hin; try by apply elem_of_nil in Hin.
  induction es as [|[name n] es IHes]; [by apply elem_of_nil in Hin|].
  apply Forall_cons in IH as [IHn IH]. cbn [snd] in IHn.
  rewrite publishedFiles_cons in Hin. apply elem_of_app in Hin as [Hin|Hin].
  - destruct (published name) eqn:Hp; [|by apply elem_of_nil in Hin].
    destruct n as [bs'| | |sub|]; try by apply elem_of_nil in Hin.
    + apply list_elem_of_singleton in Hin. simplify_eq.
      split; [|by constructor].
      econstructor; [apply list_elem_of_here|constructor].
    + apply list_elem_of_In, in_map_iff in Hin as [[segs' bs'] [E Hin]].
      cbn in E. simplify_eq.
      apply list_elem_of_In, IHn in Hin as [Hat Hpub].
      split; [|by constructor].
      econstructor; [apply list_elem_of_here|done].
  - destruct (IHes IH Hin) as [Hat Hpub]. split; [|done].
    apply nodeAt_Directory_inv in Hat as [[-> [=]]|(nm & sub & segs' & -> & H & Hat)].
    econstructor; [by apply list_elem_of_further|done].
Qed.

(** Every regular file at a path of published names is a published file. *)
Lemma publishedFiles_complete d :
  ∀ segs bs,
    nodeAt d segs (RegularFile bs) → segs ≠ [] →
    Forall (λ s, published s = true) segs →
    (segs, bs) ∈ publishedFiles d.
Proof.
  induction d as [b| | |es IH|] using fsnode_tree_ind;
    intros segs bs Hat Hne Hpub;
    try (apply nodeAt_leaf_inv in Hat as [-> _]; done).
  apply nodeAt_Directory_inv in Hat
    as [[-> _]|(name & sub & segs' & -> & Hin & Hat)]; [done|].
  apply Forall_cons in Hpub as [Hp Hpub].
  clear Hne. induction es as [|[name' n] es IHes];
    [by apply elem_of_nil in Hin|].
  apply Forall_cons in IH as [IHn IH]. cbn [snd] in IHn.
  rewrite publishedFiles_cons. apply elem_of_app.
  apply elem_of_cons in Hin as [[= <- <-]|Hin]; [left|right; by apply IHes].
  rewrite Hp. destruct sub as [bs'| | |sub|];
    try (apply nodeAt_leaf_inv in Hat as [-> [=]]; done).
  - apply nodeAt_leaf_inv in Hat as [-> [= ->]]; [|done].
    apply list_elem_of_here.
  - destruct segs' as [|s segs'].
    { apply nodeAt_Directory_inv in Hat as [[_ [=]]|(? & ? & ? & [=] & _)]. }
    apply list_elem_of_In, in_map_iff. exists (s :: segs', bs).
    split; [done|]. by apply list_elem_of_In, IHn.
Qed.

Lemma publishedFiles_head es segs bs :
  (segs, bs) ∈ publishedFiles (Directory es) →
  ∃ name segs', segs = name :: segs' ∧ name ∈ es.*1.
Proof.
  intros [Hat _]%publishedFiles_sound.
  apply nodeAt_Directory_inv in Hat
    as [[_ [=]]|(name & sub & segs' & -> & Hin & _)].
  exists name, segs'. split; [done|].
  apply list_elem_of_fmap. by exists (name, sub).
Qed.

Lemma paths_under_name name (l : list (list string * list byte)) :
  (map (λ f, (name :: f.1, f.2)) l).*1 = (name ::.) <$> l.*1.
Proof. induction l as [|x l IH]; [done|]. cbn. by f_equal. Qed.

(** In a well-formed tree no two published files have the same path. *)
Lemma publishedFiles_NoDup d :
  treeOk d = true → NoDup (publishedFiles d).*1.
Proof.
  induction d as [b| | |es IH|] using fsnode_tree_ind;
    intros Hok; try by constructor.
  induction es as [|[name n] es IHes]; [by constructor|].
  apply Forall_cons in IH as [IHn IH]. cbn [snd] in IHn.
  apply treeOk_cons in Hok as (Hname & Hn & Hfresh & Hes).
  rewrite publishedFiles_cons, fmap_app. apply NoDup_app. split_and!.
  - destruct (published name); [|by constructor].
    destruct n as [bs'| | |sub|]; try by constructor.
    + apply NoDup_singleton.
    + rewrite paths_under_name.
      apply NoDup_fmap; [apply _|by apply IHn].
  - intros segs Hin Hin'.
    apply list_elem_of_fmap in Hin' as [[segs' bs] [-> Hin']].
    apply publishedFiles_head in Hin' as (nm & tl & E & Hnm). cbn in E. subst.
    assert (nm = name) as ->; [|done].
    destruct (published name); [|by apply elem_of_nil in Hin].
    destruct n as [bs'| | |sub|]; try by apply elem_of_nil in Hin.
    + apply list_elem_of_singleton in Hin. cbn in Hin. by simplify_eq.
    + rewrite paths_under_name in Hin.
      apply list_elem_of_fmap in Hin as [? [E _]]. cbn in E. by simplify_eq.
  - by apply IHes.
Qed.

(** ** The map filled from the slice *)

Lemma fillCache_snoc es e :
  fillCache (es ++ [e]) = <[urlpath e := e]> (fillCache es).
Proof. unfold fillCache. by rewrite foldl_app. Qed.

Lemma fillCache_lookup_Some es k e :
  fillCache es !! k = Some e → e ∈ es ∧ urlpath e = k.
Proof.
  induction es as [|x es IH] using rev_ind; [done|].
  rewrite fillCache_snoc. intros H.
  destruct (decide (urlpath x = k)) as [<-|Hne].
  - rewrite lookup_insert_eq in H. simplify_eq.
    split; [|done]. apply elem_of_app. right. apply list_elem_of_here.
  - rewrite lookup_insert_ne in H by done.
    destruct (IH H). split; [|done]. apply elem_of_app. by left.
Qed.

Lemma fillCache_lookup_None es k :
  fillCache es !! k = None ↔ k ∉ urlpath <$> es.
Proof.
  induction es as [|x es IH] using rev_ind.
  - split; [intros _; by apply not_elem_of_nil|done].
  - rewrite fillCache_snoc, fmap_app, not_elem_of_app.
    rewrite lookup_insert_None, IH. cbn. rewrite list_elem_of_singleton.
    intuition congruence.
Qed.

Lemma fillCache_lookup_NoDup es e :
  NoDup (urlpath <$> es) → e ∈ es → fillCache es !! urlpath e = Some e.
Proof.
  induction es as [|x es IH] using rev_ind; intros Hnd Hin;
    [by apply elem_of_nil in Hin|].
  rewrite fmap_app in Hnd. apply NoDup_app in Hnd as (Hnd & Hdisj & _).
  rewrite fillCache_snoc.
  apply elem_of_app in Hin as [Hin|Hin%list_elem_of_singleton]; [|subst x].
  - rewrite lookup_insert_ne; [by apply IH|].
    intros E. apply (Hdisj (urlpath e)).
    + by apply list_elem_of_fmap_2.
    + rewrite <- E. apply list_elem_of_here.
  - apply lookup_insert_eq.
Qed.

(** ** The entry of a file *)

Lemma quot_minus_one : Z.quot (-1) tcpPacketDataSize = 0%Z.
Proof. reflexivity. Qed.

Lemma len_nonneg bs : (0 ≤ len bs)%Z.
Proof. unfold len. lia. Qed.

(** The comparison [appendFileEntry] makes when it sets the flag. *)
Lemma packets_gt_minus_one bs :
  (Z.quot (len bs) tcpPacketDataSize >? Z.quot (-1) tcpPacketDataSize)%Z
  = bool_decide (1460 ≤ len bs)%Z.
Proof.
  rewrite quot_minus_one. unfold tcpPacketDataSize.
  pose proof (len_nonneg bs) as Hlen.
  rewrite Z.quot_div_nonneg by lia.
  case_bool_decide as H.
  - apply Z.gtb_lt, Z.div_str_pos. lia.
  - rewrite Z.div_small by lia. reflexivity.
Qed.

Section FileEntry.

Context (T : string → string).

Lemma fileEntry_shouldServeCompressed u f bs gbs :
  shouldServeCompressed (fileEntry T u f bs gbs)
  = bool_decide (1460 ≤ len bs)%Z
    && negb (contentTypeIsAlreadyCompressed (T (filepath.Ext f))).
Proof.
  unfold fileEntry. cbn [contentType identitySize compressedSize
    setShouldServeCompressed].
  rewrite packets_gt_minus_one.
  destruct (contentTypeIsAlreadyCompressed _), (bool_decide _); reflexivity.
Qed.

Lemma fileEntry_urlpath u f bs gbs : urlpath (fileEntry T u f bs gbs) = u.
Proof.
  unfold fileEntry. cbn [contentType identitySize compressedSize
    setShouldServeCompressed].
  rewrite packets_gt_minus_one.
  destruct (contentTypeIsAlreadyCompressed _), (bool_decide _); reflexivity.
Qed.

Lemma fileEntry_contentType u f bs gbs :
  contentType (fileEntry T u f bs gbs) = T (filepath.Ext f).
Proof.
  unfold fileEntry. cbn [contentType identitySize compressedSize
    setShouldServeCompressed].
  rewrite packets_gt_minus_one.
  destruct (contentTypeIsAlreadyCompressed _), (bool_decide _); reflexivity.
Qed.

Lemma fileEntry_identitySize u f bs gbs :
  identitySize (fileEntry T u f bs gbs) = len bs.
Proof.
  unfold fileEntry. cbn [contentType identitySize compressedSize
    setShouldServeCompressed].
  rewrite packets_gt_minus_one.
  destruct (contentTypeIsAlreadyCompressed _), (bool_decide _); reflexivity.
Qed.

Lemma fileEntry_identityHandler u f bs gbs :
  identityHandler (fileEntry T u f bs gbs)
  = identityServe (T (filepath.Ext f)) bs.
Proof.
  unfold fileEntry. cbn [contentType identitySize compressedSize
    setShouldServeCompressed].
  rewrite packets_gt_minus_one.
  destruct (contentTypeIsAlreadyCompressed _), (bool_decide _); reflexivity.
Qed.

Lemma fileEntry_gzipHandler u f bs gbs :
  gzipHandler (fileEntry T u f bs gbs)
  = if shouldServeCompressed (fileEntry T u f bs gbs)
    then Some (gzipServe (T (filepath.Ext f)) gbs) else None.
Proof.
  unfold fileEntry. cbn [contentType identitySize compressedSize
    setShouldServeCompressed].
  rewrite packets_gt_minus_one.
  destruct (contentTypeIsAlreadyCompressed _), (bool_decide _); reflexivity.
Qed.

Lemma fileEntry_compressedSize u f bs gbs :
  compressedSize (fileEntry T u f bs gbs)
  = if shouldServeCompressed (fileEntry T u f bs gbs)
    then len gbs else (-1)%Z.
Proof.
  unfold fileEntry. cbn [contentType identitySize compressedSize
    setShouldServeCompressed].
  rewrite packets_gt_minus_one.
  destruct (contentTypeIsAlreadyCompressed _), (bool_decide _); reflexivity.
Qed.

End FileEntry.

(** ** What the two closures write *)

Lemma Header_Add_absent (h : Header) key value :
  h !! key = None → Header_Add h key value = <[key := [value]]> h.
Proof. intros H. unfold Header_Add. by rewrite H. Qed.

Lemma identityServe_fresh ct bs connOk :
  identityServe ct bs (fresh connOk)
  = {| rwHeader := plainHeader ct;
       rwSent := Some (StatusOK, plainHeader ct);
       rwBody := if connOk then bs else [];
       rwConnOk := connOk;
       rwFault := BreaksAfterHead 0 |}.
Proof.
  unfold identityServe, AddHeader, fresh. cbn [rwHeader rwSent rwBody rwConnOk rwFault].
  rewrite Header_Add_absent by apply lookup_empty. rewrite insert_empty.
  fold (plainHeader ct).
  destruct bs as [|b bs], connOk; try reflexivity.
Qed.

Lemma gzipServe_fresh ct gbs connOk :
  gzipServe ct gbs (fresh connOk)
  = {| rwHeader := gzipHeader ct;
       rwSent := Some (StatusOK, gzipHeader ct);
       rwBody := if connOk then gbs else [];
       rwConnOk := connOk;
       rwFault := BreaksAfterHead 0 |}.
Proof.
  unfold gzipServe, AddHeader, fresh. cbn [rwHeader rwSent rwBody rwConnOk rwFault].
  rewrite (Header_Add_absent ∅) by apply lookup_empty. rewrite insert_empty.
  rewrite Header_Add_absent by (by apply lookup_singleton_ne).
  fold (gzipHeader ct).
  destruct gbs as [|b gbs], connOk; try reflexivity.
Qed.

Lemma plainHeader_lookup ct :
  plainHeader ct !! "Content-Type" = Some [ct]
  ∧ plainHeader ct !! "Content-Encoding" = None.
Proof.
  unfold plainHeader. split; [apply lookup_singleton_eq|].
  by apply lookup_singleton_ne.
Qed.

Lemma gzipHeader_lookup ct :
  gzipHeader ct !! "Content-Type" = Some [ct]
  ∧ gzipHeader ct !! "Content-Encoding" = Some ["gzip"].
Proof.
  unfold gzipHeader. split; [|apply lookup_insert_eq].
  rewrite lookup_insert_ne by done. apply lookup_singleton_eq.
Qed.

(** ** What a built handler holds *)

Section Built.

Context (T : string → string) (gz : list byte → gzipResult).

Lemma NewHandler_unfold dir root :
  NewHandler T gz dir root
  = match appendDirEntries T gz [] "/" dir root with
    | (_, Some err) => (None, Some err)
    | (entries, None) =>
        match fillCache entries !! "/index.html" with
        | None => (None, Some ErrRootNotFound)
        | Some _ => (Some {| cache := fillCache entries |}, None)
        end
    end.
Proof. reflexivity. Qed.

Lemma NewHandler_Some_inv dir root h :
  NewHandler T gz dir root = (Some h, None) →
  walkable gz root = true
  ∧ appendDirEntries T gz [] "/" dir root
    = (entriesOf T gz "/" dir root, None)
  ∧ cache h = fillCache (entriesOf T gz "/" dir root)
  ∧ is_Some (cache h !! "/index.html").
Proof.
  rewrite NewHandler_unfold. intros H.
  destruct (walkable gz root) eqn:Hw.
  - rewrite (appendDirEntries_walkable T gz root [] "/" dir Hw) in *.
    rewrite app_nil_l in *.
    destruct (fillCache _ !! "/index.html") as [e|] eqn:He; [|done].
    simplify_eq. cbn [cache]. rewrite He. eauto.
  - destruct (appendDirEntries_not_walkable T gz root [] "/" dir Hw)
      as [err Herr].
    rewrite Herr in H. done.
Qed.

(** In a walk without a failure the compressor succeeded on every
    published file. *)
Lemma walkable_gzip d :
  ∀ segs bs,
    walkable gz d = true → (segs, bs) ∈ publishedFiles d →
    gz bs = GzipBytes (gzipBytesOf gz bs).
Proof.
  induction d as [b| | |es IH|] using fsnode_tree_ind;
    intros segs bs Hw Hin; try by apply elem_of_nil in Hin.
  induction es as [|[name n] es IHes]; [by apply elem_of_nil in Hin|].
  apply Forall_cons in IH as [IHn IH]. cbn [snd] in IHn.
  rewrite walkable_cons in Hw. apply andb_prop in Hw as [Hn Hes].
  rewrite publishedFiles_cons in Hin.
  apply elem_of_app in Hin as [Hin|Hin]; [|by apply IHes].
  destruct (published name); [|by apply elem_of_nil in Hin].
  cbn [negb orb] in Hn. apply andb_prop in Hn as [Hfaulty Hsub].
  destruct n as [bs'| | |sub|]; try by apply elem_of_nil in Hin.
  - apply list_elem_of_singleton in Hin. simplify_eq.
    unfold faultyEntry in Hfaulty. unfold gzipBytesOf.
    by destruct (gz _).
  - apply list_elem_of_In, in_map_iff in Hin as [[segs' bs'] [E Hin]].
    cbn in E. simplify_eq. apply list_elem_of_In in Hin. by eapply IHn.
Qed.

(** Every entry of a built handler is the entry of a published file. *)
Lemma cache_entry_inv dir root h key e :
  NewHandler T gz dir root = (Some h, None) →
  cache h !! key = Some e →
  ∃ segs bs,
    (segs, bs) ∈ publishedFiles root
    ∧ gz bs = GzipBytes (gzipBytesOf gz bs)
    ∧ key = urlUnder "/" segs
    ∧ e = fileEntry T (urlUnder "/" segs) (fpathUnder dir segs) bs
            (gzipBytesOf gz bs).
Proof.
  intros (Hw & _ & Hc & _)%NewHandler_Some_inv He.
  rewrite Hc in He. apply fillCache_lookup_Some in He as [Hin <-].
  unfold entriesOf in Hin.
  apply list_elem_of_In, in_map_iff in Hin as [[segs bs] [<- Hin]].
  apply list_elem_of_In in Hin. exists segs, bs. cbn [fst snd].
  rewrite fileEntry_urlpath. eauto using walkable_gzip.
Qed.

End Built.

(** ** The payloads of an entry *)

Lemma plainPayload_fileEntry T u f bs gbs :
  plainPayload (fileEntry T u f bs gbs) = bs.
Proof.
  unfold plainPayload.
  by rewrite fileEntry_identityHandler, identityServe_fresh.
Qed.

Lemma compressedPayload_fileEntry T u f bs gbs :
  compressedPayload (fileEntry T u f bs gbs)
  = if shouldServeCompressed (fileEntry T u f bs gbs)
    then Some gbs else None.
Proof.
  unfold compressedPayload. rewrite fileEntry_gzipHandler.
  destruct (shouldServeCompressed _); [|done].
  cbn [fmap option_fmap option_map]. by rewrite gzipServe_fresh.
Qed.

(** ** Built handlers and published files *)

Section Published.

Context (T : string → string) (gz : list byte → gzipResult).

(** The handler [NewHandler] returns for a tree the walk does not fail on
    and that publishes the root document. *)
Lemma NewHandler_built dir root :
  walkable gz root = true →
  "/index.html" ∈ urlpath <$> entriesOf T gz "/" dir root →
  NewHandler T gz dir root
  = (Some {| cache := fillCache (entriesOf T gz "/" dir root) |}, None).
Proof.
  intros Hw Hin. rewrite NewHandler_unfold.
  rewrite (appendDirEntries_walkable T gz root [] "/" dir Hw), app_nil_l.
  destruct (fillCache _ !! "/index.html") eqn:E; [done|].
  by apply fillCache_lookup_None in E.
Qed.

Lemma entriesOf_urlpaths u f d :
  urlpath <$> entriesOf T gz u f d
  = (λ p, urlUnder u p.1) <$> publishedFiles d.
Proof.
  unfold entriesOf.
  induction (publishedFiles d) as [|[segs bs] l IH]; [done|].
  cbn [map fmap list_fmap fst snd]. rewrite fileEntry_urlpath.
  f_equal. apply IH.
Qed.

Lemma publishedFiles_plainNames d segs bs :
  treeOk d = true → (segs, bs) ∈ publishedFiles d → Forall plainName segs.
Proof.
  intros Hok [Hat Hpub]%publishedFiles_sound.
  destruct (treeOk_nodeAt d segs _ Hat Hok) as [Hnames _].
  apply Forall_forall. intros s Hs. split.
  - by eapply (proj1 (Forall_forall _ _) Hnames).
  - by eapply (proj1 (Forall_forall _ _) Hpub).
Qed.

(** In a well-formed tree the URL paths of the entries are the paths of
    the published files, each once. *)
Lemma entriesOf_urlpaths_ok dir d :
  treeOk d = true →
  urlpath <$> entriesOf T gz "/" dir d = urlOf <$> (publishedFiles d).*1.
Proof.
  intros Hok. rewrite entriesOf_urlpaths, <- list_fmap_compose.
  apply Forall_fmap_ext, Forall_forall. intros [segs bs] Hin. cbn.
  apply urlUnder_urlOf. by eapply publishedFiles_plainNames.
Qed.

Lemma entriesOf_NoDup dir d :
  treeOk d = true → NoDup (urlpath <$> entriesOf T gz "/" dir d).
Proof.
  intros Hok. rewrite entriesOf_urlpaths_ok by done.
  apply NoDup_fmap_2_strong; [|by apply publishedFiles_NoDup].
  intros segs1 segs2 H1 H2 E.
  apply list_elem_of_fmap in H1 as [[s1 b1] [-> H1]].
  apply list_elem_of_fmap in H2 as [[s2 b2] [-> H2]].
  apply publishedFiles_sound in H1 as [H1 _].
  apply publishedFiles_sound in H2 as [H2 _].
  apply urlOf_inj; [..|done].
  - by destruct (treeOk_nodeAt d _ _ H1 Hok).
  - by destruct (treeOk_nodeAt d _ _ H2 Hok).
Qed.

(** The entry a built handler holds for a published file. *)
Lemma cache_lookup_published dir root h segs bs :
  treeOk root = true →
  NewHandler T gz dir root = (Some h, None) →
  (segs, bs) ∈ publishedFiles root →
  cache h !! urlOf segs
  = Some (fileEntry T (urlOf segs) (fpathUnder dir segs) bs
            (gzipBytesOf gz bs)).
Proof.
  intros Hok (_ & _ & -> & _)%NewHandler_Some_inv Hin.
  pose proof (publishedFiles_plainNames _ _ _ Hok Hin) as Hnames.
  rewrite <- (urlUnder_urlOf segs Hnames).
  set (e := fileEntry T _ _ _ _).
  replace (urlUnder "/" segs) with (urlpath e)
    by (unfold e; apply fileEntry_urlpath).
  apply fillCache_lookup_NoDup; [by apply entriesOf_NoDup|].
  unfold entriesOf. apply list_elem_of_In, in_map_iff.
  exists (segs, bs). split; [done|by apply list_elem_of_In].
Qed.

End Published.

(** ** The example site *)

Lemma site_treeOk : treeOk site = true.
Proof. vm_compute. reflexivity. Qed.

Lemma site_built :
  NewHandler mime.TypeByExtension gzip.stored "dist" site
  = (Some siteHandler, None).
Proof.
  apply NewHandler_built; [vm_compute; reflexivity|].
  apply (bool_decide_unpack _). vm_compute. exact I.
Qed.

Lemma site_lookup segs bs :
  bool_decide ((segs, bs) ∈ publishedFiles site) = true →
  cache siteHandler !! urlOf segs = Some (siteEntry segs bs).
Proof.
  intros Hin%bool_decide_eq_true_1.
  by apply (cache_lookup_published _ _ "dist" site _ segs bs
              site_treeOk site_built).
Qed.

Lemma siteWithoutIndex_walk :
  appendDirEntries mime.TypeByExtension gzip.stored [] "/" "dist"
    siteWithoutIndex
  = (entriesOf mime.TypeByExtension gzip.stored "/" "dist" siteWithoutIndex,
     None).
Proof.
  rewrite appendDirEntries_walkable by (vm_compute; reflexivity).
  by rewrite app_nil_l.
Qed.

(** ** The response of a built handler *)

Lemma ServeHTTP_unfold h wr r :
  ServeHTTP h wr r
  = match lookup h (normalize (URL_Path r)) with
    | (_, None) => WriteHeader StatusInternalServerError wr
    | (_, Some entry) =>
        match gzipHandler entry with
        | Some g =>
            if GoStrings.Contains
                 (Header_Get (ReqHeader r) "Accept-Encoding") "gzip"
            then g wr else identityHandler entry wr
        | None => identityHandler entry wr
        end
    end.
Proof. unfold ServeHTTP. by destruct (lookup h _) as [? [?|]]. Qed.

(** The lookup yields the entry of the cleaned path, or that of the
    fallback path when the cleaned path is not a key. *)
Lemma lookup_cases h p :
  (∃ e, cache h !! p = Some e ∧ lookup h p = (p, Some e))
  ∨ (cache h !! p = None
     ∧ lookup h p = ("/index.html", cache h !! "/index.html")).
Proof. unfold lookup. destruct (cache h !! p) as [e|]; eauto. Qed.

Lemma lookup_Some_inv h p key e :
  lookup h p = (key, Some e) →
  cache h !! key = Some e
  ∧ (key = p ∨ key = "/index.html" ∧ cache h !! p = None).
Proof.
  destruct (lookup_cases h p) as [(e' & He & ->)|[Hp ->]];
    intros [= <- E]; simplify_eq; auto.
Qed.

(** The response a built handler writes to a fresh writer, by the entry
    the request resolves to. *)
Lemma ServeHTTP_built T gz dir root h r key e connOk :
  NewHandler T gz dir root = (Some h, None) →
  lookup h (normalize (URL_Path r)) = (key, Some e) →
  ServeHTTP h (fresh connOk) r
  = if shouldServeCompressed e && acceptsGzip r
    then {| rwHeader := gzipHeader (contentType e);
            rwSent := Some (StatusOK, gzipHeader (contentType e));
            rwBody := if connOk then default [] (compressedPayload e)
                      else [];
            rwConnOk := connOk;
            rwFault := BreaksAfterHead 0 |}
    else {| rwHeader := plainHeader (contentType e);
            rwSent := Some (StatusOK, plainHeader (contentType e));
            rwBody := if connOk then plainPayload e else [];
            rwConnOk := connOk;
            rwFault := BreaksAfterHead 0 |}.
Proof.
  intros Hb Hl. rewrite ServeHTTP_unfold, Hl.
  apply lookup_Some_inv in Hl as [He _].
  destruct (cache_entry_inv T gz dir root h key e Hb He)
    as (segs & bs & _ & _ & _ & ->).
  rewrite compressedPayload_fileEntry, plainPayload_fileEntry,
    fileEntry_gzipHandler, fileEntry_identityHandler, fileEntry_contentType.
  fold (acceptsGzip r).
  destruct (shouldServeCompressed _), (acceptsGzip r); cbn [andb default];
    by rewrite ?gzipServe_fresh, ?identityServe_fresh.
Qed.

(** On the entries of a built handler [cacheEntry.ServeHTTP] does not
    panic and chooses as [handler.ServeHTTP] does. *)
Lemma entryServeHTTP_built T gz dir root h key e wr r :
  NewHandler T gz dir root = (Some h, None) →
  cache h !! key = Some e →
  entryServeHTTP e wr r
  = Some match gzipHandler e with
         | Some g => if acceptsGzip r then g wr else identityHandler e wr
         | None => identityHandler e wr
         end.
Proof.
  intros Hb He.
  destruct (cache_entry_inv T gz dir root h key e Hb He)
    as (segs & bs & _ & _ & _ & ->).
  unfold entryServeHTTP. fold (acceptsGzip r).
  rewrite fileEntry_gzipHandler.
  by destruct (shouldServeCompressed _), (acceptsGzip r).
Qed.

(** A built handler finds an entry for every path. *)
Lemma lookup_built T gz dir root h p :
  NewHandler T gz dir root = (Some h, None) →
  ∃ key e, lookup h p = (key, Some e).
Proof.
  intros (_ & _ & _ & [e0 He0])%NewHandler_Some_inv.
  destruct (lookup_cases h p) as [(e & _ & ->)|[_ ->]]; [by eauto|].
  rewrite He0. eauto.
Qed.

(** [strings.HasPrefix] and [strings.Contains], by what they decide. *)
Lemma HasPrefix_iff s prefix :
  GoStrings.HasPrefix s prefix = true ↔ ∃ post, s = prefix +:+ post.
Proof.
  unfold GoStrings.HasPrefix. revert s.
  induction prefix as [|c prefix IH]; intros s.
  - split; [by exists s|by destruct s].
  - destruct s as [|c' s].
    + split; [done|]. by intros [post [=]].
    + change (String.prefix (String c prefix) (String c' s))
        with (if ascii_dec c c' then String.prefix prefix s else false).
      destruct (ascii_dec c c') as [<-|Hne].
      * rewrite IH. split; intros [post E]; exists post.
        -- by rewrite string_app_cons, <- E.
        -- rewrite string_app_cons in E. by injection E.
      * split; [done|]. intros [post E].
        rewrite string_app_cons in E. by injection E.
Qed.

Lemma Contains_iff s substr :
  GoStrings.Contains s substr = true
  ↔ ∃ pre post, s = pre +:+ substr +:+ post.
Proof.
  induction s as [|c s IH].
  - cbn [GoStrings.Contains]. rewrite orb_false_r.
    fold (GoStrings.HasPrefix "" substr). rewrite HasPrefix_iff.
    split.
    + intros [post E]. by exists "", post.
    + intros ([|? ?] & post & E); [by exists post|done].
  - cbn [GoStrings.Contains]. rewrite orb_true_iff, IH.
    fold (GoStrings.HasPrefix (String c s) substr). rewrite HasPrefix_iff.
    split.
    + intros [[post E]|(pre & post & E)].
      * by exists "", post.
      * exists (String c pre), post. by rewrite string_app_cons, <- E.
    + intros ([|c' pre] & post & E).
      * left. by exists post.
      * right. exists pre, post. rewrite string_app_cons in E.
        by injection E.
Qed.

Lemma site_lookup_request p segs bs :
  normalize p = urlOf segs →
  bool_decide ((segs, bs) ∈ publishedFiles site) = true →
  lookup siteHandler (normalize p) = (urlOf segs, Some (siteEntry segs bs)).
Proof.
  intros -> Hin. unfold lookup. by rewrite (site_lookup segs bs Hin).
Qed.

(** ** The storing compressor and its reader *)

Lemma gzip_byteZ_zByte z : gzip.byteZ (gzip.zByte z) = (z mod 256)%Z.
Proof.
  unfold gzip.byteZ, gzip.zByte.
  pose proof (Z.mod_pos_bound z 256 eq_refl) as Hb.
  destruct (Byte.of_N (Z.to_N (z mod 256))) as [b|] eqn:E.
  - apply Byte.to_of_N in E. cbn [default id from_option]. rewrite E. lia.
  - apply Byte.of_N_None_iff in E. lia.
Qed.

Lemma gzip_unle16_le16 k :
  (0 ≤ k ≤ 65535)%Z →
  gzip.unle16 (gzip.zByte k) (gzip.zByte (k / 256)) = k.
Proof.
  intros Hk. unfold gzip.unle16. rewrite !gzip_byteZ_zByte.
  rewrite (Z.mod_small (k / 256)).
  - pose proof (Z.div_mod k 256). lia.
  - split; [apply Z.div_pos; lia|]. apply Z.div_lt_upper_bound; lia.
Qed.

Lemma gzip_maxStored : gzip.maxStored = Z.to_nat 65535.
Proof. reflexivity. Qed.

Lemma gzip_inflateStored_block final chunk fuel rest acc :
  (len chunk ≤ 65535)%Z →
  gzip.inflateStored (S fuel) (gzip.storedBlock final chunk ++ rest) acc
  = if final then Some (acc ++ chunk, rest)
    else gzip.inflateStored fuel rest (acc ++ chunk).
Proof.
  intros Hlen. pose proof (len_nonneg chunk) as Hpos.
  unfold gzip.storedBlock, gzip.le16.
  cbn [app gzip.inflateStored].
  rewrite !gzip_unle16_le16 by lia.
  rewrite bool_decide_eq_true_2.
  2:{ split_and!; [lia| |destruct final; auto].
      unfold len. rewrite length_app. lia. }
  unfold len. rewrite Nat2Z.id, take_app_length, drop_app_length.
  by destruct final.
Qed.

Lemma gzip_inflate_deflate n :
  ∀ bs acc fuel rest,
    (length bs ≤ n)%nat → (n < fuel)%nat →
    gzip.inflateStored fuel (gzip.deflateStored n bs ++ rest) acc
    = Some (acc ++ bs, rest).
Proof.
  induction n as [|n IH]; intros bs acc [|fuel] rest Hn Hfuel; try lia.
  - destruct bs; [|cbn in Hn; lia].
    cbn [gzip.deflateStored]. by rewrite gzip_inflateStored_block.
  - destruct bs as [|b bs].
    { cbn [gzip.deflateStored]. by rewrite gzip_inflateStored_block. }
    cbn [gzip.deflateStored]. rewrite <- app_assoc.
    pose proof gzip_maxStored as Hmax.
    rewrite gzip_inflateStored_block
      by (unfold len; rewrite length_take; lia).
    rewrite IH.
    + by rewrite <- app_assoc, take_drop.
    + rewrite length_drop. cbn [length] in *. lia.
    + lia.
Qed.

Lemma gzip_deflateStored_length n :
  ∀ bs, (length bs ≤ n)%nat →
        (length bs ≤ length (gzip.deflateStored n bs))%nat.
Proof.
  induction n as [|n IH]; intros [|b bs] Hn; cbn [length] in *; try lia.
  cbn [gzip.deflateStored]. unfold gzip.storedBlock, gzip.le16.
  rewrite length_app. cbn [length app]. rewrite length_take.
  pose proof (IH (drop gzip.maxStored (b :: bs))) as Hrec.
  rewrite length_drop in Hrec. cbn [length] in *.
  pose proof gzip_maxStored. lia.
Qed.

(** Reading what the storing compressor wrote gives the payload back. *)
Lemma gzip_decompress_compress bs :
  gzip.decompress (gzip.compress bs) = Some bs.
Proof.
  unfold gzip.decompress, gzip.compress.
  change (take 10 (gzip.header ++ ?x)) with gzip.header.
  change (drop 10 (gzip.header ++ ?x)) with x.
  rewrite bool_decide_eq_true_2 by done.
  rewrite gzip_inflate_deflate; [|done|].
  - cbn [app]. by rewrite bool_decide_eq_true_2.
  - rewrite !length_app.
    pose proof (gzip_deflateStored_length (length bs) bs).
    change (length gzip.header) with 10%nat. lia.
Qed.

Lemma gzip_stored_roundtrip bs gbs :
  gzip.stored bs = GzipBytes gbs → gzip.decompress gbs = Some bs.
Proof. intros [= <-]. apply gzip_decompress_compress. Qed.

(** ** The walk and its failures *)

Section Failures.

Context (T : string → string) (gz : list byte → gzipResult).

Lemma appendFileEntry_error slice u f n s err :
  appendFileEntry T gz slice u f n = (s, Some err) → s = [].
Proof.
  destruct n as [bs| | |es|]; cbn [appendFileEntry]; try by intros [= <-].
  by destruct (gz bs); intros [= <-].
Qed.

Lemma appendDirEntries_error d :
  ∀ slice u f s err,
    appendDirEntries T gz slice u f d = (s, Some err) → s = [].
Proof.
  intros slice u f s err H. destruct (walkable gz d) eqn:Hw.
  - by rewrite appendDirEntries_walkable in H.
  - destruct (appendDirEntries_not_walkable T gz d slice u f Hw) as [e He].
    congruence.
Qed.

Lemma rangeDirEntries_app u f es1 :
  ∀ es2 slice s1,
    rangeDirEntries T gz u f es1 slice = (s1, None) →
    rangeDirEntries T gz u f (es1 ++ es2) slice
    = rangeDirEntries T gz u f es2 s1.
Proof.
  induction es1 as [|[name n] es1 IH]; intros es2 slice s1 H.
  - rewrite rangeDirEntries_nil in H. by simplify_eq.
  - cbn [app]. destruct (published name) eqn:Hp.
    + destruct (IsDir n) eqn:Hd.
      * rewrite rangeDirEntries_dir in * by done.
        destruct (appendDirEntries _ _ _ _ _ _) as [s [e|]]; [done|].
        by apply IH.
      * rewrite rangeDirEntries_file in * by done.
        destruct (appendFileEntry _ _ _ _ _ _) as [s [e|]]; [done|].
        by apply IH.
    + rewrite rangeDirEntries_hidden in * by done. by apply IH.
Qed.

Lemma forallb_elem_of {A} (f : A → bool) l x :
  forallb f l = true → x ∈ l → f x = true.
Proof.
  intros H Hin. apply list_elem_of_In in Hin.
  by apply (proj1 (forallb_forall f l) H).
Qed.

Lemma failsAt_not_walkable d segs n :
  failsAt gz d segs n → walkable gz d = false.
Proof.
  intros (Hat & Hpub & Hfault).
  induction Hat as [d|es name sub segs n Hin Hat IH].
  - destruct d as [| | |es|]; try done. by destruct (Hfault es).
  - apply Forall_cons in Hpub as [Hp Hpub].
    destruct (walkable gz (Directory es)) eqn:Hw; [|done].
    cbn [walkable] in Hw.
    pose proof (forallb_elem_of _ _ _ Hw Hin) as Hsub. cbn [fst snd] in Hsub.
    rewrite Hp in Hsub. cbn [negb orb] in Hsub.
    apply andb_prop in Hsub as [Hnf Hsub].
    destruct segs as [|s segs].
    + inversion Hat; subst. by rewrite Hfault in Hnf.
    + inversion Hat; subst. rewrite IH in Hsub; done.
Qed.

Lemma not_walkable_failsAt d :
  walkable gz d = false → ∃ segs n, failsAt gz d segs n.
Proof.
  induction d as [b| | |es IH|] using fsnode_tree_ind; intros Hw;
    try (eexists [], _; split_and!; [constructor|constructor|done]).
  induction es as [|[name n] es IHes]; [done|].
  apply Forall_cons in IH as [IHn IH]. cbn [snd] in IHn.
  rewrite walkable_cons in Hw.
  destruct (walkable gz (Directory es)) eqn:Hes.
  - rewrite andb_true_r in Hw. clear IHes.
    destruct (published name) eqn:Hp; [|done]. cbn [negb orb] in Hw.
    destruct (faultyEntry gz n) eqn:Hf.
    + exists [name], n. split_and!; [|by repeat constructor|done].
      econstructor; [apply list_elem_of_here|constructor].
    + cbn [negb andb] in Hw.
      destruct n as [bs| | |sub|]; try done.
      destruct (IHn Hw) as (segs & n' & Hat & Hpub & Hfault).
      destruct segs as [|s segs].
      { inversion Hat; subst. by destruct (Hfault sub). }
      exists (name :: s :: segs), n'.
      split_and!; [|by constructor|done].
      econstructor; [apply list_elem_of_here|done].
  - destruct (IHes IH eq_refl) as (segs & n' & Hat & Hpub & Hfault).
    destruct segs as [|s segs].
    { inversion Hat; subst. by destruct (Hfault es). }
    exists (s :: segs), n'. split_and!; [|done..].
    inversion Hat; subst.
    econstructor; [by apply list_elem_of_further|done].
Qed.

End Failures.

(** ** Cleaning a rooted path *)

Lemma bufOf_nil : bufOf [] = ["/"%char].
Proof. reflexivity. Qed.

Lemma urlOf_snoc segs s :
  urlOf (segs ++ [s])
  = match segs with [] => "/" +:+ s | _ => urlOf segs +:+ "/" +:+ s end.
Proof.
  destruct segs as [|x segs]; [done|]. unfold urlOf.
  by rewrite string_concat_snoc.
Qed.

Lemma bufOf_snoc segs s :
  bufOf (segs ++ [s])
  = rev (chars s)
      ++ match segs with [] => bufOf [] | _ => "/"%char :: bufOf segs end.
Proof.
  unfold bufOf. rewrite urlOf_snoc. destruct segs as [|x segs].
  - by norm_chars.
  - unfold urlOf. by norm_chars.
Qed.

Lemma properElem_chars s :
  properElem s →
  ∃ c l, chars s = c :: l ∧ Ascii.eqb c "/"%char = false
         ∧ forallb (λ c, negb (Ascii.eqb c "/"%char)) l = true.
Proof.
  intros (Hne & Hsf & _). destruct s as [|c s]; [done|].
  unfold slashFree in Hsf. cbn in Hsf. apply andb_prop in Hsf as [Hc Hl].
  exists c, (chars s). by apply negb_true_iff in Hc.
Qed.

Lemma bufOf_length segs :
  Forall properElem segs → segs ≠ [] → (2 ≤ length (bufOf segs))%nat.
Proof.
  intros Hok Hne. destruct segs as [|x segs] using rev_ind; [done|].
  apply Forall_app in Hok as [_ [Hx _]%Forall_cons].
  destruct (properElem_chars x Hx) as (c & l & E & _).
  rewrite bufOf_snoc, length_app, length_rev, E. cbn [length].
  destruct segs; [rewrite bufOf_nil|]; cbn [length]; lia.
Qed.

Lemma bufOf_length_nil segs :
  Forall properElem segs →
  (1 <? length (bufOf segs))%nat = negb (bool_decide (segs = [])).
Proof.
  intros Hok. case_bool_decide as E; [by subst|].
  pose proof (bufOf_length segs Hok E). apply Nat.ltb_lt. lia.
Qed.

(** Backtracking over a last element drops it and the slash before it,
    and stops at the leading slash. *)
Lemma backtrackLoop_root l :
  ∀ d,
    Ascii.eqb d "/"%char = false →
    forallb (λ c, negb (Ascii.eqb c "/"%char)) l = true →
    path.backtrackLoop 1 d (l ++ ["/"%char]) = ["/"%char].
Proof.
  induction l as [|c l IH]; intros d Hd Hl; [done|].
  cbn in Hl. apply andb_prop in Hl as [Hc Hl]. apply negb_true_iff in Hc.
  cbn [app path.backtrackLoop]. rewrite Hd.
  replace (1 <? length (c :: l ++ ["/"%char]))%nat with true
    by (symmetry; apply Nat.ltb_lt; cbn; rewrite length_app; cbn; lia).
  by apply IH.
Qed.

Lemma backtrackLoop_element l :
  ∀ d B,
    Ascii.eqb d "/"%char = false →
    forallb (λ c, negb (Ascii.eqb c "/"%char)) l = true →
    (2 ≤ length B)%nat →
    path.backtrackLoop 1 d (l ++ "/"%char :: B) = B.
Proof.
  induction l as [|c l IH]; intros d B Hd Hl HB.
  - cbn [app path.backtrackLoop]. rewrite Hd.
    replace (1 <? length ("/"%char :: B))%nat with true
      by (symmetry; apply Nat.ltb_lt; cbn; lia).
    cbn [andb negb]. destruct B as [|b B]; [done|].
    cbn [path.backtrackLoop]. by rewrite andb_false_r.
  - cbn in Hl. apply andb_prop in Hl as [Hc Hl]. apply negb_true_iff in Hc.
    cbn [app path.backtrackLoop]. rewrite Hd.
    replace (1 <? length (c :: l ++ "/"%char :: B))%nat with true
      by (symmetry; apply Nat.ltb_lt; cbn; rewrite length_app; cbn; lia).
    by apply IH.
Qed.

Lemma backtrack_bufOf segs s :
  Forall properElem segs → properElem s →
  path.backtrack 1 (bufOf (segs ++ [s])) = bufOf segs.
Proof.
  intros Hok Hs. rewrite bufOf_snoc.
  destruct (properElem_chars s Hs) as (c & l & E & Hc & Hl).
  rewrite E. cbn [rev].
  assert (∃ d l', rev l ++ [c] = d :: l' ∧ Ascii.eqb d "/"%char = false
                  ∧ forallb (λ c, negb (Ascii.eqb c "/"%char)) l' = true)
    as (d & l' & -> & Hd & Hl').
  { assert (forallb (λ c, negb (Ascii.eqb c "/"%char)) (rev l ++ [c]) = true)
      as Hall.
    { rewrite forallb_app. apply andb_true_intro. split.
      - apply forallb_forall. intros x Hx%in_rev.
        by apply (proj1 (forallb_forall _ _) Hl).
      - cbn. by rewrite Hc. }
    destruct (rev l ++ [c]) as [|d l'] eqn:E'; [by destruct (rev l)|].
    cbn in Hall. apply andb_prop in Hall as [Hd Hl'].
    exists d, l'. by apply negb_true_iff in Hd. }
  cbn [app path.backtrack]. destruct segs as [|x segs].
  - by apply backtrackLoop_root.
  - apply backtrackLoop_element; [done..|]. by apply bufOf_length.
Qed.

(** An input splits into its first element and what follows it. *)
Lemma split_element r :
  ∃ e t, r = e +:+ t ∧ slashFree e = true ∧ path.elementEnds t = true.
Proof.
  induction r as [|c r (e & t & -> & He & Ht)].
  - by exists "", "".
  - destruct (Ascii.eqb c "/"%char) eqn:Hc.
    + by exists "", (String c (e +:+ t)).
    + exists (String c e), t. split_and!; [done| |done].
      unfold slashFree in *. cbn. by rewrite Hc.
Qed.

Lemma length_string_app (s t : string) :
  String.length (s +:+ t) = (String.length s + String.length t)%nat.
Proof.
  induction s as [|c s IH]; [done|].
  rewrite string_app_cons. cbn. by rewrite IH.
Qed.

(** The loop of [Clean] on a rooted path keeps the buffer a clean path. *)
Lemma cleanLoop_rooted_clean n :
  ∀ s segs,
    (String.length s ≤ n)%nat → Forall properElem segs →
    ∃ segs', Forall properElem segs'
             ∧ path.cleanLoop true s (bufOf segs) 1 = bufOf segs'.
Proof.
  induction n as [|n IH]; intros [|c r] segs Hlen Hok;
    try (by exists segs); [cbn in Hlen; lia|].
  cbn [String.length] in Hlen.
  rewrite path_cleanLoop_cons.
  destruct (Ascii.eqb c "/"%char) eqn:Hslash; [apply IH; [lia|done]|].
  destruct (Ascii.eqb c "."%char && path.elementEnds r) eqn:Hdot;
    [apply IH; [lia|done]|].
  destruct (path.isDotDot c r) eqn:Hdd.
  - destruct r as [|c1 r2]; [done|]. cbn [String.length] in Hlen.
    cbn zeta. rewrite bufOf_length_nil by done. cbn [negb].
    case_bool_decide as E; cbn [negb].
    + apply IH; [lia|done].
    + destruct segs as [|x segs _] using rev_ind; [done|].
      apply Forall_app in Hok as [Hok [Hx _]%Forall_cons].
      rewrite backtrack_bufOf by done. apply IH; [lia|done].
  - destruct (split_element r) as (e & t & -> & He & Ht).
    rewrite path_copyElement_element by done.
    assert (properElem (String c e)) as Helem.
    { split_and!; [done| | |].
      - unfold slashFree in *. cbn. by rewrite Hslash.
      - intros [= -> ->]. rewrite string_app_nil_l in Hdot.
        by rewrite Ht in Hdot.
      - intros [= -> ->]. rewrite string_app_cons, string_app_nil_l in Hdd.
        cbn [path.isDotDot] in Hdd. by rewrite Ht in Hdd. }
    destruct (IH t (segs ++ [String c e])) as (segs' & Hok' & E).
    + rewrite length_string_app in Hlen. lia.
    + apply Forall_app. by split; [|constructor].
    + exists segs'. split; [done|]. rewrite <- E. f_equal.
      rewrite bufOf_snoc. cbn [chars rev]. rewrite <- app_assoc. cbn [app].
      do 2 f_equal. unfold path.needSlash. cbn [andb negb orb].
      rewrite orb_false_r. destruct segs as [|x segs]; [done|].
      pose proof (bufOf_length (x :: segs) Hok ltac:(done)).
      replace (length (bufOf (x :: segs)) =? 1)%nat with false; [done|].
      symmetry. apply Nat.eqb_neq. lia.
Qed.

(** [Clean] maps every rooted path to the clean path of some elements. *)
Lemma path_Clean_rooted r :
  ∃ segs, Forall properElem segs ∧ path.Clean (String "/" r) = urlOf segs.
Proof.
  destruct (cleanLoop_rooted_clean (String.length r) r [] (le_n _)
              (Forall_nil_2 _)) as (segs & Hok & E).
  exists segs. split; [done|].
  unfold path.Clean. cbn [Ascii.eqb Bool.eqb]. rewrite bufOf_nil in E.
  rewrite E. unfold bufOf.
  destruct (rev (chars (urlOf segs))) eqn:E'.
  - apply (f_equal (@length _)) in E'. rewrite length_rev in E'.
    unfold urlOf in E'. rewrite chars_app in E'. discriminate E'.
  - by rewrite <- E', rev_involutive, string_of_chars.
Qed.

Lemma normalize_rooted p :
  ∃ r, normalize p = path.Clean (String "/" r)
       ∧ (if path.IsAbs p then p else "/" +:+ p) = String "/" r.
Proof.
  unfold normalize. destruct p as [|c p]; [by exists ""|].
  cbn [path.IsAbs]. destruct (Ascii.eqb c "/"%char) eqn:Hc; cbn [negb].
  - apply Ascii.eqb_eq in Hc as ->. by exists p.
  - by exists (String c p).
Qed.

(** * The claims *)

(** ** The compression decision *)

(** C1, on the code: for the 1500 bytes of [/assets/app.js], whose
    compressed form has 1528 bytes, the packet counts are 1 and 1 and the
    content type is not one of the compressed media types; the claim asks
    for a clear flag, and the build sets it. *)
Theorem C1_flag_set_without_packet_saving :
  let bs := noise 1500 1 in
  let gbs := gzip.compress bs in
  let e := siteEntry ["assets"; "app.js"] bs in
  NewHandler mime.TypeByExtension gzip.stored "dist" site
  = (Some siteHandler, None)
  ∧ cache siteHandler !! "/assets/app.js" = Some e
  ∧ contentTypeIsAlreadyCompressed (contentType e) = false
  ∧ plainPayload e = bs ∧ len bs = 1500%Z
  ∧ gzip.stored bs = GzipBytes gbs ∧ len gbs = 1528%Z
  ∧ (Z.quot (len bs) tcpPacketDataSize
       >? Z.quot (len gbs) tcpPacketDataSize)%Z = false
  ∧ shouldServeCompressed e = true
  ∧ compressedPayload e = Some gbs.
Proof.
  intros bs gbs e.
  assert (shouldServeCompressed e = true) as Hflag
    by (vm_compute; reflexivity).
  split_and!.
  - apply site_built.
  - apply (site_lookup ["assets"; "app.js"] bs). vm_compute. reflexivity.
  - vm_compute. reflexivity.
  - apply plainPayload_fileEntry.
  - vm_compute. reflexivity.
  - reflexivity.
  - vm_compute. reflexivity.
  - vm_compute. reflexivity.
  - exact Hflag.
  - unfold e, siteEntry. rewrite compressedPayload_fileEntry.
    fold (siteEntry ["assets"; "app.js"] bs). fold e. by rewrite Hflag.
Qed.

(** C2: in a built cache the flag of an entry whose content type is not
    one of the compressed media types is set exactly when the plain
    payload has at least 1460 bytes, whatever the compressor produced: the
    comparison divides the initial [-1] of the [compressedSize] field,
    which gives 0. *)
Theorem C2_flag_iff_plain_size T gz dir root h key e :
  NewHandler T gz dir root = (Some h, None) →
  cache h !! key = Some e →
  contentTypeIsAlreadyCompressed (contentType e) = false →
  (shouldServeCompressed e = true ↔ (1460 ≤ len (plainPayload e))%Z)
  ∧ identitySize e = len (plainPayload e)
  ∧ (∀ u f bs gbs,
       shouldServeCompressed (fileEntry T u f bs gbs)
       = (Z.quot (len bs) tcpPacketDataSize
            >? Z.quot (-1) tcpPacketDataSize)%Z
         && negb (contentTypeIsAlreadyCompressed (T (filepath.Ext f))))
  ∧ Z.quot (-1) tcpPacketDataSize = 0%Z.
Proof.
  intros Hb He Hct.
  destruct (cache_entry_inv T gz dir root h key e Hb He)
    as (segs & bs & _ & _ & _ & ->).
  rewrite fileEntry_contentType in Hct.
  rewrite plainPayload_fileEntry, fileEntry_shouldServeCompressed,
    fileEntry_identitySize, Hct, andb_true_r, bool_decide_eq_true.
  repeat split; try done.
  intros u f bs' gbs.
  by rewrite fileEntry_shouldServeCompressed, packets_gt_minus_one.
Qed.

Lemma C2_flag_iff_plain_size_witness :
  let e := siteEntry ["assets"; "app.js"] (noise 1500 1) in
  NewHandler mime.TypeByExtension gzip.stored "dist" site
  = (Some siteHandler, None)
  ∧ cache siteHandler !! "/assets/app.js" = Some e
  ∧ contentTypeIsAlreadyCompressed (contentType e) = false
  ∧ (shouldServeCompressed e = true ↔ (1460 ≤ len (plainPayload e))%Z).
Proof.
  intros e.
  assert (cache siteHandler !! "/assets/app.js" = Some e) as He.
  { apply (site_lookup ["assets"; "app.js"]). vm_compute. reflexivity. }
  assert (contentTypeIsAlreadyCompressed (contentType e) = false) as Hct.
  { vm_compute. reflexivity. }
  split_and!; [exact site_built|exact He|exact Hct|].
  apply (C2_flag_iff_plain_size _ _ _ _ _ _ _ site_built He Hct).
Defined.

(** ** Construction *)

(** C3: [NewHandler] returns a handler exactly when the walk succeeds and
    ["/index.html"] is among the URL paths of its entries; the handler
    then holds the map filled from these entries.  When the walk succeeds
    without that path, and when the walk fails, [NewHandler] returns an
    error and no handler. *)
Theorem C3_handler_iff_index_cached T gz dir root :
  (∀ h,
     NewHandler T gz dir root = (Some h, None)
     ↔ ∃ entries,
         appendDirEntries T gz [] "/" dir root = (entries, None)
         ∧ "/index.html" ∈ urlpath <$> entries
         ∧ h = {| cache := fillCache entries |})
  ∧ (∀ entries,
       appendDirEntries T gz [] "/" dir root = (entries, None) →
       "/index.html" ∉ urlpath <$> entries →
       NewHandler T gz dir root = (None, Some ErrRootNotFound))
  ∧ (∀ entries err,
       appendDirEntries T gz [] "/" dir root = (entries, Some err) →
       NewHandler T gz dir root = (None, Some err))
  ∧ (∀ h, NewHandler T gz dir root = (Some h, None) →
          is_Some (cache h !! defaultWebpath)).
Proof.
  rewrite NewHandler_unfold.
  destruct (appendDirEntries T gz [] "/" dir root) as [entries [err|]].
  - split_and!.
    + intros h. split; [done|]. by intros (? & [=] & _).
    + by intros ? [=].
    + by intros ? ? [= _ ->].
    + done.
  - destruct (fillCache entries !! "/index.html") as [e|] eqn:He.
    + assert ("/index.html" ∈ urlpath <$> entries) as Hin.
      { destruct (decide ("/index.html" ∈ urlpath <$> entries)); [done|].
        apply fillCache_lookup_None in n. congruence. }
      split_and!.
      * intros h. split.
        -- intros [= <-]. by exists entries.
        -- by intros (? & [= <-] & _ & ->).
      * by intros ? [= <-] Hnot.
      * by intros ? ? [=].
      * intros h [= <-]. cbn [cache]. unfold defaultWebpath. by rewrite He.
    + apply fillCache_lookup_None in He. split_and!.
      * intros h. split; [done|]. by intros (? & [= <-] & ? & _).
      * done.
      * by intros ? ? [=].
      * done.
Qed.

Lemma C3_handler_iff_index_cached_witness :
  NewHandler mime.TypeByExtension gzip.stored "dist" site
  = (Some siteHandler, None)
  ∧ is_Some (cache siteHandler !! "/index.html")
  ∧ ("/index.html"
     ∉ urlpath <$> entriesOf mime.TypeByExtension gzip.stored "/" "dist"
                     siteWithoutIndex)
  ∧ NewHandler mime.TypeByExtension gzip.stored "dist" siteWithoutIndex
    = (None, Some ErrRootNotFound).
Proof.
  pose proof (C3_handler_iff_index_cached mime.TypeByExtension gzip.stored
                "dist" site) as (_ & _ & _ & Hsome).
  pose proof (C3_handler_iff_index_cached mime.TypeByExtension gzip.stored
                "dist" siteWithoutIndex) as (_ & Hnone & _).
  assert ("/index.html"
          ∉ urlpath <$> entriesOf mime.TypeByExtension gzip.stored "/" "dist"
                          siteWithoutIndex) as Hnot.
  { apply (bool_decide_unpack _). vm_compute. exact I. }
  split_and!.
  - exact site_built.
  - exact (Hsome _ site_built).
  - exact Hnot.
  - exact (Hnone _ siteWithoutIndex_walk Hnot).
Defined.

(** ** Serving a request *)

(** C4: when the cleaned path of a request is not a key of a built cache,
    the lookup substitutes ["/index.html"], finds its entry, and the
    response to a fresh writer has status 200, the content type of that
    entry and, on a working connection, one of its payloads as the
    body. *)
Theorem C4_unknown_path_serves_index T gz dir root h r connOk :
  NewHandler T gz dir root = (Some h, None) →
  cache h !! normalize (URL_Path r) = None →
  ∃ e,
    cache h !! "/index.html" = Some e
    ∧ lookup h (normalize (URL_Path r)) = ("/index.html", Some e)
    ∧ status (ServeHTTP h (fresh connOk) r) = Some StatusOK
    ∧ sentHeader (ServeHTTP h (fresh connOk) r) !! "Content-Type"
      = Some [contentType e]
    ∧ rwBody (ServeHTTP h (fresh true) r)
      = if shouldServeCompressed e && acceptsGzip r
        then default [] (compressedPayload e)
        else plainPayload e.
Proof.
  intros Hb Hmiss.
  destruct (lookup_built T gz dir root h (normalize (URL_Path r)) Hb)
    as (key & e & Hl).
  pose proof (lookup_Some_inv _ _ _ _ Hl) as [He [->| [-> _]]];
    [congruence|].
  exists e. split_and!; [done..| | |].
  - rewrite (ServeHTTP_built _ _ _ _ _ _ _ _ connOk Hb Hl).
    by destruct (_ && _).
  - rewrite (ServeHTTP_built _ _ _ _ _ _ _ _ connOk Hb Hl).
    destruct (_ && _); unfold sentHeader; cbn [rwSent];
      [apply gzipHeader_lookup|apply plainHeader_lookup].
  - rewrite (ServeHTTP_built _ _ _ _ _ _ _ _ true Hb Hl).
    by destruct (_ && _).
Qed.

Lemma C4_unknown_path_serves_index_witness :
  NewHandler mime.TypeByExtension gzip.stored "dist" site
  = (Some siteHandler, None)
  ∧ cache siteHandler !! normalize "/does/not/exist" = None
  ∧ ∃ e,
      cache siteHandler !! "/index.html" = Some e
      ∧ lookup siteHandler (normalize "/does/not/exist")
        = ("/index.html", Some e)
      ∧ status (ServeHTTP siteHandler (fresh true)
                  (request "/does/not/exist" []))
        = Some StatusOK.
Proof.
  assert (cache siteHandler !! normalize "/does/not/exist" = None) as Hmiss
    by (vm_compute; reflexivity).
  split_and!; [exact site_built|exact Hmiss|].
  destruct (C4_unknown_path_serves_index _ _ _ _ _
              (request "/does/not/exist" []) true site_built Hmiss)
    as (e & He & Hl & Hst & _).
  exists e. auto.
Defined.

(** C5: for the entry a request resolves to in a built cache, the
    compressed handler exists exactly when the flag is set, and the
    compressed form is served exactly when the flag is set and the
    [Accept-Encoding] value contains ["gzip"], byte for byte.  The entry
    is the one of a regular file of the tree, on a published path that
    joins to the key; with [bs] the bytes of that file and [gbs] what the
    compressor returned for them, the response then has
    [Content-Encoding: gzip] and [gbs] as its body, and otherwise no
    [Content-Encoding] and [bs] as its body (no body on a connection that
    takes no byte).  The value contains ["gzip"] when it is some bytes,
    then these four, then some bytes; ["GZIP"] does not contain them. *)
Theorem C5_compressed_iff_flag_and_accepted T gz dir root h r key e connOk :
  NewHandler T gz dir root = (Some h, None) →
  lookup h (normalize (URL_Path r)) = (key, Some e) →
  let wr := ServeHTTP h (fresh connOk) r in
  (is_Some (gzipHandler e) ↔ shouldServeCompressed e = true)
  ∧ status wr = Some StatusOK
  ∧ (∃ segs bs gbs,
       nodeAt root segs (RegularFile bs)
       ∧ Forall (λ s, published s = true) segs
       ∧ key = urlUnder "/" segs
       ∧ gz bs = GzipBytes gbs
       ∧ if shouldServeCompressed e
            && GoStrings.Contains
                 (Header_Get (ReqHeader r) "Accept-Encoding") "gzip"
         then sentHeader wr !! "Content-Encoding" = Some ["gzip"]
              ∧ rwBody wr = (if connOk then gbs else [])
         else sentHeader wr !! "Content-Encoding" = None
              ∧ rwBody wr = (if connOk then bs else []))
  ∧ (GoStrings.Contains (Header_Get (ReqHeader r) "Accept-Encoding") "gzip"
     = true
     ↔ ∃ pre post,
         Header_Get (ReqHeader r) "Accept-Encoding" = pre +:+ "gzip" +:+ post)
  ∧ GoStrings.Contains "GZIP" "gzip" = false.
Proof.
  intros Hb Hl wr. unfold wr.
  rewrite (ServeHTTP_built _ _ _ _ _ _ _ _ connOk Hb Hl).
  fold (acceptsGzip r).
  pose proof (lookup_Some_inv _ _ _ _ Hl) as [He _].
  destruct (cache_entry_inv T gz dir root h key e Hb He)
    as (segs & bs & Hin & Hgz & Hkey & ->).
  apply publishedFiles_sound in Hin as [Hat Hpub].
  rewrite compressedPayload_fileEntry, plainPayload_fileEntry,
    fileEntry_gzipHandler.
  split_and!.
  - destruct (shouldServeCompressed _);
      (split; [by eauto || intros []|by eauto]).
  - by destruct (shouldServeCompressed _), (acceptsGzip r).
  - exists segs, bs, (gzipBytesOf gz bs). split_and!; [done..|].
    destruct (shouldServeCompressed _), (acceptsGzip r);
      unfold sentHeader; cbn [andb rwSent rwBody default];
      (split; [apply gzipHeader_lookup || apply plainHeader_lookup|done]).
  - apply Contains_iff.
  - done.
Qed.

Lemma C5_compressed_iff_flag_and_accepted_witness :
  let r := request "/assets/app.js" ["deflate, gzip"] in
  let e := siteEntry ["assets"; "app.js"] (noise 1500 1) in
  NewHandler mime.TypeByExtension gzip.stored "dist" site
  = (Some siteHandler, None)
  ∧ lookup siteHandler (normalize (URL_Path r)) = ("/assets/app.js", Some e)
  ∧ ∃ segs bs gbs,
      nodeAt site segs (RegularFile bs)
      ∧ "/assets/app.js" = urlUnder "/" segs
      ∧ gzip.stored bs = GzipBytes gbs
      ∧ sentHeader (ServeHTTP siteHandler (fresh true) r)
          !! "Content-Encoding" = Some ["gzip"]
      ∧ rwBody (ServeHTTP siteHandler (fresh true) r) = gbs.
Proof.
  intros r e.
  assert (lookup siteHandler (normalize (URL_Path r))
          = ("/assets/app.js", Some e)) as Hl.
  { apply (site_lookup_request "/assets/app.js" ["assets"; "app.js"]);
      vm_compute; reflexivity. }
  pose proof (C5_compressed_iff_flag_and_accepted _ _ _ _ _ r _ e true
                site_built Hl) as (_ & _ & Hserve & _ & _).
  destruct Hserve as (segs & bs & gbs & Hat & _ & Hkey & Hgz & Hserve).
  replace (shouldServeCompressed e) with true in Hserve
    by (vm_compute; reflexivity).
  replace (GoStrings.Contains (Header_Get (ReqHeader r) "Accept-Encoding")
             "gzip") with true in Hserve by (vm_compute; reflexivity).
  cbn [andb] in Hserve. destruct Hserve as [Hce Hbody].
  split_and!; [exact site_built|exact Hl|].
  exists segs, bs, gbs. split_and!; assumption.
Defined.

(** ** Resolution of a request path *)

(** C6: the path that is looked up is the request path, with a slash put
    in front unless it starts with one, cleaned; it is a slash followed by
    proper elements joined by slashes, none of them [..]; the entry served
    by a built handler is the one under that key or, when that is not a
    key, the one under ["/index.html"]; and ["/../../etc/passwd"] is
    looked up as ["/etc/passwd"].  The lookup reads the map of the handler
    and nothing else: a tree is no argument of [lookup] or [ServeHTTP]. *)
Theorem C6_lookup_stays_in_cache T gz dir root h r :
  NewHandler T gz dir root = (Some h, None) →
  normalize (URL_Path r)
  = path.Clean (if path.IsAbs (URL_Path r) then URL_Path r
                else "/" +:+ URL_Path r)
  ∧ (∃ segs, Forall properElem segs ∧ normalize (URL_Path r) = urlOf segs)
  ∧ (∃ key e,
       lookup h (normalize (URL_Path r)) = (key, Some e)
       ∧ cache h !! key = Some e
       ∧ (key = normalize (URL_Path r)
          ∨ key = "/index.html" ∧ cache h !! normalize (URL_Path r) = None))
  ∧ normalize "/../../etc/passwd" = "/etc/passwd".
Proof.
  intros Hb. split_and!.
  - unfold normalize. by destruct (path.IsAbs (URL_Path r)).
  - destruct (normalize_rooted (URL_Path r)) as (r' & -> & _).
    apply path_Clean_rooted.
  - destruct (lookup_built T gz dir root h (normalize (URL_Path r)) Hb)
      as (key & e & Hl).
    exists key, e. split; [done|]. by apply lookup_Some_inv.
  - reflexivity.
Qed.

Lemma C6_lookup_stays_in_cache_witness :
  NewHandler mime.TypeByExtension gzip.stored "dist" site
  = (Some siteHandler, None)
  ∧ normalize "/../../etc/passwd" = "/etc/passwd"
  ∧ ∃ e,
      lookup siteHandler (normalize "/../../etc/passwd")
      = ("/index.html", Some e)
      ∧ cache siteHandler !! "/index.html" = Some e.
Proof.
  destruct (C6_lookup_stays_in_cache _ _ _ _ _
              (request "/../../etc/passwd" []) site_built)
    as (_ & _ & (key & e & Hl & He & Hkey) & Hclean).
  split_and!; [exact site_built|exact Hclean|].
  assert (cache siteHandler !! normalize "/../../etc/passwd" = None) as Hmiss
    by (vm_compute; reflexivity).
  cbn [URL_Path request] in Hl, Hkey.
  destruct Hkey as [->|[-> _]]; [congruence|].
  exists e. auto.
Defined.

(** ** Published files and cache keys *)

(** C7: for a well-formed tree and a handler built from it, every regular
    file whose path has only published names has an entry under the key
    made of a slash and the names joined by slashes, holding the bytes of
    the file; the slice of the walk has no two entries with the same URL
    path; every key of the cache is the URL path of such a file; and no
    path through a name that starts with a dot or an underscore is a
    key. *)
Theorem C7_one_record_per_published_file T gz dir root h :
  treeOk root = true →
  NewHandler T gz dir root = (Some h, None) →
  (∀ segs bs,
     nodeAt root segs (RegularFile bs) →
     Forall (λ s, published s = true) segs →
     ∃ e, cache h !! urlOf segs = Some e
          ∧ urlpath e = urlOf segs ∧ plainPayload e = bs)
  ∧ (∃ entries,
       appendDirEntries T gz [] "/" dir root = (entries, None)
       ∧ cache h = fillCache entries
       ∧ NoDup (urlpath <$> entries)
       ∧ ∀ segs bs,
           nodeAt root segs (RegularFile bs) →
           Forall (λ s, published s = true) segs →
           urlOf segs ∈ urlpath <$> entries)
  ∧ (∀ key e,
       cache h !! key = Some e →
       ∃ segs bs,
         nodeAt root segs (RegularFile bs)
         ∧ Forall (λ s, published s = true) segs
         ∧ key = urlOf segs ∧ urlpath e = key ∧ plainPayload e = bs)
  ∧ (∀ segs n,
       nodeAt root segs n →
       ¬ Forall (λ s, published s = true) segs →
       cache h !! urlOf segs = None).
Proof.
  intros Hok Hb.
  pose proof (NewHandler_Some_inv T gz dir root h Hb)
    as (Hw & Hwalk & Hc & _).
  assert (∀ segs bs,
            nodeAt root segs (RegularFile bs) →
            Forall (λ s, published s = true) segs →
            (segs, bs) ∈ publishedFiles root) as Hpub.
  { intros segs bs Hat Hp. apply publishedFiles_complete; [done| |done].
    intros ->. inversion Hat; subst. discriminate Hw. }
  assert (∀ key e,
            cache h !! key = Some e →
            ∃ segs bs,
              nodeAt root segs (RegularFile bs)
              ∧ Forall (λ s, published s = true) segs
              ∧ key = urlOf segs ∧ urlpath e = key ∧ plainPayload e = bs)
    as Hkeys.
  { intros key e He.
    destruct (cache_entry_inv T gz dir root h key e Hb He)
      as (segs & bs & Hin & _ & -> & ->).
    pose proof (publishedFiles_plainNames _ _ _ Hok Hin) as Hnames.
    apply publishedFiles_sound in Hin as [Hat Hp].
    exists segs, bs.
    rewrite fileEntry_urlpath, plainPayload_fileEntry.
    split_and!; try done. by apply urlUnder_urlOf. }
  split_and!.
  - intros segs bs Hat Hp.
    rewrite (cache_lookup_published T gz dir root h segs bs Hok Hb)
      by auto.
    eexists. split; [done|].
    by rewrite fileEntry_urlpath, plainPayload_fileEntry.
  - exists (entriesOf T gz "/" dir root).
    split_and!; [done|done|by apply entriesOf_NoDup|].
    intros segs bs Hat Hp.
    rewrite entriesOf_urlpaths_ok by done.
    apply list_elem_of_fmap_2.
    apply list_elem_of_fmap. exists (segs, bs). split; [done|auto].
  - exact Hkeys.
  - intros segs n Hat Hhidden.
    destruct (cache h !! urlOf segs) as [e|] eqn:He; [|done].
    destruct (Hkeys _ _ He) as (segs' & bs & Hat' & Hp & E & _).
    destruct Hhidden.
    replace segs with segs'; [done|]. symmetry.
    apply urlOf_inj; [..|done].
    + by destruct (treeOk_nodeAt root _ _ Hat Hok).
    + by destruct (treeOk_nodeAt root _ _ Hat' Hok).
Qed.

Lemma C7_one_record_per_published_file_witness :
  treeOk site = true
  ∧ NewHandler mime.TypeByExtension gzip.stored "dist" site
    = (Some siteHandler, None)
  ∧ nodeAt site ["assets"; "logo.png"] (RegularFile (noise 3000 7))
  ∧ (∃ e, cache siteHandler !! "/assets/logo.png" = Some e
          ∧ urlpath e = "/assets/logo.png"
          ∧ plainPayload e = noise 3000 7)
  ∧ nodeAt site ["_drafts"; "todo.html"] (RegularFile (bytesOf "<p>"))
  ∧ cache siteHandler !! "/_drafts/todo.html" = None.
Proof.
  destruct (C7_one_record_per_published_file _ _ _ _ _
              site_treeOk site_built) as (Hfile & _ & _ & Hhidden).
  assert (nodeAt site ["assets"; "logo.png"] (RegularFile (noise 3000 7)))
    as Hlogo.
  { econstructor; [do 3 apply list_elem_of_further; apply list_elem_of_here|].
    econstructor; [apply list_elem_of_further, list_elem_of_here|].
    constructor. }
  assert (nodeAt site ["_drafts"; "todo.html"] (RegularFile (bytesOf "<p>")))
    as Hdraft.
  { econstructor; [do 2 apply list_elem_of_further; apply list_elem_of_here|].
    econstructor; [apply list_elem_of_here|constructor]. }
  split_and!; [exact site_treeOk|exact site_built|exact Hlogo| |exact Hdraft|].
  - apply (Hfile ["assets"; "logo.png"]); [exact Hlogo|].
    by repeat constructor.
  - apply (Hhidden ["_drafts"; "todo.html"] _ Hdraft).
    intros [H _]%Forall_cons. discriminate H.
Defined.

(** ** Failures of the walk *)

(** C8: a walk that returns an error returns the [nil] slice, never the
    entries made so far; the walk returns an error exactly when it reaches
    a failing step, and [NewHandler] then returns that error and no
    handler; and the loop over a directory stops at the first entry that
    fails: its result does not depend on the entries after it. *)
Theorem C8_failure_aborts_build T gz dir root :
  (∀ slice u f d s err,
     appendDirEntries T gz slice u f d = (s, Some err) → s = [])
  ∧ (∀ slice u f n s err,
       appendFileEntry T gz slice u f n = (s, Some err) → s = [])
  ∧ ((∃ segs n, failsAt gz root segs n)
     ↔ ∃ err, appendDirEntries T gz [] "/" dir root = ([], Some err)
              ∧ NewHandler T gz dir root = (None, Some err))
  ∧ (∀ u f es1 name n es2 slice s1 err,
       rangeDirEntries T gz u f es1 slice = (s1, None) →
       published name = true →
       (if IsDir n
        then appendDirEntries T gz s1 (path.Join [u; name])
               (filepath.Join [f; name]) n
        else appendFileEntry T gz s1 (path.Join [u; name])
               (filepath.Join [f; name]) n) = ([], Some err) →
       rangeDirEntries T gz u f (es1 ++ (name, n) :: es2) slice
       = ([], Some err)).
Proof.
  split_and!.
  - intros slice u f d. apply appendDirEntries_error.
  - intros slice u f n. apply appendFileEntry_error.
  - split.
    + intros (segs & n & Hfail). apply failsAt_not_walkable in Hfail.
      destruct (appendDirEntries_not_walkable T gz root [] "/" dir Hfail)
        as [err Herr].
      exists err. split; [done|]. by rewrite NewHandler_unfold, Herr.
    + intros (err & Herr & _). apply not_walkable_failsAt.
      destruct (walkable gz root) eqn:Hw; [|done].
      by rewrite appendDirEntries_walkable in Herr.
  - intros u f es1 name n es2 slice s1 err H1 Hp Hn.
    rewrite (rangeDirEntries_app T gz u f es1 _ slice s1 H1).
    destruct (IsDir n) eqn:Hd.
    + rewrite rangeDirEntries_dir by done. by rewrite Hn.
    + rewrite rangeDirEntries_file by done. by rewrite Hn.
Qed.

Lemma C8_failure_aborts_build_witness :
  failsAt gzip.stored siteWithUnreadable ["assets"; "broken.js"] Unreadable
  ∧ appendDirEntries mime.TypeByExtension gzip.stored [] "/" "dist"
      siteWithUnreadable
    = ([], Some (ErrRead "dist/assets/broken.js"))
  ∧ NewHandler mime.TypeByExtension gzip.stored "dist" siteWithUnreadable
    = (None, Some (ErrRead "dist/assets/broken.js")).
Proof.
  assert (failsAt gzip.stored siteWithUnreadable ["assets"; "broken.js"]
            Unreadable) as Hfail.
  { split_and!; [|by repeat constructor|done].
    econstructor; [apply list_elem_of_further, list_elem_of_here|].
    econstructor; [apply list_elem_of_here|constructor]. }
  destruct (C8_failure_aborts_build mime.TypeByExtension gzip.stored "dist"
              siteWithUnreadable) as (_ & _ & [Herr _] & _).
  destruct (Herr (ex_intro _ _ (ex_intro _ _ Hfail))) as (err & Hw & Hb).
  assert (err = ErrRead "dist/assets/broken.js") as ->.
  { assert (appendDirEntries mime.TypeByExtension gzip.stored [] "/" "dist"
              siteWithUnreadable
            = ([], Some (ErrRead "dist/assets/broken.js"))) as E
      by (vm_compute; reflexivity).
    congruence. }
  auto.
Defined.

(** ** The [Content-Type] header *)

(** C9, as stated, fails: [/LICENSE] has no extension, its content type
    is empty, and the response to a request for it carries a
    [Content-Type] header all the same, with the empty value. *)
Lemma C9_content_type_only_if_known_counterexample :
  lookup siteHandler (normalize "/LICENSE")
  = ("/LICENSE", Some (siteEntry ["LICENSE"] (bytesOf "MIT")))
  ∧ contentType (siteEntry ["LICENSE"] (bytesOf "MIT")) = ""
  ∧ sentHeader (ServeHTTP siteHandler (fresh true) (request "/LICENSE" []))
      !! "Content-Type" = Some [""]
  ∧ sentHeader (ServeHTTP siteHandler (fresh true) (request "/LICENSE" []))
      !! "Content-Type" ≠ None.
Proof.
  assert (sentHeader
            (ServeHTTP siteHandler (fresh true) (request "/LICENSE" []))
            !! "Content-Type" = Some [""]) as Hct
    by (vm_compute; reflexivity).
  split_and!.
  - apply (site_lookup_request "/LICENSE" ["LICENSE"]);
      vm_compute; reflexivity.
  - vm_compute. reflexivity.
  - exact Hct.
  - by rewrite Hct.
Qed.

(** C9, amended: the response for the entry a request resolves to in a
    built cache always carries a [Content-Type] header whose value is the
    content type of the entry, the empty string when the extension of the
    file is not registered; the file is served with status 200 and, on a
    working connection, its payload. *)
Theorem C9_content_type_always_added T gz dir root h r key e connOk :
  NewHandler T gz dir root = (Some h, None) →
  lookup h (normalize (URL_Path r)) = (key, Some e) →
  let wr := ServeHTTP h (fresh connOk) r in
  sentHeader wr !! "Content-Type" = Some [contentType e]
  ∧ status wr = Some StatusOK
  ∧ (connOk = true →
     rwBody wr = plainPayload e ∨ Some (rwBody wr) = compressedPayload e)
  ∧ (∀ bs, sentHeader (identityServe (contentType e) bs (fresh connOk))
             !! "Content-Type" = Some [contentType e])
  ∧ (∀ gbs, sentHeader (gzipServe (contentType e) gbs (fresh connOk))
              !! "Content-Type" = Some [contentType e]).
Proof.
  intros Hb Hl wr. unfold wr.
  rewrite (ServeHTTP_built _ _ _ _ _ _ _ _ connOk Hb Hl).
  pose proof (lookup_Some_inv _ _ _ _ Hl) as [He _].
  destruct (cache_entry_inv T gz dir root h key e Hb He)
    as (segs & bs & _ & _ & _ & ->).
  rewrite compressedPayload_fileEntry.
  split_and!.
  - destruct (_ && _); unfold sentHeader; cbn [rwSent];
      [apply gzipHeader_lookup|apply plainHeader_lookup].
  - by destruct (_ && _).
  - intros ->. destruct (shouldServeCompressed _); cbn [andb rwBody default];
      [destruct (acceptsGzip r)|]; cbn [rwBody]; auto.
  - intros bs'. rewrite identityServe_fresh. apply plainHeader_lookup.
  - intros gbs. rewrite gzipServe_fresh. apply gzipHeader_lookup.
Qed.

Lemma C9_content_type_always_added_witness :
  NewHandler mime.TypeByExtension gzip.stored "dist" site
  = (Some siteHandler, None)
  ∧ lookup siteHandler (normalize "/LICENSE")
    = ("/LICENSE", Some (siteEntry ["LICENSE"] (bytesOf "MIT")))
  ∧ sentHeader (ServeHTTP siteHandler (fresh true) (request "/LICENSE" []))
      !! "Content-Type"
    = Some [contentType (siteEntry ["LICENSE"] (bytesOf "MIT"))].
Proof.
  assert (lookup siteHandler (normalize "/LICENSE")
          = ("/LICENSE", Some (siteEntry ["LICENSE"] (bytesOf "MIT"))))
    as Hl.
  { apply (site_lookup_request "/LICENSE" ["LICENSE"]);
      vm_compute; reflexivity. }
  split_and!; [exact site_built|exact Hl|].
  apply (C9_content_type_always_added _ _ _ _ _ (request "/LICENSE" [])
           _ _ true site_built Hl).
Defined.

(** ** The round trip *)

(** C10: with a reader that inverts the compressor, reading the compressed
    payload of an entry of a built cache whose flag is set gives its plain
    payload; the compressed payload is what the compressor made of the
    plain payload. *)
Theorem C10_compressed_payload_round_trip T gz gunzip dir root h key e :
  (∀ bs gbs, gz bs = GzipBytes gbs → gunzip gbs = Some bs) →
  NewHandler T gz dir root = (Some h, None) →
  cache h !! key = Some e →
  shouldServeCompressed e = true →
  ∃ gbs,
    compressedPayload e = Some gbs
    ∧ gz (plainPayload e) = GzipBytes gbs
    ∧ gunzip gbs = Some (plainPayload e)
    ∧ compressedSize e = len gbs.
Proof.
  intros Hrt Hb He Hflag.
  destruct (cache_entry_inv T gz dir root h key e Hb He)
    as (segs & bs & _ & Hgz & _ & ->).
  exists (gzipBytesOf gz bs).
  rewrite compressedPayload_fileEntry, plainPayload_fileEntry,
    fileEntry_compressedSize, Hflag.
  split_and!; [done..|by apply Hrt|done].
Qed.

Lemma C10_compressed_payload_round_trip_witness :
  (∀ bs gbs, gzip.stored bs = GzipBytes gbs → gzip.decompress gbs = Some bs)
  ∧ NewHandler mime.TypeByExtension gzip.stored "dist" site
    = (Some siteHandler, None)
  ∧ cache siteHandler !! "/style.css"
    = Some (siteEntry ["style.css"] (noise 2000 3))
  ∧ shouldServeCompressed (siteEntry ["style.css"] (noise 2000 3)) = true
  ∧ ∃ gbs,
      compressedPayload (siteEntry ["style.css"] (noise 2000 3)) = Some gbs
      ∧ gzip.decompress gbs
        = Some (plainPayload (siteEntry ["style.css"] (noise 2000 3))).
Proof.
  assert (cache siteHandler !! "/style.css"
          = Some (siteEntry ["style.css"] (noise 2000 3))) as He.
  { apply (site_lookup ["style.css"]). vm_compute. reflexivity. }
  assert (shouldServeCompressed (siteEntry ["style.css"] (noise 2000 3))
          = true) as Hflag by (vm_compute; reflexivity).
  split_and!;
    [exact gzip_stored_roundtrip|exact site_built|exact He|exact Hflag|].
  destruct (C10_compressed_payload_round_trip _ _ _ _ _ _ _ _
              gzip_stored_roundtrip site_built He Hflag)
    as (gbs & Hc & _ & Hrt & _).
  exists gbs. auto.
Defined.

(** * Further properties of the code *)

(** ** The two closures on any writer *)

(** After [Copy] and the [WriteHeader] of either branch. *)
Lemma Copy_then_WriteHeader bs wr :
  let '(wr', err) := Copy bs wr in
  let wr'' :=
    if err then WriteHeader StatusInternalServerError wr'
    else WriteHeader StatusOK wr' in
  rwHeader wr'' = rwHeader wr
  ∧ rwSent wr'' = headAfter wr bs (rwHeader wr)
  ∧ rwBody wr'' = rwBody wr ++ takenOf wr bs.
Proof.
  destruct wr as [hd sent body ok fault].
  unfold Copy, Write, WriteHeader, headAfter, takenOf, detached.
  destruct bs as [|b bs], sent as [s|], ok, fault as [n| |];
    cbn; by rewrite ?take_nil, ?app_nil_r.
Qed.

Lemma Header_Add_lookup (h : Header) key value k :
  Header_Add h key value !! k
  = if decide (key = k) then Some (default [] (h !! key) ++ [value])
    else h !! k.
Proof. unfold Header_Add. apply lookup_insert. Qed.

Lemma identityServe_any ct bs wr :
  let w := identityServe ct bs wr in
  rwHeader w = Header_Add (rwHeader wr) "Content-Type" ct
  ∧ rwSent w = headAfter wr bs (rwHeader w)
  ∧ rwBody w = rwBody wr ++ takenOf wr bs.
Proof.
  pose proof (Copy_then_WriteHeader bs (AddHeader "Content-Type" ct wr))
    as H.
  unfold identityServe. destruct (Copy bs _) as [w' err].
  destruct H as (Hh & Hs & Hb).
  by rewrite Hh, Hs, Hb.
Qed.

Lemma gzipServe_any ct gbs wr :
  let w := gzipServe ct gbs wr in
  rwHeader w
  = Header_Add (Header_Add (rwHeader wr) "Content-Type" ct)
      "Content-Encoding" "gzip"
  ∧ rwSent w = headAfter wr gbs (rwHeader w)
  ∧ rwBody w = rwBody wr ++ takenOf wr gbs.
Proof.
  pose proof (Copy_then_WriteHeader gbs
                (AddHeader "Content-Encoding" "gzip"
                   (AddHeader "Content-Type" ct wr))) as H.
  unfold gzipServe. destruct (Copy gbs _) as [w' err].
  destruct H as (Hh & Hs & Hb).
  by rewrite Hh, Hs, Hb.
Qed.

(** Status 500 after a closure is an earlier status 500 or the error
    branch of the closure, on a writer that refused the payload. *)
Lemma headAfter_500 wr p hd w :
  rwSent w = headAfter wr p hd →
  status w = Some StatusInternalServerError
  ↔ status wr = Some StatusInternalServerError
    ∨ (status wr = None ∧ p ≠ [] ∧ rwConnOk wr = false
       ∧ rwFault wr = RefusesWrite).
Proof.
  unfold status, headAfter, detached. intros ->.
  destruct wr as [hd' [[c hs]|] body ok fault]; cbn.
  - split; [by left|]. by intros [?|[[=] _]].
  - destruct p as [|b p], ok, fault as [n| |]; cbn;
      (split; [try done|intros [[=]|(_ & ? & ? & ?)]; done]).
    intros _. by right.
Qed.

(** X3: on a writer in any state, the plain closure appends the content
    type to the values the [Content-Type] header already has and touches
    no other header, and the writer gets the bytes it takes of the
    payload: all of them when it takes the write, the first [taken] when
    the connection breaks, none when it refuses the write or is detached.
    A head committed earlier stays as it is.  When none was committed, a
    detached writer still has none; a writer that refuses the write of a
    payload that is not empty gets status 500 from the error branch of
    the closure, with no byte of body; every other writer gets status
    200, from the write, which commits the head before it can break, or
    from [WriteHeader] when the payload is empty.  The compressed closure
    does the same and appends ["gzip"] to the values of
    [Content-Encoding]. *)
Theorem X3_closures_on_any_writer ct bs gbs wr :
  let wi := identityServe ct bs wr in
  let wg := gzipServe ct gbs wr in
  (∀ k, rwHeader wi !! k
        = if decide ("Content-Type" = k)
          then Some (default [] (rwHeader wr !! "Content-Type") ++ [ct])
          else rwHeader wr !! k)
  ∧ (∀ k, rwHeader wg !! k
          = if decide ("Content-Encoding" = k)
            then Some (default [] (rwHeader wr !! "Content-Encoding")
                         ++ ["gzip"])
            else if decide ("Content-Type" = k)
            then Some (default [] (rwHeader wr !! "Content-Type") ++ [ct])
            else rwHeader wr !! k)
  ∧ rwBody wi = rwBody wr ++ takenOf wr bs
  ∧ rwBody wg = rwBody wr ++ takenOf wr gbs
  ∧ rwSent wi = headAfter wr bs (rwHeader wi)
  ∧ rwSent wg = headAfter wr gbs (rwHeader wg)
  ∧ (status wi = Some StatusInternalServerError
     ↔ status wr = Some StatusInternalServerError
       ∨ (status wr = None ∧ bs ≠ [] ∧ rwConnOk wr = false
          ∧ rwFault wr = RefusesWrite))
  ∧ (status wg = Some StatusInternalServerError
     ↔ status wr = Some StatusInternalServerError
       ∨ (status wr = None ∧ gbs ≠ [] ∧ rwConnOk wr = false
          ∧ rwFault wr = RefusesWrite))
  ∧ (rwSent wr = None → rwConnOk wr = false →
     rwFault wr = RefusesWrite →
     rwSent wi = Some (if decide (bs = []) then StatusOK
                       else StatusInternalServerError, rwHeader wi)
     ∧ rwBody wi = rwBody wr)
  ∧ (rwSent wr = None → rwConnOk wr = false →
     ∀ taken, rwFault wr = BreaksAfterHead taken →
     rwSent wi = Some (StatusOK, rwHeader wi)
     ∧ rwBody wi = rwBody wr ++ take taken bs)
  ∧ (rwConnOk wr = false → rwFault wr = Detached →
     rwSent wi = rwSent wr ∧ rwBody wi = rwBody wr)
  ∧ (rwConnOk wr = true →
     rwSent wi = Some (default (StatusOK, rwHeader wi) (rwSent wr))
     ∧ rwBody wi = rwBody wr ++ bs).
Proof.
  intros wi wg.
  destruct (identityServe_any ct bs wr) as (Hih & His & Hib).
  destruct (gzipServe_any ct gbs wr) as (Hgh & Hgs & Hgb).
  fold wi in Hih, His, Hib. fold wg in Hgh, Hgs, Hgb.
  split_and!; try done.
  - intros k. rewrite Hih. apply Header_Add_lookup.
  - intros k. rewrite Hgh, Header_Add_lookup.
    destruct (decide ("Content-Encoding" = k)) as [<-|?].
    + by rewrite Header_Add_lookup.
    + apply Header_Add_lookup.
  - by eapply headAfter_500.
  - by eapply headAfter_500.
  - intros Hs Hok Hf. rewrite His, Hib.
    unfold headAfter, takenOf, detached. rewrite Hs, Hok, Hf. cbn.
    rewrite app_nil_r. by destruct bs.
  - intros Hs Hok taken Hf. rewrite His, Hib.
    unfold headAfter, takenOf, detached. rewrite Hs, Hok, Hf. cbn.
    by destruct bs.
  - intros Hok Hf. rewrite His, Hib.
    unfold headAfter, takenOf, detached. rewrite Hok, Hf. cbn.
    rewrite app_nil_r. by destruct (rwSent wr).
  - intros Hok. rewrite His, Hib.
    unfold headAfter, takenOf, detached. rewrite Hok. cbn.
    split; [|done]. destruct (rwSent wr); [done|].
    by destruct bs, (rwFault wr).
Qed.

(** ** The response of a built handler on any writer *)

Lemma ServeHTTP_built_any T gz dir root h wr r key e :
  NewHandler T gz dir root = (Some h, None) →
  lookup h (normalize (URL_Path r)) = (key, Some e) →
  ServeHTTP h wr r
  = if shouldServeCompressed e && acceptsGzip r
    then gzipServe (contentType e) (default [] (compressedPayload e)) wr
    else identityServe (contentType e) (plainPayload e) wr.
Proof.
  intros Hb Hl. rewrite ServeHTTP_unfold, Hl.
  apply lookup_Some_inv in Hl as [He _].
  destruct (cache_entry_inv T gz dir root h key e Hb He)
    as (segs & bs & _ & _ & _ & ->).
  rewrite compressedPayload_fileEntry, plainPayload_fileEntry,
    fileEntry_gzipHandler, fileEntry_identityHandler, fileEntry_contentType.
  fold (acceptsGzip r).
  by destruct (shouldServeCompressed _), (acceptsGzip r).
Qed.

(** X1: for the entry a request resolves to in a built cache,
    [cacheEntry.ServeHTTP] does not call a [nil] handler and writes the
    response [handler.ServeHTTP] writes, on every writer. *)
Theorem X1_entry_ServeHTTP_agrees T gz dir root h wr r key e :
  NewHandler T gz dir root = (Some h, None) →
  lookup h (normalize (URL_Path r)) = (key, Some e) →
  entryServeHTTP e wr r = Some (ServeHTTP h wr r).
Proof.
  intros Hb Hl. rewrite ServeHTTP_unfold, Hl.
  apply lookup_Some_inv in Hl as [He _].
  rewrite (entryServeHTTP_built T gz dir root h key e wr r Hb He).
  by fold (acceptsGzip r).
Qed.

Lemma X1_entry_ServeHTTP_agrees_witness :
  let r := request "/assets/app.js" ["gzip"] in
  let e := siteEntry ["assets"; "app.js"] (noise 1500 1) in
  NewHandler mime.TypeByExtension gzip.stored "dist" site
  = (Some siteHandler, None)
  ∧ lookup siteHandler (normalize (URL_Path r)) = ("/assets/app.js", Some e)
  ∧ entryServeHTTP e (fresh true) r
    = Some (ServeHTTP siteHandler (fresh true) r).
Proof.
  intros r e.
  assert (lookup siteHandler (normalize (URL_Path r))
          = ("/assets/app.js", Some e)) as Hl.
  { apply (site_lookup_request "/assets/app.js" ["assets"; "app.js"]);
      vm_compute; reflexivity. }
  split_and!; [exact site_built|exact Hl|].
  exact (X1_entry_ServeHTTP_agrees _ _ _ _ _ (fresh true) r _ e
           site_built Hl).
Defined.

(** X2: a handler whose map has neither the cleaned path nor
    ["/index.html"] answers with [WriteHeader(500)] and nothing else.  A
    built handler resolves every request to the entry of a regular file
    of the tree and hands the writer the bytes of that file or, when the
    flag is set and the request accepts gzip, what the compressor
    returned for them.  After [ServeHTTP] the status is 500 only if it
    was 500 before the call or no head was committed and the writer
    refused the write of a payload that is not empty; on a writer that
    takes writes the status is the one committed before the call or,
    when none was, 200, and the body has the payload appended. *)
Theorem X2_status_of_ServeHTTP :
  (∀ h wr r,
     cache h !! normalize (URL_Path r) = None →
     cache h !! "/index.html" = None →
     ServeHTTP h wr r = WriteHeader StatusInternalServerError wr)
  ∧ (∀ T gz dir root h wr r,
       NewHandler T gz dir root = (Some h, None) →
       ∃ key e segs bs gbs,
         lookup h (normalize (URL_Path r)) = (key, Some e)
         ∧ nodeAt root segs (RegularFile bs)
         ∧ key = urlUnder "/" segs
         ∧ gz bs = GzipBytes gbs
         ∧ let p := if shouldServeCompressed e && acceptsGzip r
                    then gbs else bs in
           let w := ServeHTTP h wr r in
           rwSent w = headAfter wr p (rwHeader w)
           ∧ rwBody w = rwBody wr ++ takenOf wr p
           ∧ (status w = Some StatusInternalServerError
              ↔ status wr = Some StatusInternalServerError
                ∨ (status wr = None ∧ p ≠ [] ∧ rwConnOk wr = false
                   ∧ rwFault wr = RefusesWrite))
           ∧ (rwConnOk wr = true →
              status w = Some (default StatusOK (status wr))
              ∧ rwBody w = rwBody wr ++ p)).
Proof.
  split.
  - intros h wr r H1 H2. rewrite ServeHTTP_unfold. unfold lookup.
    by rewrite H1, H2.
  - intros T gz dir root h wr r Hb.
    destruct (lookup_built T gz dir root h (normalize (URL_Path r)) Hb)
      as (key & e & Hl).
    pose proof (ServeHTTP_built_any _ _ _ _ _ wr _ _ _ Hb Hl) as Hserve.
    pose proof (lookup_Some_inv _ _ _ _ Hl) as [He _].
    destruct (cache_entry_inv T gz dir root h key e Hb He)
      as (segs & bs & Hin & Hgz & Hkey & ->).
    apply publishedFiles_sound in Hin as [Hat _].
    eexists key, _, segs, bs, (gzipBytesOf gz bs).
    split_and!; [done..|]. intros p w.
    assert (rwSent w = headAfter wr p (rwHeader w)
            ∧ rwBody w = rwBody wr ++ takenOf wr p) as [Hs Hbody].
    { unfold w, p. rewrite Hserve.
      rewrite compressedPayload_fileEntry, plainPayload_fileEntry.
      destruct (shouldServeCompressed _); cbn [andb default];
        [destruct (acceptsGzip r)|].
      - by destruct (gzipServe_any
                       (contentType (fileEntry T (urlUnder "/" segs)
                                       (fpathUnder dir segs) bs
                                       (gzipBytesOf gz bs)))
                       (gzipBytesOf gz bs) wr) as (_ & ? & ?).
      - by destruct (identityServe_any
                       (contentType (fileEntry T (urlUnder "/" segs)
                                       (fpathUnder dir segs) bs
                                       (gzipBytesOf gz bs)))
                       bs wr) as (_ & ? & ?).
      - by destruct (identityServe_any
                       (contentType (fileEntry T (urlUnder "/" segs)
                                       (fpathUnder dir segs) bs
                                       (gzipBytesOf gz bs)))
                       bs wr) as (_ & ? & ?). }
    split_and!; [done|done|by eapply headAfter_500|].
    intros Hok. rewrite Hbody. unfold status, takenOf. rewrite Hs, Hok.
    unfold headAfter, detached. rewrite Hok.
    split; [|done]. destruct (rwSent wr) as [[c hs]|]; [done|].
    by destruct p, (rwFault wr).
Qed.

Lemma X2_status_of_ServeHTTP_witness :
  cache {| cache := ∅ |} !! normalize "/x" = None
  ∧ cache {| cache := ∅ |} !! "/index.html" = None
  ∧ status (ServeHTTP {| cache := ∅ |} (fresh true) (request "/x" []))
    = Some StatusInternalServerError
  ∧ NewHandler mime.TypeByExtension gzip.stored "dist" site
    = (Some siteHandler, None)
  ∧ ∃ key e segs bs gbs,
      lookup siteHandler (normalize (URL_Path (request "/style.css" [])))
      = (key, Some e)
      ∧ nodeAt site segs (RegularFile bs)
      ∧ key = urlUnder "/" segs
      ∧ gzip.stored bs = GzipBytes gbs
      ∧ rwSent (ServeHTTP siteHandler (freshFaulty RefusesWrite)
                  (request "/style.css" []))
        = headAfter (freshFaulty RefusesWrite)
            (if shouldServeCompressed e
                && acceptsGzip (request "/style.css" [])
             then gbs else bs)
            (rwHeader (ServeHTTP siteHandler (freshFaulty RefusesWrite)
                         (request "/style.css" []))).
Proof.
  destruct X2_status_of_ServeHTTP as [Hzero Hbuilt].
  split_and!; [apply lookup_empty|apply lookup_empty| |exact site_built|].
  - rewrite (Hzero {| cache := ∅ |} (fresh true) (request "/x" []));
      [reflexivity|apply lookup_empty|apply lookup_empty].
  - destruct (Hbuilt _ _ _ _ _ (freshFaulty RefusesWrite)
                (request "/style.css" []) site_built)
      as (key & e & segs & bs & gbs & Hl & Hat & Hkey & Hgz & Hs & _).
    exists key, e, segs, bs, gbs. split_and!; assumption.
Defined.


(** ** The fields of a cached entry *)

(** X4: an entry of a built cache whose flag is clear has no compressed
    handler and its [compressedSize] is the [-1] of the composite literal,
    not 0; an entry whose flag is set has [compressedSize] equal to the
    length of its compressed payload. *)
Theorem X4_compressedSize_field T gz dir root h key e :
  NewHandler T gz dir root = (Some h, None) →
  cache h !! key = Some e →
  (shouldServeCompressed e = false →
   gzipHandler e = None ∧ compressedPayload e = None
   ∧ compressedSize e = (-1)%Z ∧ compressedSize e ≠ 0%Z)
  ∧ (shouldServeCompressed e = true →
     ∃ gbs, compressedPayload e = Some gbs ∧ compressedSize e = len gbs).
Proof.
  intros Hb He.
  destruct (cache_entry_inv T gz dir root h key e Hb He)
    as (segs & bs & Hin & Hgz & _ & ->).
  rewrite compressedPayload_fileEntry, fileEntry_gzipHandler,
    fileEntry_compressedSize.
  destruct (shouldServeCompressed _) eqn:Hflag.
  - split; [done|]. intros _. by eexists.
  - split; [|done]. intros _. by split_and!.
Qed.

Lemma X4_compressedSize_field_witness :
  let e := siteEntry ["index.html"] (bytesOf "<html><body>spa</body></html>") in
  NewHandler mime.TypeByExtension gzip.stored "dist" site
  = (Some siteHandler, None)
  ∧ cache siteHandler !! "/index.html" = Some e
  ∧ shouldServeCompressed e = false
  ∧ compressedSize e = (-1)%Z.
Proof.
  intros e.
  assert (cache siteHandler !! "/index.html" = Some e) as He.
  { apply (site_lookup ["index.html"]). vm_compute. reflexivity. }
  assert (shouldServeCompressed e = false) as Hflag
    by (vm_compute; reflexivity).
  split_and!; [exact site_built|exact He|exact Hflag|].
  destruct (X4_compressedSize_field _ _ _ _ _ _ _ site_built He)
    as [Hclear _].
  by destruct (Hclear Hflag) as (_ & _ & Hsize & _).
Defined.

(** X5: for every entry of a built cache, of any content type, the flag
    is set exactly when the plain payload has at least 1460 bytes and the
    content type is none of the five compressed media types; a request
    that resolves to an entry with a shorter payload or with one of these
    content types gets the plain payload and no [Content-Encoding],
    whatever its [Accept-Encoding]. *)
Theorem X5_flag_for_every_content_type T gz dir root h key e :
  NewHandler T gz dir root = (Some h, None) →
  cache h !! key = Some e →
  (shouldServeCompressed e = true
   ↔ (1460 ≤ len (plainPayload e))%Z
     ∧ contentType e ∉ ["image/jpeg"; "image/png"; "image/gif";
                        "audio/mpeg"; "video/mp4"])
  ∧ (∀ r connOk,
       lookup h (normalize (URL_Path r)) = (key, Some e) →
       (len (plainPayload e) < 1460)%Z
       ∨ contentType e ∈ ["image/jpeg"; "image/png"; "image/gif";
                          "audio/mpeg"; "video/mp4"] →
       ServeHTTP h (fresh connOk) r
       = identityServe (contentType e) (plainPayload e) (fresh connOk)
       ∧ sentHeader (ServeHTTP h (fresh connOk) r) !! "Content-Encoding"
         = None).
Proof.
  intros Hb He.
  assert (shouldServeCompressed e = true
          ↔ (1460 ≤ len (plainPayload e))%Z
            ∧ contentType e ∉ ["image/jpeg"; "image/png"; "image/gif";
                               "audio/mpeg"; "video/mp4"]) as Hiff.
  { destruct (cache_entry_inv T gz dir root h key e Hb He)
      as (segs & bs & _ & _ & _ & ->).
    rewrite fileEntry_shouldServeCompressed, plainPayload_fileEntry,
      fileEntry_contentType, andb_true_iff, bool_decide_eq_true,
      negb_true_iff.
    unfold contentTypeIsAlreadyCompressed.
    by destruct (decide (_ ∈ _)); intuition. }
  split; [exact Hiff|].
  intros r connOk Hl Hcase.
  assert (shouldServeCompressed e = false) as Hflag.
  { destruct (shouldServeCompressed e); [|done].
    destruct Hiff as [[Hlen Hct] _]; [done|]. destruct Hcase; [lia|done]. }
  rewrite (ServeHTTP_built_any _ _ _ _ _ _ _ _ _ Hb Hl), Hflag.
  cbn [andb]. split; [done|].
  rewrite identityServe_fresh. unfold sentHeader. cbn [rwSent].
  apply plainHeader_lookup.
Qed.

Lemma X5_flag_for_every_content_type_witness :
  let e := siteEntry ["assets"; "logo.png"] (noise 3000 7) in
  let r := request "/assets/logo.png" ["gzip"] in
  NewHandler mime.TypeByExtension gzip.stored "dist" site
  = (Some siteHandler, None)
  ∧ cache siteHandler !! "/assets/logo.png" = Some e
  ∧ lookup siteHandler (normalize (URL_Path r))
    = ("/assets/logo.png", Some e)
  ∧ contentType e ∈ ["image/jpeg"; "image/png"; "image/gif";
                     "audio/mpeg"; "video/mp4"]
  ∧ sentHeader (ServeHTTP siteHandler (fresh true) r) !! "Content-Encoding"
    = None.
Proof.
  intros e r.
  assert (cache siteHandler !! "/assets/logo.png" = Some e) as He.
  { apply (site_lookup ["assets"; "logo.png"]). vm_compute. reflexivity. }
  assert (lookup siteHandler (normalize (URL_Path r))
          = ("/assets/logo.png", Some e)) as Hl.
  { apply (site_lookup_request "/assets/logo.png" ["assets"; "logo.png"]);
      vm_compute; reflexivity. }
  assert (contentType e ∈ ["image/jpeg"; "image/png"; "image/gif";
                           "audio/mpeg"; "video/mp4"]) as Hct.
  { apply (bool_decide_unpack _). vm_compute. exact I. }
  split_and!; [exact site_built|exact He|exact Hl|exact Hct|].
  destruct (X5_flag_for_every_content_type _ _ _ _ _ _ _ site_built He)
    as [_ Hserve].
  by destruct (Hserve r true Hl (or_intror Hct)) as [_ Hce].
Defined.

(** ** The walk and the slice it is given *)

Section WalkSlice.

Context (T : string → string) (gz : list byte → gzipResult).

Lemma appendFileEntry_slice slice u f n :
  appendFileEntry T gz slice u f n
  = match appendFileEntry T gz [] u f n with
    | (new, None) => (slice ++ new, None)
    | (_, Some err) => ([], Some err)
    end.
Proof.
  destruct n as [bs| | |es|]; cbn [appendFileEntry]; try done.
  by destruct (gz bs).
Qed.

Lemma rangeDirEntries_cons_cases u f name n es slice :
  rangeDirEntries T gz u f ((name, n) :: es) slice
  = if published name then
      match (if IsDir n
             then appendDirEntries T gz slice (path.Join [u; name])
                    (filepath.Join [f; name]) n
             else appendFileEntry T gz slice (path.Join [u; name])
                    (filepath.Join [f; name]) n) with
      | (_, Some err) => ([], Some err)
      | (slice, None) => rangeDirEntries T gz u f es slice
      end
    else rangeDirEntries T gz u f es slice.
Proof.
  destruct (published name) eqn:Hp.
  - destruct (IsDir n) eqn:Hd.
    + by rewrite rangeDirEntries_dir.
    + by rewrite rangeDirEntries_file.
  - by rewrite rangeDirEntries_hidden.
Qed.

Lemma appendDirEntries_slice d :
  ∀ slice u f,
    appendDirEntries T gz slice u f d
    = match appendDirEntries T gz [] u f d with
      | (new, None) => (slice ++ new, None)
      | (_, Some err) => ([], Some err)
      end.
Proof.
  induction d as [b| | |es IH|] using fsnode_tree_ind; try done.
  intros slice u f. rewrite !appendDirEntries_Directory.
  revert slice. induction es as [|[name n] es IHes]; intros slice.
  - by rewrite !rangeDirEntries_nil, app_nil_r.
  - apply Forall_cons in IH as [IHn IH]. cbn [snd] in IHn.
    specialize (IHes IH).
    rewrite !rangeDirEntries_cons_cases.
    destruct (published name); [|apply IHes].
    assert ((if IsDir n
             then appendDirEntries T gz slice (path.Join [u; name])
                    (filepath.Join [f; name]) n
             else appendFileEntry T gz slice (path.Join [u; name])
                    (filepath.Join [f; name]) n)
            = match (if IsDir n
                     then appendDirEntries T gz [] (path.Join [u; name])
                            (filepath.Join [f; name]) n
                     else appendFileEntry T gz [] (path.Join [u; name])
                            (filepath.Join [f; name]) n) with
              | (new, None) => (slice ++ new, None)
              | (_, Some err) => ([], Some err)
              end) as ->.
    { destruct (IsDir n); [apply IHn|apply appendFileEntry_slice]. }
    destruct (if IsDir n then _ else _) as [newn [err|]]; [done|].
    rewrite (IHes (slice ++ newn)), (IHes newn).
    destruct (rangeDirEntries T gz u f es []) as [new' [err|]]; [done|].
    by rewrite app_assoc.
Qed.

Lemma rangeDirEntries_app_cases u f es1 es2 slice :
  rangeDirEntries T gz u f (es1 ++ es2) slice
  = match rangeDirEntries T gz u f es1 slice with
    | (s1, None) => rangeDirEntries T gz u f es2 s1
    | (_, Some err) => ([], Some err)
    end.
Proof.
  revert slice. induction es1 as [|[name n] es1 IH]; intros slice.
  - by rewrite rangeDirEntries_nil.
  - cbn [app]. rewrite !rangeDirEntries_cons_cases.
    destruct (published name); [|apply IH].
    destruct (if IsDir n then _ else _) as [s [err|]]; [done|apply IH].
Qed.

End WalkSlice.

(** X6: the walk only appends.  On a slice that is not empty both
    [appendDirEntries] and [appendFileEntry] return the error they return
    on the empty slice, with the [nil] slice, or the given slice followed
    by the entries they return on the empty slice. *)
Theorem X6_walk_extends_slice T gz slice u f d :
  appendDirEntries T gz slice u f d
  = match appendDirEntries T gz [] u f d with
    | (new, None) => (slice ++ new, None)
    | (_, Some err) => ([], Some err)
    end
  ∧ appendFileEntry T gz slice u f d
    = match appendFileEntry T gz [] u f d with
      | (new, None) => (slice ++ new, None)
      | (_, Some err) => ([], Some err)
      end
  ∧ (∀ s, appendFileEntry T gz slice u f d = (s, None) →
          ∃ e, s = slice ++ [e] ∧ urlpath e = u).
Proof.
  split_and!.
  - apply appendDirEntries_slice.
  - apply appendFileEntry_slice.
  - destruct d as [bs| | |es|]; cbn [appendFileEntry]; try by intros ? [=].
    destruct (gz bs) as [gbs| |]; try by intros ? [=].
    intros s [= <-]. eexists. split; [done|]. apply fileEntry_urlpath.
Qed.

(** X7: what lies under a name that starts with a dot or an underscore is
    not looked at: the walk of a directory returns what it returns
    without that entry, whatever the entry is, be it unreadable. *)
Theorem X7_hidden_entry_not_visited T gz slice u f es1 name n es2 :
  published name = false →
  appendDirEntries T gz slice u f (Directory (es1 ++ (name, n) :: es2))
  = appendDirEntries T gz slice u f (Directory (es1 ++ es2)).
Proof.
  intros Hp. rewrite !appendDirEntries_Directory.
  rewrite !rangeDirEntries_app_cases.
  destruct (rangeDirEntries T gz u f es1 slice) as [s1 [err|]]; [done|].
  by rewrite rangeDirEntries_hidden.
Qed.

Lemma X7_hidden_entry_not_visited_witness :
  published ".git" = false
  ∧ appendDirEntries mime.TypeByExtension gzip.stored [] "/" "dist"
      (Directory
         ([("LICENSE", RegularFile (bytesOf "MIT"))]
            ++ (".git", UnreadableDir)
            :: [("index.html", RegularFile (bytesOf "<html></html>"))]))
    = appendDirEntries mime.TypeByExtension gzip.stored [] "/" "dist"
        (Directory
           ([("LICENSE", RegularFile (bytesOf "MIT"))]
              ++ [("index.html", RegularFile (bytesOf "<html></html>"))])).
Proof.
  split; [reflexivity|].
  apply (X7_hidden_entry_not_visited mime.TypeByExtension gzip.stored [] "/"
           "dist" [("LICENSE", RegularFile (bytesOf "MIT"))] ".git"
           UnreadableDir
           [("index.html", RegularFile (bytesOf "<html></html>"))]).
  reflexivity.
Defined.

(** ** The error of a failed walk *)

Section WalkError.

Context (T : string → string) (gz : list byte → gzipResult).

Lemma failsAt_further es name n segs n' :
  failsAt gz (Directory es) segs n' →
  failsAt gz (Directory ((name, n) :: es)) segs n'.
Proof.
  intros (Hat & Hpub & Hfault).
  destruct segs as [|s segs].
  { inversion Hat; subst. by destruct (Hfault es). }
  split_and!; [|done..]. inversion Hat; subst.
  econstructor; [by apply list_elem_of_further|done].
Qed.

Lemma failsAt_entry es name n :
  published name = true → faultyEntry gz n = true →
  failsAt gz (Directory ((name, n) :: es)) [name] n.
Proof.
  intros Hp Hf. split_and!; [|by repeat constructor|done].
  econstructor; [apply list_elem_of_here|constructor].
Qed.

Lemma failsAt_below es name sub s segs n' :
  published name = true →
  failsAt gz (Directory sub) (s :: segs) n' →
  failsAt gz (Directory ((name, Directory sub) :: es)) (name :: s :: segs) n'.
Proof.
  intros Hp (Hat & Hpub & Hfault).
  split_and!; [|by constructor|done].
  econstructor; [apply list_elem_of_here|done].
Qed.

Lemma appendFileEntry_error_at slice u f name n s err :
  IsDir n = false →
  appendFileEntry T gz slice u (filepath.Join [f; name]) n = (s, Some err) →
  faultyEntry gz n = true ∧ errorAt gz f [name] n = Some err.
Proof.
  intros Hd. unfold errorAt, fpathUnder. cbn [foldl].
  destruct n as [bs| | |es|]; cbn [appendFileEntry faultyEntry];
    try discriminate Hd; try by intros [= <- <-].
  by destruct (gz bs); intros [= <- <-].
Qed.

Lemma appendDirEntries_error_at d :
  ∀ slice u f s err,
    appendDirEntries T gz slice u f d = (s, Some err) →
    ∃ segs n, failsAt gz d segs n ∧ errorAt gz f segs n = Some err.
Proof.
  induction d as [b| | |es IH|] using fsnode_tree_ind;
    intros slice u f s err;
    try (intros [= <- <-]; eexists [], _;
         by split; [split_and!; [constructor|constructor|]|]).
  rewrite appendDirEntries_Directory.
  revert slice. induction es as [|[name n] es IHes]; intros slice;
    [by rewrite rangeDirEntries_nil|].
  apply Forall_cons in IH as [IHn IH]. cbn [snd] in IHn.
  assert (∀ slice,
            rangeDirEntries T gz u f es slice = (s, Some err) →
            ∃ segs n0,
              failsAt gz (Directory ((name, n) :: es)) segs n0
              ∧ errorAt gz f segs n0 = Some err) as Hrest.
  { intros sl H. destruct (IHes IH sl H) as (segs & n0 & Hfail & Herr).
    exists segs, n0. split; [by apply failsAt_further|done]. }
  rewrite rangeDirEntries_cons_cases.
  destruct (published name) eqn:Hp; [|apply Hrest].
  destruct (IsDir n) eqn:Hd.
  - destruct (appendDirEntries T gz slice _ _ n) as [s' [err'|]] eqn:Hn;
      [|apply Hrest].
    intros [= <- <-].
    destruct (IHn _ _ _ _ _ Hn) as (segs & n0 & Hfail & Herr).
    destruct segs as [|s0 segs].
    + destruct Hfail as (Hat & _ & Hnodir). inversion Hat; subst.
      destruct n0 as [| | |sub|]; try discriminate Hd.
      { by destruct (Hnodir sub). }
      exists [name], UnreadableDir. split; [by apply failsAt_entry|].
      cbn in Herr. by simplify_eq.
    + destruct n as [| | |sub|]; try discriminate Hd.
      * exists (name :: s0 :: segs), n0.
        split; [by apply failsAt_below|done].
      * destruct Hfail as (Hat & _). inversion Hat.
  - destruct (appendFileEntry T gz slice _ _ n) as [s' [err'|]] eqn:Hn;
      [|apply Hrest].
    intros [= <- <-].
    destruct (appendFileEntry_error_at _ _ _ _ _ _ _ Hd Hn) as [Hf Herr].
    exists [name], n. split; [by apply failsAt_entry|done].
Qed.

End WalkError.

(** X8: an error of [NewHandler] is either the missing root document,
    after a walk that returned its entries without ["/index.html"] among
    their URL paths, or the error of a step that fails on a published
    path: it has the kind of that step and carries the file system path of
    the failing entry. *)
Theorem X8_error_names_failing_step T gz dir root err :
  NewHandler T gz dir root = (None, Some err) →
  (err = ErrRootNotFound
   ∧ ∃ entries,
       appendDirEntries T gz [] "/" dir root = (entries, None)
       ∧ "/index.html" ∉ urlpath <$> entries)
  ∨ (∃ segs n, failsAt gz root segs n ∧ errorAt gz dir segs n = Some err).
Proof.
  rewrite NewHandler_unfold.
  destruct (appendDirEntries T gz [] "/" dir root) as [entries [err'|]]
    eqn:Hwalk.
  - intros [= <-]. right. by eapply appendDirEntries_error_at.
  - destruct (fillCache entries !! "/index.html") eqn:He; [done|].
    intros [= <-]. left. split; [done|]. exists entries.
    split; [done|]. by apply fillCache_lookup_None.
Qed.

Lemma X8_error_names_failing_step_witness :
  NewHandler mime.TypeByExtension gzip.stored "dist" siteWithUnreadable
  = (None, Some (ErrRead "dist/assets/broken.js"))
  ∧ ((ErrRead "dist/assets/broken.js" = ErrRootNotFound
      ∧ ∃ entries,
          appendDirEntries mime.TypeByExtension gzip.stored [] "/" "dist"
            siteWithUnreadable = (entries, None)
          ∧ "/index.html" ∉ urlpath <$> entries)
     ∨ ∃ segs n,
         failsAt gzip.stored siteWithUnreadable segs n
         ∧ errorAt gzip.stored "dist" segs n
           = Some (ErrRead "dist/assets/broken.js")).
Proof.
  assert (NewHandler mime.TypeByExtension gzip.stored "dist"
            siteWithUnreadable
          = (None, Some (ErrRead "dist/assets/broken.js"))) as Hb
    by (vm_compute; reflexivity).
  split; [exact Hb|].
  exact (X8_error_names_failing_step _ _ _ _ _ Hb).
Defined.

(** ** Paths of a well-formed tree *)

Lemma NoDup_fst_functional {A B} (l : list (A * B)) x y1 y2 :
  NoDup l.*1 → (x, y1) ∈ l → (x, y2) ∈ l → y1 = y2.
Proof.
  induction l as [|[a b] l IH]; intros Hnd H1 H2;
    [by apply elem_of_nil in H1|].
  cbn in Hnd. apply NoDup_cons in Hnd as [Hfresh Hnd].
  apply elem_of_cons in H1 as [H1|H1];
    apply elem_of_cons in H2 as [H2|H2]; simplify_eq; try done.
  - destruct Hfresh. apply list_elem_of_fmap. by exists (a, y2).
  - destruct Hfresh. apply list_elem_of_fmap. by exists (a, y1).
  - by apply IH.
Qed.

(** In a well-formed tree a path leads to one node. *)
Lemma nodeAt_functional d segs n1 n2 :
  treeOk d = true → nodeAt d segs n1 → nodeAt d segs n2 → n1 = n2.
Proof.
  intros Hok H1. revert n2 Hok.
  induction H1 as [d|es name sub segs n Hin Hat IH]; intros n2 Hok H2.
  - by inversion H2.
  - inversion H2 as [|? ? sub' ? ? Hin' Hat']; subst.
    cbn [treeOk] in Hok. apply andb_prop in Hok as [Hnd Hall].
    apply bool_decide_eq_true in Hnd.
    assert (sub' = sub) as -> by (by eapply NoDup_fst_functional).
    apply IH; [|done].
    pose proof (forallb_elem_of _ _ _ Hall Hin) as H. cbn in H.
    by apply andb_prop in H as [_ H].
Qed.

Lemma walkable_iff_no_failure gz d :
  walkable gz d = true ↔ ¬ ∃ segs n, failsAt gz d segs n.
Proof.
  split.
  - intros Hw (segs & n & Hfail).
    apply failsAt_not_walkable in Hfail. congruence.
  - intros Hno. destruct (walkable gz d) eqn:Hw; [done|].
    destruct Hno. by apply not_walkable_failsAt.
Qed.

(** The keys of a built cache, in a well-formed tree. *)
Lemma cache_key_inv T gz dir root h key e :
  treeOk root = true →
  NewHandler T gz dir root = (Some h, None) →
  cache h !! key = Some e →
  ∃ segs bs,
    nodeAt root segs (RegularFile bs)
    ∧ Forall (λ s, nameOk s = true) segs
    ∧ Forall (λ s, published s = true) segs
    ∧ key = urlOf segs
    ∧ e = fileEntry T (urlOf segs) (fpathUnder dir segs) bs
            (gzipBytesOf gz bs).
Proof.
  intros Hok Hb He.
  destruct (cache_entry_inv T gz dir root h key e Hb He)
    as (segs & bs & Hin & _ & -> & ->).
  pose proof (publishedFiles_plainNames _ _ _ Hok Hin) as Hnames.
  apply publishedFiles_sound in Hin as [Hat Hp].
  destruct (treeOk_nodeAt root _ _ Hat Hok) as [Hn _].
  exists segs, bs. by rewrite urlUnder_urlOf.
Qed.

(** X9: for a well-formed tree [NewHandler] returns a handler exactly
    when no step of the walk fails on a published path and the root
    directory itself lists a regular file named [index.html]; a document
    of that name in a subdirectory, or a directory of that name, does not
    count. *)
Theorem X9_built_iff_root_document T gz dir root :
  treeOk root = true →
  (∃ h, NewHandler T gz dir root = (Some h, None))
  ↔ (¬ ∃ segs n, failsAt gz root segs n)
    ∧ ∃ bs, nodeAt root ["index.html"] (RegularFile bs).
Proof.
  intros Hok. split.
  - intros [h Hb].
    pose proof (NewHandler_Some_inv T gz dir root h Hb)
      as (Hw & _ & _ & [e He]).
    split; [by apply walkable_iff_no_failure|].
    destruct (cache_key_inv T gz dir root h _ e Hok Hb He)
      as (segs & bs & Hat & Hn & _ & E & _).
    exists bs. replace ["index.html"] with segs; [done|].
    apply urlOf_inj; [done|by repeat constructor|done].
  - intros [Hno [bs Hat]]. apply walkable_iff_no_failure in Hno.
    eexists. apply NewHandler_built; [done|].
    rewrite entriesOf_urlpaths_ok by done.
    change "/index.html" with (urlOf ["index.html"]).
    apply list_elem_of_fmap_2, list_elem_of_fmap.
    exists (["index.html"], bs). split; [done|].
    apply publishedFiles_complete; [done..|by repeat constructor].
Qed.

Lemma X9_built_iff_root_document_witness :
  treeOk siteWithoutIndex = true
  ∧ ((∃ h, NewHandler mime.TypeByExtension gzip.stored "dist"
             siteWithoutIndex = (Some h, None))
     ↔ (¬ ∃ segs n, failsAt gzip.stored siteWithoutIndex segs n)
       ∧ ∃ bs, nodeAt siteWithoutIndex ["index.html"] (RegularFile bs)).
Proof.
  assert (treeOk siteWithoutIndex = true) as Hok by (vm_compute; reflexivity).
  split; [exact Hok|].
  exact (X9_built_iff_root_document mime.TypeByExtension gzip.stored "dist"
           siteWithoutIndex Hok).
Defined.

(** X10: in a handler built from a well-formed tree, the URL path of a
    regular file on a published path is its own clean form, with or
    without the leading slash, and every request whose path cleans to it
    is answered with status 200 and, on a working connection, the bytes
    of that file, or what the compressor made of them when the request
    accepts gzip. *)
Theorem X10_published_file_is_served T gz dir root h segs bs :
  treeOk root = true →
  NewHandler T gz dir root = (Some h, None) →
  nodeAt root segs (RegularFile bs) →
  Forall (λ s, published s = true) segs →
  normalize (urlOf segs) = urlOf segs
  ∧ normalize (String.concat "/" segs) = urlOf segs
  ∧ ∀ r,
      normalize (URL_Path r) = urlOf segs →
      status (ServeHTTP h (fresh true) r) = Some StatusOK
      ∧ (acceptsGzip r = false → rwBody (ServeHTTP h (fresh true) r) = bs)
      ∧ (rwBody (ServeHTTP h (fresh true) r) = bs
         ∨ gz bs = GzipBytes (rwBody (ServeHTTP h (fresh true) r))).
Proof.
  intros Hok Hb Hat Hp.
  pose proof (NewHandler_Some_inv T gz dir root h Hb) as (Hw & _).
  assert ((segs, bs) ∈ publishedFiles root) as Hin.
  { apply publishedFiles_complete; [done| |done].
    intros ->. inversion Hat; subst. discriminate Hw. }
  pose proof (publishedFiles_plainNames _ _ _ Hok Hin) as Hnames.
  pose proof (cache_lookup_published T gz dir root h segs bs Hok Hb Hin)
    as He.
  destruct segs as [|s segs].
  { inversion Hat; subst. discriminate Hw. }
  assert (normalize (urlOf (s :: segs)) = urlOf (s :: segs)) as Hclean
    by (by apply path_Clean_urlOf).
  split_and!; [done| |].
  - transitivity (normalize (urlOf (s :: segs))); [|done].
    unfold normalize, urlOf. f_equal.
    change (path.IsAbs ("/" +:+ String.concat "/" (s :: segs))) with true.
    apply Forall_cons in Hnames as [[(c & r & -> & Hc & _)%nameOk_inv _] _].
    rewrite string_concat_cons, string_app_cons.
    cbn [path.IsAbs negb]. by rewrite Hc.
  - intros r Hr.
    assert (lookup h (normalize (URL_Path r))
            = (urlOf (s :: segs),
               Some (fileEntry T (urlOf (s :: segs))
                       (fpathUnder dir (s :: segs)) bs (gzipBytesOf gz bs))))
      as Hl by (unfold lookup; by rewrite Hr, He).
    rewrite (ServeHTTP_built _ _ _ _ _ _ _ _ true Hb Hl).
    rewrite compressedPayload_fileEntry, plainPayload_fileEntry.
    pose proof (walkable_gzip gz root _ _ Hw Hin) as Hgz.
    destruct (shouldServeCompressed _), (acceptsGzip r);
      cbn [andb rwBody default]; split_and!; auto; done.
Qed.

Lemma X10_published_file_is_served_witness :
  treeOk site = true
  ∧ NewHandler mime.TypeByExtension gzip.stored "dist" site
    = (Some siteHandler, None)
  ∧ nodeAt site ["LICENSE"] (RegularFile (bytesOf "MIT"))
  ∧ Forall (λ s, published s = true) ["LICENSE"]
  ∧ normalize (URL_Path (request "//./LICENSE" ["br"])) = urlOf ["LICENSE"]
  ∧ rwBody (ServeHTTP siteHandler (fresh true)
              (request "//./LICENSE" ["br"]))
    = bytesOf "MIT".
Proof.
  assert (nodeAt site ["LICENSE"] (RegularFile (bytesOf "MIT"))) as Hat.
  { econstructor; [apply list_elem_of_further, list_elem_of_here|].
    constructor. }
  assert (Forall (λ s, published s = true) ["LICENSE"]) as Hp
    by (by repeat constructor).
  assert (normalize (URL_Path (request "//./LICENSE" ["br"]))
          = urlOf ["LICENSE"]) as Hr by reflexivity.
  split_and!; [exact site_treeOk|exact site_built|exact Hat|exact Hp|
               exact Hr|].
  destruct (X10_published_file_is_served _ _ _ _ _ _ _
              site_treeOk site_built Hat Hp) as (_ & _ & Hserve).
  destruct (Hserve _ Hr) as (_ & Hbody & _).
  apply Hbody. reflexivity.
Defined.

(** X11: in a handler built from a well-formed tree no directory has an
    entry: a request whose path cleans to the path of a directory, the
    root directory at ["/"] included, is answered from the entry of
    ["/index.html"]. *)
Theorem X11_directory_paths_fall_back T gz dir root h segs es r :
  treeOk root = true →
  NewHandler T gz dir root = (Some h, None) →
  nodeAt root segs (Directory es) →
  normalize (URL_Path r) = urlOf segs →
  cache h !! urlOf segs = None
  ∧ (∃ e, cache h !! "/index.html" = Some e
          ∧ lookup h (normalize (URL_Path r)) = ("/index.html", Some e))
  ∧ normalize "/" = urlOf [] ∧ normalize "" = urlOf [].
Proof.
  intros Hok Hb Hat Hr.
  assert (cache h !! urlOf segs = None) as Hmiss.
  { destruct (cache h !! urlOf segs) as [e|] eqn:He; [|done].
    destruct (cache_key_inv T gz dir root h _ e Hok Hb He)
      as (segs' & bs & Hat' & Hn' & _ & E & _).
    destruct (treeOk_nodeAt root _ _ Hat Hok) as [Hn _].
    apply urlOf_inj in E; [|done..]. subst segs'.
    by pose proof (nodeAt_functional _ _ _ _ Hok Hat Hat'). }
  split_and!; [done| |done..].
  destruct (lookup_built T gz dir root h (normalize (URL_Path r)) Hb)
    as (key & e & Hl).
  pose proof (lookup_Some_inv _ _ _ _ Hl) as [He [->|[-> _]]].
  - rewrite Hr in He. congruence.
  - eauto.
Qed.

Lemma X11_directory_paths_fall_back_witness :
  treeOk site = true
  ∧ NewHandler mime.TypeByExtension gzip.stored "dist" site
    = (Some siteHandler, None)
  ∧ normalize (URL_Path (request "/assets/" [])) = urlOf ["assets"]
  ∧ cache siteHandler !! "/assets" = None
  ∧ ∃ e, lookup siteHandler (normalize "/")
         = ("/index.html", Some e).
Proof.
  assert (∃ es, nodeAt site ["assets"] (Directory es)) as [es Hat].
  { eexists. econstructor;
      [do 3 apply list_elem_of_further; apply list_elem_of_here|].
    constructor. }
  assert (normalize (URL_Path (request "/assets/" [])) = urlOf ["assets"])
    as Hr by reflexivity.
  destruct (X11_directory_paths_fall_back _ _ _ _ _ _ _
              (request "/assets/" []) site_treeOk site_built Hat Hr)
    as (Hmiss & _).
  assert (∃ es0, nodeAt site [] (Directory es0)) as [es0 Hroot]
    by (eexists; constructor).
  destruct (X11_directory_paths_fall_back _ _ _ _ _ _ _
              (request "/" []) site_treeOk site_built Hroot eq_refl)
    as (_ & (e & _ & Hl) & _).
  split_and!; [exact site_treeOk|exact site_built|exact Hr|exact Hmiss|].
  exists e. exact Hl.
Defined.

(** ** Cleaning a clean path *)

(** A proper element is copied to the output as one element. *)
Lemma path_cleanLoop_elem rooted dotdot name s2 out :
  properElem name → path.elementEnds s2 = true →
  path.cleanLoop rooted (name +:+ s2) out dotdot
  = path.cleanLoop rooted s2
      (rev (chars name)
         ++ if path.needSlash rooted out then "/"%char :: out else out)
      dotdot.
Proof.
  intros (Hne & Hsf & Hdot & Hdd) Hs2.
  destruct name as [|c r]; [done|].
  unfold slashFree in Hsf. cbn in Hsf.
  apply andb_prop in Hsf as [Hc Hr]. apply negb_true_iff in Hc.
  rewrite string_app_cons, path_cleanLoop_cons, Hc.
  assert (Ascii.eqb c "."%char && path.elementEnds (r +:+ s2) = false) as ->.
  { destruct (Ascii.eqb c "."%char) eqn:E; [|done].
    apply Ascii.eqb_eq in E as ->. destruct r as [|c1 r1]; [done|].
    cbn in Hr. apply andb_prop in Hr as [Hc1 _].
    apply negb_true_iff in Hc1. by rewrite string_app_cons. }
  assert (path.isDotDot c (r +:+ s2) = false) as ->.
  { destruct r as [|c1 r1].
    - rewrite string_app_nil_l. destruct s2 as [|c2 s2]; [done|].
      cbn in Hs2. apply Ascii.eqb_eq in Hs2 as ->.
      cbn [path.isDotDot]. by rewrite andb_false_r.
    - rewrite string_app_cons. cbn [path.isDotDot].
      destruct (Ascii.eqb c "."%char) eqn:E; [|done].
      destruct (Ascii.eqb c1 "."%char) eqn:E1; [|done].
      apply Ascii.eqb_eq in E as ->. apply Ascii.eqb_eq in E1 as ->.
      destruct r1 as [|c2 r2]; [done|].
      cbn in Hr. apply andb_prop in Hr as [Hc2 _].
      apply negb_true_iff in Hc2. by rewrite string_app_cons. }
  rewrite path_copyElement_element by done.
  cbn [chars rev]. by rewrite <- app_assoc.
Qed.

Lemma bufOf_push pre s :
  Forall properElem pre →
  rev (chars s)
    ++ (if path.needSlash true (bufOf pre) then "/"%char :: bufOf pre
        else bufOf pre)
  = bufOf (pre ++ [s]).
Proof.
  intros Hok. rewrite bufOf_snoc. f_equal.
  unfold path.needSlash. cbn [andb negb orb]. rewrite orb_false_r.
  destruct pre as [|x pre]; [done|].
  pose proof (bufOf_length (x :: pre) Hok ltac:(done)).
  replace (length (bufOf (x :: pre)) =? 1)%nat with false; [done|].
  symmetry. apply Nat.eqb_neq. lia.
Qed.

Lemma cleanLoop_proper segs :
  ∀ pre,
    Forall properElem pre → Forall properElem segs →
    path.cleanLoop true (String.concat "/" segs) (bufOf pre) 1
    = bufOf (pre ++ segs).
Proof.
  induction segs as [|s tl IH]; intros pre Hpre Hsegs.
  - by rewrite app_nil_r.
  - apply Forall_cons in Hsegs as [Hs Htl].
    rewrite string_concat_cons.
    rewrite path_cleanLoop_elem by (done || by destruct tl).
    rewrite bufOf_push by done.
    replace (pre ++ s :: tl) with ((pre ++ [s]) ++ tl)
      by (by rewrite <- app_assoc).
    destruct tl as [|s' tl]; [by rewrite app_nil_r|].
    change ("/" +:+ String.concat "/" (s' :: tl))
      with (String "/" (String.concat "/" (s' :: tl))).
    rewrite path_cleanLoop_cons. cbn [Ascii.eqb Bool.eqb].
    apply IH; [|done]. apply Forall_app. by split; [|constructor].
Qed.

(** A clean rooted path is its own clean form. *)
Lemma path_Clean_proper segs :
  Forall properElem segs → path.Clean (urlOf segs) = urlOf segs.
Proof.
  intros Hok. unfold urlOf at 1.
  change ("/" +:+ String.concat "/" segs)
    with (String "/" (String.concat "/" segs)).
  unfold path.Clean. cbn [Ascii.eqb Bool.eqb].
  rewrite <- bufOf_nil, cleanLoop_proper by done. cbn [app].
  unfold bufOf. destruct (rev (chars (urlOf segs))) eqn:E.
  - apply (f_equal (@length _)) in E. rewrite length_rev in E.
    unfold urlOf in E. rewrite chars_app in E. discriminate E.
  - by rewrite <- E, rev_involutive, string_of_chars.
Qed.

(** X12: the cleaning step of [ServeHTTP] is idempotent and its result is
    an absolute path, so a request for the cleaned form of a path is
    answered as the request for the path itself, by every handler. *)
Theorem X12_normalize_idempotent p :
  normalize (normalize p) = normalize p
  ∧ path.IsAbs (normalize p) = true
  ∧ ∀ h wr hd,
      ServeHTTP h wr {| URL_Path := normalize p; ReqHeader := hd |}
      = ServeHTTP h wr {| URL_Path := p; ReqHeader := hd |}.
Proof.
  destruct (normalize_rooted p) as (r & Hr & _).
  destruct (path_Clean_rooted r) as (segs & Hok & E).
  rewrite <- Hr in E.
  assert (normalize (normalize p) = normalize p) as Hidem.
  { rewrite E. unfold normalize at 1.
    change (path.IsAbs (urlOf segs)) with true. cbn [negb].
    by apply path_Clean_proper. }
  split_and!; [done|by rewrite E|].
  intros h wr hd. unfold ServeHTTP. cbn [URL_Path ReqHeader].
  by rewrite Hidem.
Qed.

(** ** The extension of a joined path *)

Lemma backtrackLoop_drop dd :
  ∀ out d,
    (dd ≤ length out)%nat →
    ∃ k, path.backtrackLoop dd d out = drop k out
         ∧ (dd ≤ length (path.backtrackLoop dd d out))%nat.
Proof.
  induction out as [|c out IH]; intros d Hlen; [by exists 0%nat|].
  cbn [path.backtrackLoop].
  destruct ((dd <? length (c :: out))%nat && negb (Ascii.eqb d "/"%char))
    eqn:E.
  - apply andb_prop in E as [E _]. apply Nat.ltb_lt in E. cbn in E.
    destruct (IH c ltac:(lia)) as (k & Hk & Hl). by exists (S k).
  - by exists 0%nat.
Qed.

(** Backtracking stops above the leading slash. *)
Lemma backtrack_rootedBuf rooted out dd :
  rootedBuf rooted out dd → (dd < length out)%nat →
  rootedBuf rooted (path.backtrack dd out) dd.
Proof.
  intros HJ Hlt Hr. destruct (HJ Hr) as (Hdd & pre & ->). split; [done|].
  destruct pre as [|c pre]; [cbn in Hlt; lia|].
  cbn [app path.backtrack]. cbn in Hlt.
  destruct (backtrackLoop_drop dd (pre ++ ["/"%char]) c ltac:(lia))
    as (k & -> & Hl).
  rewrite length_drop, length_app in Hl. cbn in Hl.
  exists (drop k pre). rewrite drop_app_le by lia. done.
Qed.

(** Copying an element stops at the slash that ends it or at a slash
    before. *)
Lemma copyElement_reaches rooted dd t r :
  ∀ o,
    ∃ l ext,
      (String.length l ≤ String.length r)%nat
      ∧ path.copyElement rooted dd (r +:+ String "/" t) o
        = path.cleanLoop rooted (l +:+ String "/" t) (ext ++ o) dd.
Proof.
  induction r as [|c r IH]; intros o.
  - exists "", []. split; [done|].
    by rewrite string_app_nil_l, path_copyElement_cons.
  - rewrite string_app_cons, path_copyElement_cons.
    destruct (Ascii.eqb c "/"%char) eqn:Hc.
    + exists (String c r), []. split; [done|]. by rewrite string_app_cons.
    + destruct (IH (c :: o)) as (l & ext & Hl & ->).
      exists l, (ext ++ [c]). split; [cbn; lia|]. by rewrite <- app_assoc.
Qed.

(** The loop of [Clean] reaches the last element of its input. *)
Lemma cleanLoop_reaches rooted t n :
  ∀ s out dd,
    (String.length s ≤ n)%nat → rootedBuf rooted out dd →
    ∃ out' dd',
      rootedBuf rooted out' dd'
      ∧ path.cleanLoop rooted (s +:+ String "/" t) out dd
        = path.cleanLoop rooted t out' dd'.
Proof.
  induction n as [|n IH]; intros [|c r] out dd Hlen HJ;
    try (rewrite string_app_nil_l, path_cleanLoop_cons; by exists out, dd);
    [cbn in Hlen; lia|].
  cbn [String.length] in Hlen.
  rewrite string_app_cons, path_cleanLoop_cons.
  destruct (Ascii.eqb c "/"%char) eqn:Hslash; [apply IH; [lia|done]|].
  destruct (Ascii.eqb c "."%char && path.elementEnds (r +:+ String "/" t))
    eqn:Hdot; [apply IH; [lia|done]|].
  destruct (path.isDotDot c (r +:+ String "/" t)) eqn:Hdd.
  - destruct r as [|c1 r2].
    { rewrite string_app_nil_l in Hdd. cbn [path.isDotDot] in Hdd.
      change (Ascii.eqb "/" ".") with false in Hdd.
      by rewrite andb_false_r in Hdd. }
    rewrite string_app_cons. cbn [String.length] in Hlen. cbn zeta.
    destruct (dd <? length out)%nat eqn:Hlt.
    + apply IH; [lia|]. apply backtrack_rootedBuf; [done|].
      by apply Nat.ltb_lt.
    + destruct rooted; cbn [negb]; (apply IH; [lia|done]).
  - destruct (copyElement_reaches rooted dd t r
                (c :: if path.needSlash rooted out then "/"%char :: out
                      else out)) as (l & ext & Hl & ->).
    apply IH; [lia|]. intros Hr. destruct (HJ Hr) as (Hdd1 & pre & ->).
    split; [done|]. destruct (path.needSlash rooted _).
    + exists (ext ++ c :: "/"%char :: pre). by rewrite <- app_assoc.
    + exists (ext ++ c :: pre). by rewrite <- app_assoc.
Qed.

(** A last element that is a proper element ends the output, after a
    slash or alone. *)
Lemma cleanLoop_last_element rooted name out dd :
  properElem name → rootedBuf rooted out dd →
  ∃ X, path.cleanLoop rooted name out dd = rev (chars name) ++ X
       ∧ (X = [] ∨ ∃ X', X = "/"%char :: X').
Proof.
  intros Hname HJ.
  replace (path.cleanLoop rooted name out dd)
    with (path.cleanLoop rooted (name +:+ "") out dd)
    by (by rewrite string_app_nil_r).
  rewrite path_cleanLoop_elem by done. cbn [path.cleanLoop].
  eexists. split; [done|].
  unfold path.needSlash. destruct rooted; cbn [andb negb orb].
  - rewrite orb_false_r. destruct (HJ eq_refl) as (_ & pre & ->).
    destruct pre as [|x pre]; [right; by eexists|].
    replace (length ((x :: pre) ++ ["/"%char]) =? 1)%nat with false;
      [right; by eexists|].
    symmetry. apply Nat.eqb_neq. cbn. rewrite length_app. cbn. lia.
  - destruct out; [by left|right; by eexists].
Qed.

Lemma extScan_app l :
  ∀ acc X,
    forallb (λ c, negb (Ascii.eqb c "/"%char)) l = true →
    X = [] ∨ (∃ X', X = "/"%char :: X') →
    filepath.extScan (l ++ X) acc = filepath.extScan l acc.
Proof.
  induction l as [|c l IH]; intros acc X Hl HX.
  - by destruct HX as [->|[X' ->]].
  - cbn in Hl. apply andb_prop in Hl as [Hc Hl]. apply negb_true_iff in Hc.
    cbn [app filepath.extScan]. rewrite Hc.
    destruct (Ascii.eqb c "."%char); [done|by apply IH].
Qed.

Lemma chars_string_of l : chars (String.string_of_list_ascii l) = l.
Proof. induction l as [|c l IH]; [done|]. cbn. by rewrite IH. Qed.

(** The extension of a cleaned path whose last element is a proper element
    is the extension of the element. *)
Lemma Ext_of_buffer name X :
  properElem name → X = [] ∨ (∃ X', X = "/"%char :: X') →
  filepath.Ext
    match (rev (chars name) ++ X)%list with
    | [] => "."
    | _ => String.string_of_list_ascii (rev (rev (chars name) ++ X)%list)
    end
  = filepath.Ext name.
Proof.
  intros Hname HX.
  destruct (properElem_chars name Hname) as (c & l & E & Hc & Hl).
  destruct (rev (chars name) ++ X) eqn:E'.
  { apply (f_equal (@length _)) in E'.
    rewrite length_app, length_rev, E in E'. cbn in E'. lia. }
  rewrite <- E'. unfold filepath.Ext.
  rewrite chars_string_of, rev_involutive. apply extScan_app; [|done].
  apply forallb_forall. intros x Hx%in_rev. rewrite E in Hx.
  destruct Hx as [<-|Hx]; [by rewrite Hc|].
  by apply (proj1 (forallb_forall _ _) Hl).
Qed.

Lemma Ext_Clean_element name :
  properElem name → filepath.Ext (path.Clean name) = filepath.Ext name.
Proof.
  intros Hname.
  destruct (properElem_chars name Hname) as (c & l & E & Hc & Hl).
  destruct name as [|c' r]; [done|]. cbn in E. simplify_eq.
  unfold path.Clean. rewrite Hc.
  destruct (cleanLoop_last_element false (String c r) [] 0 Hname)
    as (X & -> & HX); [done|].
  by apply Ext_of_buffer.
Qed.

Lemma Ext_Clean_last pre name :
  properElem name → pre ≠ "" →
  filepath.Ext (path.Clean (pre +:+ String "/" name)) = filepath.Ext name.
Proof.
  intros Hname Hpre. destruct pre as [|c r]; [done|].
  rewrite string_app_cons. unfold path.Clean.
  destruct (Ascii.eqb c "/"%char) eqn:Hc.
  - destruct (cleanLoop_reaches true name (String.length r) r ["/"%char] 1
                (le_n _)) as (out & dd & HJ & ->).
    { intros _. split; [done|]. by exists []. }
    destruct (cleanLoop_last_element _ _ _ _ Hname HJ) as (X & -> & HX).
    by apply Ext_of_buffer.
  - rewrite <- string_app_cons.
    destruct (cleanLoop_reaches false name (String.length (String c r))
                (String c r) [] 0 (le_n _)) as (out & dd & HJ & ->); [done|].
    destruct (cleanLoop_last_element _ _ _ _ Hname HJ) as (X & -> & HX).
    by apply Ext_of_buffer.
Qed.

(** [filepath.Ext] of a path joined from a directory and a name is the
    extension of the name. *)
Lemma Ext_Join f name :
  properElem name →
  filepath.Ext (filepath.Join [f; name]) = filepath.Ext name.
Proof.
  intros Hname. pose proof Hname as (Hne & _).
  cbn [filepath.Join].
  destruct (String.eqb f "") eqn:Hf.
  - destruct (String.eqb name "") eqn:Hn; [by apply String.eqb_eq in Hn|].
    change (String.concat "/" [name]) with name.
    by apply Ext_Clean_element.
  - apply String.eqb_neq in Hf.
    change (String.concat "/" [f; name]) with (f +:+ "/" +:+ name).
    change ("/" +:+ name) with (String "/" name).
    by apply Ext_Clean_last.
Qed.

Lemma plainName_properElem name : plainName name → properElem name.
Proof.
  intros [Hok Hpub]. split_and!.
  - intros ->. done.
  - by apply nameOk_slashFree.
  - intros ->. by vm_compute in Hpub.
  - intros ->. by vm_compute in Hpub.
Qed.

(** The entry of a file depends on the file's path through its extension
    only. *)
Lemma fileEntry_Ext T u f f' bs gbs :
  filepath.Ext f = filepath.Ext f' →
  fileEntry T u f bs gbs = fileEntry T u f' bs gbs.
Proof. intros E. unfold fileEntry. by rewrite E. Qed.

Lemma Ext_fpathUnder f segs name :
  properElem name →
  filepath.Ext (fpathUnder f (segs ++ [name])) = filepath.Ext name.
Proof.
  intros Hname. unfold fpathUnder. rewrite foldl_snoc. by apply Ext_Join.
Qed.

(** The entries of a walk do not depend on the directory it starts in. *)
Lemma entriesOf_fpath T gz u f f' d :
  treeOk d = true → entriesOf T gz u f d = entriesOf T gz u f' d.
Proof.
  intros Hok. unfold entriesOf. apply map_ext_in.
  intros [segs bs] Hin%list_elem_of_In. cbn [fst snd].
  pose proof (publishedFiles_plainNames _ _ _ Hok Hin) as Hnames.
  apply fileEntry_Ext.
  destruct segs as [|name segs _] using rev_ind.
  - pose proof (publishedFiles_sound _ _ _ Hin) as [Hat _].
    inversion Hat; subst. cbn in Hin. by apply elem_of_nil in Hin.
  - apply Forall_app in Hnames as [_ [Hn%plainName_properElem _]%Forall_cons].
    by rewrite !Ext_fpathUnder.
Qed.

(** X13: the handler built from a tree does not depend on the directory
    the tree is read from, and the content type of a published file is the
    registered type of the extension of the file's own name, whatever the
    names of the directories above it. *)
Theorem X13_directory_name_is_irrelevant T gz dir root h :
  treeOk root = true →
  NewHandler T gz dir root = (Some h, None) →
  (∀ dir', NewHandler T gz dir' root = (Some h, None))
  ∧ ∀ segs name bs,
      nodeAt root (segs ++ [name]) (RegularFile bs) →
      Forall (λ s, published s = true) (segs ++ [name]) →
      ∃ e, cache h !! urlOf (segs ++ [name]) = Some e
           ∧ contentType e = T (filepath.Ext name).
Proof.
  intros Hok Hb. split.
  - intros dir'.
    destruct (NewHandler_Some_inv T gz dir root h Hb) as (Hw & _).
    rewrite NewHandler_unfold in Hb |- *.
    rewrite (appendDirEntries_walkable T gz root [] "/" dir' Hw).
    rewrite (appendDirEntries_walkable T gz root [] "/" dir Hw) in Hb.
    by rewrite (entriesOf_fpath T gz "/" dir' dir).
  - intros segs name bs Hat Hpub.
    assert ((segs ++ [name], bs) ∈ publishedFiles root) as Hin.
    { apply publishedFiles_complete; [done| |done]. by destruct segs. }
    eexists. split; [by apply (cache_lookup_published T gz dir root)|].
    rewrite fileEntry_contentType. f_equal. apply Ext_fpathUnder.
    apply plainName_properElem.
    pose proof (publishedFiles_plainNames _ _ _ Hok Hin) as Hnames.
    by apply Forall_app in Hnames as [_ [Hn _]%Forall_cons].
Qed.

Lemma X13_directory_name_is_irrelevant_witness :
  treeOk site = true
  ∧ NewHandler mime.TypeByExtension gzip.stored "dist" site
    = (Some siteHandler, None)
  ∧ NewHandler mime.TypeByExtension gzip.stored "/srv/www.old/../site" site
    = (Some siteHandler, None)
  ∧ nodeAt site (["assets"] ++ ["app.js"]) (RegularFile (noise 1500 1))
  ∧ Forall (λ s, published s = true) (["assets"] ++ ["app.js"])
  ∧ ∃ e, cache siteHandler !! urlOf (["assets"] ++ ["app.js"]) = Some e
         ∧ contentType e = mime.TypeByExtension ".js".
Proof.
  assert (nodeAt site (["assets"] ++ ["app.js"]) (RegularFile (noise 1500 1)))
    as Hat.
  { econstructor;
      [do 3 apply list_elem_of_further; apply list_elem_of_here|].
    econstructor; [apply list_elem_of_here|]. constructor. }
  assert (Forall (λ s, published s = true) (["assets"] ++ ["app.js"])) as Hp
    by (by repeat constructor).
  destruct (X13_directory_name_is_irrelevant _ _ _ _ _
              site_treeOk site_built) as [Hdir Hct].
  split_and!; [exact site_treeOk|exact site_built|apply Hdir|exact Hat|
               exact Hp|].
  exact (Hct _ _ _ Hat Hp).
Defined.
